(** * SolSniper risk and position-lifecycle engine: a shallow embedding

    The development follows the TypeScript sources module by module:

    - [Config]      src/config.ts          (the constants the core reads)
    - types         src/types              ([Position], [BotState], ...)
    - [Risk]        src/risk/manager.ts    (gate and sizer)
    - [Monitor]     src/monitor/positions  (fast loop, slow loop, exits)
    - [DipBuyer]    src/analyzer/dipBuyer  (pre-entry watchlist)
    - [Bot]         src/index.ts           (buy path, daily reset)
    - [Tasks]       the callbacks of the monitor and of the dip buyer
                    with their [await]s, and the scheduler

    Conventions of the embedding.

    - A JavaScript [number] holding money, a price or a percentage is a
      rational [Q]: arithmetic is exact, so rounding of IEEE doubles is not
      modelled and "within tolerance" reads as [==] on [Q].  Timestamps,
      counters and scores are integers [Z].
    - Position objects are shared by reference between [state.openPositions]
      and the local variable [p] of the monitor loops.  The model keeps the
      objects in a store [heap : Ref -> Position]; [openPositions] is a list
      of references and every [p.field = v] is a store update.  The string
      [id] of a position ([pos_<ms>_<random>]) is taken to be unique and is
      modelled by the reference itself, so [x.id !== p.id] is [x <> p].
    - The outside world (clock, price feed, executor, runner detector) is an
      explicit oracle record [Env]; one [Env] is supplied per tick, or per
      reply in [Tasks].
    - Calls to external collaborators (executor, storage, notifier) are
      appended to an event log carried by the [World]; [logger] calls are
      not modelled.
    - [Monitor], [DipBuyer] and [Bot] give each timer callback as one
      function from world to world: the callback run from start to return.
      The callbacks are [async] and the timers do not wait for them, so a
      run can be suspended at an [await] while another one starts on the
      same objects.  [Tasks] gives the same code cut at its [await]s, with
      a scheduler that interleaves the runs; the functions of [Monitor] and
      [DipBuyer] are the schedules in which every run returns before the
      next one starts (section "One run at a time, as a schedule"). *)

From Stdlib Require Import QArith Qminmax Qabs Qround ZArith List String Bool
  Lia Lqa.
Import ListNotations.
Open Scope Q_scope.

Set Implicit Arguments.

(** ** Numbers *)

(** [x < y] on JavaScript numbers, as a boolean. *)
Definition Qltb (x y : Q) : bool := negb (Qle_bool y x).

(** JavaScript truthiness of an optional number: [null], [undefined] and
    [0] are falsy. *)
Definition truthy (o : option Q) : bool :=
  match o with
  | Some x => negb (Qeq_bool x 0)
  | None => false
  end.

Definition truthyZ (o : option Z) : bool :=
  match o with
  | Some x => negb (x =? 0)%Z
  | None => false
  end.

(** [x || 0] on an optional number. *)
Definition orZero (o : option Q) : Q :=
  match o with
  | Some x => x
  | None => 0
  end.

(** [Math.ceil (a / b)] for integers [a] and positive [b]. *)
Definition ceilDiv (a b : Z) : Z := (- ((- a) / b))%Z.

(** ** src/config.ts *)

Module Config.

Record Rung := { triggerPercent : Q; sellPercent : Q }.
Record TrailLevel := { abovePercent : Q; trailPercent : Q }.

Module risk.
Definition initialCapital : Q := 0.6.
Definition reserveAmount : Q := 0.06.
Definition maxOpenPositions : nat := 18.
Definition positionSizes_low : Q := 0.025.
Definition positionSizes_medium : Q := 0.04.
Definition positionSizes_high : Q := 0.06.
Definition maxDailyLoss : Q := 0.30.
Definition pauseDuration : Z := (20 * 60 * 1000)%Z.
End risk.

Module runner.
Definition trailing_levels : list TrailLevel :=
  [ {| abovePercent := 0;   trailPercent := 0.20 |};
    {| abovePercent := 30;  trailPercent := 0.18 |};
    {| abovePercent := 80;  trailPercent := 0.15 |};
    {| abovePercent := 150; trailPercent := 0.12 |};
    {| abovePercent := 300; trailPercent := 0.10 |} ].
Definition secureProfits : list Rung :=
  [ {| triggerPercent := 0.50; sellPercent := 0.15 |};
    {| triggerPercent := 1.50; sellPercent := 0.15 |};
    {| triggerPercent := 3.00; sellPercent := 0.10 |} ].
Definition maxDuration : Z := (6 * 60 * 60 * 1000)%Z.
End runner.

Module monitor.
Definition trailingLevels : list TrailLevel :=
  [ {| abovePercent := 0;  trailPercent := 0.10 |};
    {| abovePercent := 15; trailPercent := 0.08 |};
    {| abovePercent := 30; trailPercent := 0.07 |};
    {| abovePercent := 50; trailPercent := 0.06 |} ].
Definition secureProfits : list Rung :=
  [ {| triggerPercent := 0.20; sellPercent := 0.30 |};
    {| triggerPercent := 0.40; sellPercent := 0.30 |} ].
Definition deadVolumeTimeout : Z := (3 * 60 * 1000)%Z.
Definition deadVolumeExtension : Z := (2 * 60 * 1000)%Z.
Definition deadVolumeStopLoss : Q := -10.
Definition maxPositionAge : Z := (90 * 60 * 1000)%Z.
Definition maxTrailingLoss : Q := -20.
End monitor.

Module dipBuyer.
Definition enabled : bool := true.
Definition maxWatchDuration : Z := (10 * 60 * 1000)%Z.
Definition minDipPercent : Q := 5.
Definition maxDipPercent : Q := 35.
Definition reboundConfirmPercent : Q := 2.
Definition maxWatchlistSize : nat := 20.
End dipBuyer.

End Config.

(** ** src/types *)

Inductive Confidence := c_ignore | c_watch | c_low | c_medium | c_high.

Record DetectedToken := {
  t_mintAddress : string;
  priceSol : Q;
  marketCap : Q;
  volume5m : Q;
  buyCount5m : Z;
  sellCount5m : Z }.

Record TokenAnalysis := {
  token : DetectedToken;
  score : Z;
  confidence : Confidence }.

Inductive Status := st_open | st_partial | st_closed.

Inductive CloseReason :=
  stop_loss | take_profit | trailing_stop | timeout | dead_volume | manual.

(** A position object.  The fields [id] (modelled by the reference),
    [symbol], [name], [entryTxSignature] and [trailingStopActive] (written
    once, never read by the core) are left out. *)
Record Position := {
  mintAddress : string;
  entryPriceSol : Q;
  entryAmountSol : Q;
  tokenAmount : Q;
  entryTime : Z;
  p_score : Z;
  currentPriceSol : Q;
  highestPriceSol : Q;
  pnlPercent : Q;
  pnlSol : Q;
  remainingPercent : Q;
  takeProfitStage : nat;
  isRunner : bool;
  runnerPromotedAt : option Z;
  status : Status;
  closeReason : option CloseReason }.

Definition Ref := nat.

Inductive Priority := pr_high | pr_normal.

Record TradeOrder := {
  o_mintAddress : string;
  amountSol : Q;
  o_score : Z;
  priority : Priority }.

(** The ledger.  [closedToday] is only ever assigned the empty array;
    [seenTokens], [watchList] and [startTime] are not read by the core. *)
Record BotState := {
  totalCapitalSol : Q;
  availableCapitalSol : Q;
  reserveSol : Q;
  openPositions : list Ref;
  dailyPnlSol : Q;
  dailyPnlPercent : Q;
  dailyTradeCount : Z;
  dailyWinCount : Z;
  dailyLossCount : Z;
  isPaused : bool;
  pauseUntil : option Z }.

(** *** Field updates *)

Definition set_price (price pnl : Q) (p : Position) : Position :=
  {| mintAddress := mintAddress p; entryPriceSol := entryPriceSol p;
     entryAmountSol := entryAmountSol p; tokenAmount := tokenAmount p;
     entryTime := entryTime p; p_score := p_score p;
     currentPriceSol := price; highestPriceSol := highestPriceSol p;
     pnlPercent := pnl; pnlSol := pnlSol p;
     remainingPercent := remainingPercent p;
     takeProfitStage := takeProfitStage p; isRunner := isRunner p;
     runnerPromotedAt := runnerPromotedAt p; status := status p;
     closeReason := closeReason p |}.

Definition set_pnlSol (v : Q) (p : Position) : Position :=
  {| mintAddress := mintAddress p; entryPriceSol := entryPriceSol p;
     entryAmountSol := entryAmountSol p; tokenAmount := tokenAmount p;
     entryTime := entryTime p; p_score := p_score p;
     currentPriceSol := currentPriceSol p;
     highestPriceSol := highestPriceSol p;
     pnlPercent := pnlPercent p; pnlSol := v;
     remainingPercent := remainingPercent p;
     takeProfitStage := takeProfitStage p; isRunner := isRunner p;
     runnerPromotedAt := runnerPromotedAt p; status := status p;
     closeReason := closeReason p |}.

Definition set_highest (v : Q) (p : Position) : Position :=
  {| mintAddress := mintAddress p; entryPriceSol := entryPriceSol p;
     entryAmountSol := entryAmountSol p; tokenAmount := tokenAmount p;
     entryTime := entryTime p; p_score := p_score p;
     currentPriceSol := currentPriceSol p; highestPriceSol := v;
     pnlPercent := pnlPercent p; pnlSol := pnlSol p;
     remainingPercent := remainingPercent p;
     takeProfitStage := takeProfitStage p; isRunner := isRunner p;
     runnerPromotedAt := runnerPromotedAt p; status := status p;
     closeReason := closeReason p |}.

Definition set_runner (at_ : Z) (p : Position) : Position :=
  {| mintAddress := mintAddress p; entryPriceSol := entryPriceSol p;
     entryAmountSol := entryAmountSol p; tokenAmount := tokenAmount p;
     entryTime := entryTime p; p_score := p_score p;
     currentPriceSol := currentPriceSol p;
     highestPriceSol := highestPriceSol p;
     pnlPercent := pnlPercent p; pnlSol := pnlSol p;
     remainingPercent := remainingPercent p;
     takeProfitStage := takeProfitStage p; isRunner := true;
     runnerPromotedAt := Some at_; status := status p;
     closeReason := closeReason p |}.

Definition set_stage (n : nat) (p : Position) : Position :=
  {| mintAddress := mintAddress p; entryPriceSol := entryPriceSol p;
     entryAmountSol := entryAmountSol p; tokenAmount := tokenAmount p;
     entryTime := entryTime p; p_score := p_score p;
     currentPriceSol := currentPriceSol p;
     highestPriceSol := highestPriceSol p;
     pnlPercent := pnlPercent p; pnlSol := pnlSol p;
     remainingPercent := remainingPercent p;
     takeProfitStage := n; isRunner := isRunner p;
     runnerPromotedAt := runnerPromotedAt p; status := status p;
     closeReason := closeReason p |}.

(** [p.remainingPercent = v; p.status = s; p.closeReason = c]. *)
Definition set_exit (v : Q) (s : Status) (c : option CloseReason)
  (p : Position) : Position :=
  {| mintAddress := mintAddress p; entryPriceSol := entryPriceSol p;
     entryAmountSol := entryAmountSol p; tokenAmount := tokenAmount p;
     entryTime := entryTime p; p_score := p_score p;
     currentPriceSol := currentPriceSol p;
     highestPriceSol := highestPriceSol p;
     pnlPercent := pnlPercent p; pnlSol := pnlSol p;
     remainingPercent := v;
     takeProfitStage := takeProfitStage p; isRunner := isRunner p;
     runnerPromotedAt := runnerPromotedAt p; status := s;
     closeReason := c |}.

Definition set_pause (b : bool) (u : option Z) (s : BotState) : BotState :=
  {| totalCapitalSol := totalCapitalSol s;
     availableCapitalSol := availableCapitalSol s;
     reserveSol := reserveSol s; openPositions := openPositions s;
     dailyPnlSol := dailyPnlSol s; dailyPnlPercent := dailyPnlPercent s;
     dailyTradeCount := dailyTradeCount s;
     dailyWinCount := dailyWinCount s; dailyLossCount := dailyLossCount s;
     isPaused := b; pauseUntil := u |}.

Definition set_capital (total avail : Q) (s : BotState) : BotState :=
  {| totalCapitalSol := total; availableCapitalSol := avail;
     reserveSol := reserveSol s; openPositions := openPositions s;
     dailyPnlSol := dailyPnlSol s; dailyPnlPercent := dailyPnlPercent s;
     dailyTradeCount := dailyTradeCount s;
     dailyWinCount := dailyWinCount s; dailyLossCount := dailyLossCount s;
     isPaused := isPaused s; pauseUntil := pauseUntil s |}.

Definition set_open (l : list Ref) (s : BotState) : BotState :=
  {| totalCapitalSol := totalCapitalSol s;
     availableCapitalSol := availableCapitalSol s;
     reserveSol := reserveSol s; openPositions := l;
     dailyPnlSol := dailyPnlSol s; dailyPnlPercent := dailyPnlPercent s;
     dailyTradeCount := dailyTradeCount s;
     dailyWinCount := dailyWinCount s; dailyLossCount := dailyLossCount s;
     isPaused := isPaused s; pauseUntil := pauseUntil s |}.

(** [state.dailyPnlSol += pnl; state.dailyPnlPercent = ...] *)
Definition add_dailyPnl (pnl : Q) (s : BotState) : BotState :=
  {| totalCapitalSol := totalCapitalSol s;
     availableCapitalSol := availableCapitalSol s;
     reserveSol := reserveSol s; openPositions := openPositions s;
     dailyPnlSol := dailyPnlSol s + pnl;
     dailyPnlPercent :=
       ((dailyPnlSol s + pnl) / Config.risk.initialCapital) * 100;
     dailyTradeCount := dailyTradeCount s;
     dailyWinCount := dailyWinCount s; dailyLossCount := dailyLossCount s;
     isPaused := isPaused s; pauseUntil := pauseUntil s |}.

(** [state.dailyTradeCount++] and one of [dailyWinCount++],
    [dailyLossCount++]. *)
Definition count_trade (win : bool) (s : BotState) : BotState :=
  {| totalCapitalSol := totalCapitalSol s;
     availableCapitalSol := availableCapitalSol s;
     reserveSol := reserveSol s; openPositions := openPositions s;
     dailyPnlSol := dailyPnlSol s; dailyPnlPercent := dailyPnlPercent s;
     dailyTradeCount := (dailyTradeCount s + 1)%Z;
     dailyWinCount :=
       if win then (dailyWinCount s + 1)%Z else dailyWinCount s;
     dailyLossCount :=
       if win then dailyLossCount s else (dailyLossCount s + 1)%Z;
     isPaused := isPaused s; pauseUntil := pauseUntil s |}.

Definition add_available (x : Q) (s : BotState) : BotState :=
  set_capital (totalCapitalSol s) (availableCapitalSol s + x) s.

(** ** The world: ledger, object store, monitor timers and event log *)

Record SellResult := { success : bool; solReceived : option Q }.

Record BuyResult := {
  b_success : bool;
  b_signature : bool;           (* a non-empty signature was returned *)
  b_tokenAmount : option Q;
  b_priceSol : option Q }.

(** The [reason] string handed to [executeSell]: a ladder label or a close
    reason. *)
Inductive SellReason :=
| ScalpTP (trigger : Q)
| RunnerTP (trigger : Q)
| Closing (c : CloseReason).

Inductive Notification :=
| RiskAlert (dailyPnlPercent : Q)
| SellProfit (p : Ref) (pnlPercent pnlSol : Q)
| SellLoss (p : Ref) (pnlPercent pnlSol : Q)
| TrailingStopHit (p : Ref) (pnlPercent pnlSol highestPnl : Q)
| Bought (p : Ref) (amountSol : Q).

Inductive Event :=
| ExecuteSell (p : Ref) (snapshot : Position) (percentToSell : Q)
    (reason : SellReason) (result : SellResult)
| SaveTrade (p : Ref) (investedSol returnedSol pnlSol pnlPercent : Q)
    (reason : CloseReason)
| Notify (n : Notification).

Record Env := {
  now : Z;                                            (* Date.now() *)
  fetchCurrentPrice : string -> option Q;
  executeSell : Position -> Q -> SellReason -> SellResult;
  executeBuy : TradeOrder -> BuyResult;
  checkIfRunner : Position -> bool }.

Record World := {
  state : BotState;
  heap : Ref -> Position;
  nextRef : Ref;
  deadVolumeTimers : list (Ref * Z);
  events : list Event }.

Definition with_state (f : BotState -> BotState) (w : World) : World :=
  {| state := f (state w); heap := heap w; nextRef := nextRef w;
     deadVolumeTimers := deadVolumeTimers w; events := events w |}.

(** [p.field = v] for the object behind reference [r]. *)
Definition update (r : Ref) (f : Position -> Position) (w : World) : World :=
  {| state := state w;
     heap := fun x => if Nat.eqb x r then f (heap w r) else heap w x;
     nextRef := nextRef w;
     deadVolumeTimers := deadVolumeTimers w; events := events w |}.

Definition emit (e : Event) (w : World) : World :=
  {| state := state w; heap := heap w; nextRef := nextRef w;
     deadVolumeTimers := deadVolumeTimers w; events := events w ++ [e] |}.

Definition with_timers (f : list (Ref * Z) -> list (Ref * Z)) (w : World)
  : World :=
  {| state := state w; heap := heap w; nextRef := nextRef w;
     deadVolumeTimers := f (deadVolumeTimers w); events := events w |}.

(** The [Map<string, number>] of dead-data timers. *)
Module Timers.
Definition t := list (Ref * Z).
Fixpoint get (k : Ref) (m : t) : option Z :=
  match m with
  | [] => None
  | (k', v) :: m' => if Nat.eqb k k' then Some v else get k m'
  end.
Definition has (k : Ref) (m : t) : bool :=
  match get k m with Some _ => true | None => false end.
Definition delete (k : Ref) (m : t) : t :=
  filter (fun kv => negb (Nat.eqb (fst kv) k)) m.
Definition set (k : Ref) (v : Z) (m : t) : t :=
  if has k m
  then map (fun kv => if Nat.eqb (fst kv) k then (k, v) else kv) m
  else m ++ [(k, v)].
End Timers.

(** ** src/risk/manager.ts *)

Module Risk.
Import Config.

Definition getDeployableCapital (s : BotState) : Q :=
  let deployable := availableCapitalSol s - risk.reserveAmount in
  Qmax 0 deployable.

Inductive DenyReason :=
| Paused (remainingMinutes : Z)
| MaxPositions
| DailyLossReached
| InsufficientCapital.

Inductive Gate := Allowed | Denied (reason : DenyReason).

(** [state.pauseUntil && Date.now() < state.pauseUntil] *)
Definition pauseRunning (now : Z) (s : BotState) : bool :=
  truthyZ (pauseUntil s) &&
  match pauseUntil s with
  | Some u => (now <? u)%Z
  | None => false
  end.

Definition pauseRemaining (now : Z) (s : BotState) : Z :=
  match pauseUntil s with
  | Some u => ceilDiv (u - now) 60000
  | None => 0%Z
  end.

(** The body of [canOpenPosition] below the pause block: position cap,
    daily-loss breaker, dust check. *)
Definition openChecks (now : Z) (s : BotState)
  : Gate * BotState * list Event :=
  if (risk.maxOpenPositions <=? List.length (openPositions s))%nat then
    (Denied MaxPositions, s, [])
  else
    let dailyLossPercent := Qabs (dailyPnlSol s) / risk.initialCapital in
    if Qltb (dailyPnlSol s) 0
       && Qle_bool risk.maxDailyLoss dailyLossPercent then
      let s' := set_pause true (Some (now + risk.pauseDuration)%Z) s in
      (Denied DailyLossReached, s',
       [Notify (RiskAlert (dailyPnlPercent s'))])
    else
      let deployable := getDeployableCapital s in
      if Qltb deployable 0.005 then (Denied InsufficientCapital, s, [])
      else (Allowed, s, []).

Definition canOpenPosition (now : Z) (s : BotState)
  : Gate * BotState * list Event :=
  if isPaused s then
    if pauseRunning now s then
      (Denied (Paused (pauseRemaining now s)), s, [])
    else
      openChecks now (set_pause false None s)
  else openChecks now s.

(** The size before the floor and the cap: tier percentage, loss
    shrink, win-streak growth. *)
Definition adjustedSize (analysis : TokenAnalysis) (s : BotState) : Q :=
  let deployable := getDeployableCapital s in
  let sizePercent :=
    if (60 <=? score analysis)%Z then risk.positionSizes_high
    else if (50 <=? score analysis)%Z then risk.positionSizes_medium
    else risk.positionSizes_low in
  let positionSize := deployable * sizePercent in
  let positionSize :=
    if Qltb (dailyPnlSol s) 0 then
      let lossRatio := Qabs (dailyPnlSol s) / risk.initialCapital in
      let reduction := 1 - lossRatio in
      positionSize * Qmax 0.5 reduction
    else positionSize in
  if Qltb 0 (dailyPnlSol s) && (2 <? dailyWinCount s)%Z then
    let winRate :=
      inject_Z (dailyWinCount s)
      / inject_Z (Z.max 1 (dailyTradeCount s)) in
    if Qltb 0.6 winRate then positionSize * 1.1 else positionSize
  else positionSize.

Definition calculatePositionSize (analysis : TokenAnalysis) (s : BotState)
  : Q :=
  let deployable := getDeployableCapital s in
  let positionSize := adjustedSize analysis s in
  let positionSize := Qmax 0.003 positionSize in
  Qmin (deployable * 0.15) positionSize.

Definition alreadyOwned (mint : string) (w : World) : bool :=
  existsb (fun r => String.eqb (mintAddress (heap w r)) mint)
    (openPositions (state w)).

Definition shouldBuy (now : Z) (analysis : TokenAnalysis) (w : World)
  : option TradeOrder * World :=
  match confidence analysis with
  | c_ignore | c_watch => (None, w)
  | _ =>
    let '(check, s', evs) := canOpenPosition now (state w) in
    let w' :=
      {| state := s'; heap := heap w; nextRef := nextRef w;
         deadVolumeTimers := deadVolumeTimers w;
         events := events w ++ evs |} in
    match check with
    | Denied _ => (None, w')
    | Allowed =>
      if alreadyOwned (t_mintAddress (token analysis)) w' then (None, w')
      else
        (Some {| o_mintAddress := t_mintAddress (token analysis);
                 amountSol := calculatePositionSize analysis (state w');
                 o_score := score analysis;
                 priority :=
                   if (55 <=? score analysis)%Z then pr_high
                   else pr_normal |},
         w')
    end
  end.

(** The capital tied up in open positions, as [syncCapital] sums it. *)
Definition committed (w : World) : Q :=
  fold_left
    (fun sum r =>
       sum + entryAmountSol (heap w r) * (remainingPercent (heap w r) / 100))
    (openPositions (state w)) 0.

Definition syncCapital (balance : Q) (w : World) : World :=
  with_state (set_capital balance (balance - committed w)) w.

End Risk.

(** ** src/monitor/positions.ts *)

Module Monitor.
Import Config.

Definition received (res : SellResult) : Q := orZero (solReceived res).

Definition is_closed (p : Position) : bool :=
  match status p with st_closed => true | _ => false end.

(** [((price - entry) / entry) * 100] *)
Definition pnlOf (p : Position) (price : Q) : Q :=
  ((price - entryPriceSol p) / entryPriceSol p) * 100.

(** *** Sell helpers *)

(** [pct] is a percentage of the original position; the executor is
    asked for the matching percentage of what remains.  With nothing
    remaining the quotient is [+Infinity] for the positive [pct] of every
    caller, and [Math.min] returns 100. *)
Definition partialSell (E : Env) (r : Ref) (pct : Q) (reason : SellReason)
  (w : World) : World :=
  let p := heap w r in
  let eff :=
    if Qeq_bool (remainingPercent p) 0 then 100
    else Qmin 100 ((pct / remainingPercent p) * 100) in
  let result := executeSell E p eff reason in
  let w := emit (ExecuteSell r p eff reason result) w in
  if success result then
    let remaining := remainingPercent p - pct in
    let w :=
      update r
        (set_exit remaining
           (if Qle_bool remaining 0 then st_closed else st_partial)
           (closeReason p)) w in
    let pnl := received result - entryAmountSol p * (pct / 100) in
    let w := with_state (add_dailyPnl pnl) w in
    let w := with_state (add_available (received result)) w in
    if Qltb 0 pnl then emit (Notify (SellProfit r (pnlPercent p) pnl)) w
    else w
  else w.

Definition closePosition (E : Env) (r : Ref) (reason : CloseReason)
  (w : World) : World :=
  let p := heap w r in
  let result := executeSell E p (remainingPercent p) (Closing reason) in
  let w :=
    emit (ExecuteSell r p (remainingPercent p) (Closing reason) result) w in
  let w := update r (set_exit 0 st_closed (Some reason)) w in
  let w := with_timers (Timers.delete r) w in
  let invested := entryAmountSol p in
  let returned := received result in
  let pnlSol := returned - invested in
  let pnlPct :=
    if Qltb 0 invested then ((returned - invested) / invested) * 100
    else 0 in
  let w := emit (SaveTrade r invested returned pnlSol pnlPct reason) w in
  let w := with_state (add_dailyPnl pnlSol) w in
  let w := with_state (count_trade (Qltb 0 pnlSol)) w in
  let w := with_state (add_available returned) w in
  let w :=
    with_state
      (fun s =>
         set_open (filter (fun x => negb (Nat.eqb x r)) (openPositions s)) s)
      w in
  if Qle_bool 0 pnlSol then emit (Notify (SellProfit r pnlPct pnlSol)) w
  else emit (Notify (SellLoss r pnlPct pnlSol)) w.

(** *** Trail calculators *)

(** The downward scan [for (i = lvls.length - 1; i >= 0; i--)], on the
    reversed table. *)
Fixpoint scanLevels (lvls_rev : list TrailLevel) (pnl : Q) : option Q :=
  match lvls_rev with
  | [] => None
  | l :: rest =>
    if Qle_bool (abovePercent l) pnl then Some (trailPercent l)
    else scanLevels rest pnl
  end.

Definition getTrail (lvls : list TrailLevel) (pnl : Q) : Q :=
  match scanLevels (rev lvls) pnl with
  | Some t => t
  | None => match lvls with l :: _ => trailPercent l | [] => 0 end
  end.

Definition getScalpTrail : Q -> Q := getTrail monitor.trailingLevels.
Definition getRunnerTrail : Q -> Q := getTrail runner.trailing_levels.

(** *** The profit ladder *)

(** The iterations [i, i+1, ...] of the take-profit loop over the rungs
    not yet visited. *)
Fixpoint ladderFrom (E : Env) (label : Q -> SellReason) (rungs : list Rung)
  (i : nat) (r : Ref) (w : World) : World :=
  match rungs with
  | [] => w
  | sp :: rest =>
    let w :=
      if Qle_bool (triggerPercent sp * 100) (pnlPercent (heap w r)) then
        let w :=
          partialSell E r (sellPercent sp * 100)
            (label (triggerPercent sp * 100)) w in
        update r (set_stage (S i)) w
      else w in
    ladderFrom E label rest (S i) r w
  end.

(** [for (let i = p.takeProfitStage; i < table.length; i++)] *)
Definition takeProfitLoop (E : Env) (label : Q -> SellReason)
  (table : list Rung) (r : Ref) (w : World) : World :=
  let start := takeProfitStage (heap w r) in
  ladderFrom E label (skipn start table) start r w.

(** *** The two behaviour profiles of the slow loop *)

Definition handleScalp (E : Env) (r : Ref) (highestPnl : Q) (w : World)
  : World :=
  let p := heap w r in
  if Qle_bool 12 highestPnl && Qle_bool (pnlPercent p) 1 then
    closePosition E r trailing_stop w
  else if Qltb 8 highestPnl
          && Qle_bool (currentPriceSol p)
               (highestPriceSol p * (1 - getScalpTrail highestPnl)) then
    let w :=
      if Qltb 0 (pnlPercent p) then
        emit (Notify (TrailingStopHit r (pnlPercent p) (pnlSol p)
                        highestPnl)) w
      else w in
    closePosition E r trailing_stop w
  else
    let w := takeProfitLoop E ScalpTP monitor.secureProfits r w in
    let p := heap w r in
    if (monitor.maxPositionAge <? now E - entryTime p)%Z
       && Qle_bool (pnlPercent p) 3 then
      closePosition E r timeout w
    else w.

Definition handleRunner (E : Env) (r : Ref) (highestPnl : Q) (w : World)
  : World :=
  let p := heap w r in
  if Qltb 10 highestPnl
     && Qle_bool (currentPriceSol p)
          (highestPriceSol p * (1 - getRunnerTrail highestPnl)) then
    let w :=
      if Qltb 0 (pnlPercent p) then
        emit (Notify (TrailingStopHit r (pnlPercent p) (pnlSol p)
                        highestPnl)) w
      else w in
    closePosition E r trailing_stop w
  else
    let w := takeProfitLoop E RunnerTP runner.secureProfits r w in
    let p := heap w r in
    if (runner.maxDuration <? now E - entryTime p)%Z
       && Qle_bool (pnlPercent p) 5 then
      closePosition E r timeout w
    else w.

(** *** Slow loop *)

Definition checkPosition (E : Env) (r : Ref) (w : World) : World :=
  let p := heap w r in
  let fetched := fetchCurrentPrice E (mintAddress p) in
  if negb (truthy fetched) then w
  else
    let price := orZero fetched in
    let w := update r (set_price price (pnlOf p price)) w in
    let w :=
      update r
        (set_pnlSol ((price - entryPriceSol p) * tokenAmount p
                     * (remainingPercent p / 100))) w in
    let w :=
      if Qltb (highestPriceSol p) price then update r (set_highest price) w
      else w in
    let highestPnl := pnlOf p (highestPriceSol (heap w r)) in
    let w :=
      if negb (isRunner p) && Qle_bool 15 (pnlPercent (heap w r)) then
        if checkIfRunner E (heap w r) then update r (set_runner (now E)) w
        else w
      else w in
    if isRunner (heap w r) then handleRunner E r highestPnl w
    else handleScalp E r highestPnl w.

Definition snapshot (w : World) : list Ref :=
  filter (fun r => negb (is_closed (heap w r))) (openPositions (state w)).

Definition checkAllPositions (E : Env) (w : World) : World :=
  fold_left (fun w r => checkPosition E r w) (snapshot w) w.

(** *** Fast loop *)

(** The no-price branch: the dead-data timer and its four exits. *)
Definition deadVolume (E : Env) (r : Ref) (w : World) : World :=
  let p := heap w r in
  let w :=
    if negb (Timers.has r (deadVolumeTimers w)) then
      with_timers (Timers.set r (now E)) w
    else w in
  let deadSince :=
    match Timers.get r (deadVolumeTimers w) with
    | Some t => t
    | None => now E
    end in
  let deadDuration := (now E - deadSince)%Z in
  let close w :=
    closePosition E r dead_volume (with_timers (Timers.delete r) w) in
  if Qltb 0 (pnlPercent p) && (15000 <? deadDuration)%Z then close w
  else if Qle_bool (pnlPercent p) monitor.deadVolumeStopLoss
          && (monitor.deadVolumeTimeout <? deadDuration)%Z then close w
  else if Qltb (pnlPercent p) 0
          && Qltb monitor.deadVolumeStopLoss (pnlPercent p)
          && (monitor.deadVolumeTimeout + monitor.deadVolumeExtension
              <? deadDuration)%Z then close w
  else if (7 * 60 * 1000 <? deadDuration)%Z then close w
  else w.

(** The price-available branch: refresh, then the stop cascade. *)
Definition safetyStops (E : Env) (r : Ref) (price : Q) (w : World)
  : World :=
  let w :=
    if Timers.has r (deadVolumeTimers w) then
      with_timers (Timers.delete r) w
    else w in
  let p := heap w r in
  let w := update r (set_price price (pnlOf p price)) w in
  let w :=
    if Qltb (highestPriceSol p) price then update r (set_highest price) w
    else w in
  let p := heap w r in
  let age := (now E - entryTime p)%Z in
  if (age <? 30000)%Z && Qle_bool (pnlPercent p) (-4) && negb (isRunner p)
  then closePosition E r stop_loss w
  else if (age <? 60000)%Z && Qle_bool (pnlPercent p) (-7)
          && negb (isRunner p)
  then closePosition E r stop_loss w
  else if Qle_bool (pnlPercent p) (-12) && negb (isRunner p)
  then closePosition E r stop_loss w
  else if Qle_bool (pnlPercent p) monitor.maxTrailingLoss
          && negb (isRunner p)
  then closePosition E r trailing_stop w
  else if isRunner p && Qle_bool (pnlPercent p) 2 then
    let highestPnl := pnlOf p (highestPriceSol p) in
    if Qle_bool 15 highestPnl then closePosition E r trailing_stop w
    else w
  else w.

(** One iteration of [for (const result of results)]. *)
Definition fastCheckOne (E : Env) (r : Ref) (w : World) : World :=
  let p := heap w r in
  if is_closed p then w
  else
    let fetched := fetchCurrentPrice E (mintAddress p) in
    if negb (truthy fetched) then deadVolume E r w
    else safetyStops E r (orZero fetched) w.

Definition fastCheckParallel (E : Env) (w : World) : World :=
  fold_left (fun w r => fastCheckOne E r w) (snapshot w) w.

End Monitor.

(** ** src/analyzer/dipBuyer.ts *)

Module DipBuyer.
Import Config.

Inductive WatchState :=
  watching | dip_detected | waiting_rebound | buy_signal | expired
| abandoned.

Record WatchedToken := {
  analysis : TokenAnalysis;
  addedAt : Z;
  highestPrice : Q;
  lowestSinceHigh : Q;
  currentPrice : Q;
  lastCheck : Z;
  dipDetected : bool;
  dipPercent : Q;
  wstate : WatchState }.

(** The clock and the two price readings of one visit of an entry: the
    first fetch and the confirmation fetch two seconds later. *)
Record DipEnv := {
  d_now : Z;
  d_fetch : string -> option Q;
  d_confirm : string -> option Q }.

Definition set_wstate (st : WatchState) (x : WatchedToken) : WatchedToken :=
  {| analysis := analysis x; addedAt := addedAt x;
     highestPrice := highestPrice x; lowestSinceHigh := lowestSinceHigh x;
     currentPrice := currentPrice x; lastCheck := lastCheck x;
     dipDetected := dipDetected x; dipPercent := dipPercent x;
     wstate := st |}.

Definition set_reading (price : Q) (t : Z) (x : WatchedToken)
  : WatchedToken :=
  {| analysis := analysis x; addedAt := addedAt x;
     highestPrice := highestPrice x; lowestSinceHigh := lowestSinceHigh x;
     currentPrice := price; lastCheck := t;
     dipDetected := dipDetected x; dipPercent := dipPercent x;
     wstate := wstate x |}.

Definition set_high_low (hi lo : Q) (x : WatchedToken) : WatchedToken :=
  {| analysis := analysis x; addedAt := addedAt x;
     highestPrice := hi; lowestSinceHigh := lo;
     currentPrice := currentPrice x; lastCheck := lastCheck x;
     dipDetected := dipDetected x; dipPercent := dipPercent x;
     wstate := wstate x |}.

Definition set_dip (detected : bool) (pct : Q) (x : WatchedToken)
  : WatchedToken :=
  {| analysis := analysis x; addedAt := addedAt x;
     highestPrice := highestPrice x; lowestSinceHigh := lowestSinceHigh x;
     currentPrice := currentPrice x; lastCheck := lastCheck x;
     dipDetected := detected; dipPercent := pct;
     wstate := wstate x |}.

(** [((high - low) / high) * 100] *)
Definition dipFromHigh (x : WatchedToken) : Q :=
  ((highestPrice x - lowestSinceHigh x) / highestPrice x) * 100.

(** [((price - low) / low) * 100] *)
Definition reboundFromLow (x : WatchedToken) (price : Q) : Q :=
  ((price - lowestSinceHigh x) / lowestSinceHigh x) * 100.

Definition Watchlist := list (string * WatchedToken).

Section Callback.
(** [startDipBuyer] receives the buy callback from its caller; the
    model is parametric in it and in the state [S] it acts on. *)
Variable S : Type.
Variable onBuySignal : TokenAnalysis -> S -> S.

(** The body of the loop of [checkWatchlist] for one entry, run from
    the expiry test to the end of the [switch] with nothing in between
    ([Tasks.visit] has the same body cut at its [await]s).  The boolean
    tells whether the entry is still in the map afterwards. *)
Definition checkOne (E : DipEnv) (mint : string) (watched : WatchedToken)
  (s : S) : WatchedToken * bool * S :=
  if (dipBuyer.maxWatchDuration <? d_now E - addedAt watched)%Z then
    (set_wstate expired watched, false, s)
  else
    let fetched := d_fetch E mint in
    if negb (truthy fetched) then (watched, true, s)
    else
      let price := orZero fetched in
      let watched := set_reading price (d_now E) watched in
      let watched :=
        if Qltb (highestPrice watched) price then
          set_high_low price price watched
        else watched in
      let watched :=
        if Qltb price (lowestSinceHigh watched) then
          set_high_low (highestPrice watched) price watched
        else watched in
      let dip := dipFromHigh watched in
      let watched := set_dip (dipDetected watched) dip watched in
      match wstate watched with
      | watching =>
        if Qle_bool dipBuyer.maxDipPercent dip then
          (set_wstate abandoned watched, false, s)
        else if Qle_bool dipBuyer.minDipPercent dip then
          (set_wstate waiting_rebound (set_dip true dip watched), true, s)
        else (watched, true, s)
      | waiting_rebound =>
        if Qle_bool dipBuyer.maxDipPercent dip then
          (set_wstate abandoned watched, false, s)
        else
          let rebound := reboundFromLow watched price in
          if Qle_bool dipBuyer.reboundConfirmPercent rebound then
            let confirmPrice := d_confirm E mint in
            if negb (truthy confirmPrice)
               || Qle_bool (orZero confirmPrice) (lowestSinceHigh watched)
            then (watched, true, s)
            else
              let confirmedRebound :=
                reboundFromLow watched (orZero confirmPrice) in
              if Qltb confirmedRebound dipBuyer.reboundConfirmPercent
              then (watched, true, s)
              else
                (set_wstate buy_signal watched, false,
                 onBuySignal (analysis watched) s)
          else (watched, true, s)
      | _ => (watched, true, s)
      end.

(** [for (const [mint, watched] of watchlist)], in insertion order. *)
Fixpoint checkWatchlist (E : DipEnv) (wl : Watchlist) (s : S)
  : Watchlist * S :=
  match wl with
  | [] => ([], s)
  | (mint, watched) :: rest =>
    let '(watched', keep, s') := checkOne E mint watched s in
    let '(rest', s'') := checkWatchlist E rest s' in
    ((if keep then [(mint, watched')] else []) ++ rest', s'')
  end.
End Callback.

Definition has (mint : string) (wl : Watchlist) : bool :=
  existsb (fun kv => String.eqb (fst kv) mint) wl.

(** The key of the oldest entry, first one on ties. *)
Fixpoint oldest (wl : Watchlist) (best : option (string * Z))
  : option string :=
  match wl with
  | [] => option_map fst best
  | (k, v) :: rest =>
    match best with
    | Some (_, t) =>
      if (addedAt v <? t)%Z then oldest rest (Some (k, addedAt v))
      else oldest rest best
    | None => oldest rest (Some (k, addedAt v))
    end
  end.

Definition addToWatchlist (E : DipEnv) (a : TokenAnalysis) (wl : Watchlist)
  : Watchlist :=
  let mint := t_mintAddress (token a) in
  if has mint wl then wl
  else
    let wl :=
      if (dipBuyer.maxWatchlistSize <=? List.length wl)%nat then
        match oldest wl None with
        | Some k => filter (fun kv => negb (String.eqb (fst kv) k)) wl
        | None => wl
        end
      else wl in
    let fetched := d_fetch E mint in
    if negb (truthy fetched) then wl
    else
      let price := orZero fetched in
      wl ++ [(mint,
              {| analysis := a; addedAt := d_now E;
                 highestPrice := price; lowestSinceHigh := price;
                 currentPrice := price; lastCheck := d_now E;
                 dipDetected := false; dipPercent := 0;
                 wstate := watching |})].

End DipBuyer.

(** ** src/index.ts *)

Module Bot.
Import Config.

Definition blank : Position :=
  {| mintAddress := EmptyString; entryPriceSol := 0; entryAmountSol := 0;
     tokenAmount := 0; entryTime := 0%Z; p_score := 0%Z;
     currentPriceSol := 0; highestPriceSol := 0; pnlPercent := 0;
     pnlSol := 0; remainingPercent := 0; takeProfitStage := 0%nat;
     isRunner := false; runnerPromotedAt := None; status := st_closed;
     closeReason := None |}.

(** The ledger as [main] leaves it once the balance is known; the store
    holds no position yet. *)
Definition initialWorld (balance : Q) : World :=
  {| state :=
       {| totalCapitalSol := balance; availableCapitalSol := balance;
          reserveSol := risk.reserveAmount; openPositions := [];
          dailyPnlSol := 0; dailyPnlPercent := 0; dailyTradeCount := 0%Z;
          dailyWinCount := 0%Z; dailyLossCount := 0%Z;
          isPaused := false; pauseUntil := None |};
     heap := fun _ => blank;
     nextRef := 0%nat;
     deadVolumeTimers := [];
     events := [] |}.

(** [state.openPositions.push(position)] with a freshly allocated
    object. *)
Definition pushPosition (p : Position) (w : World) : World :=
  {| state := set_open (openPositions (state w) ++ [nextRef w]) (state w);
     heap := fun x => if Nat.eqb x (nextRef w) then p else heap w x;
     nextRef := S (nextRef w);
     deadVolumeTimers := deadVolumeTimers w;
     events := events w |}.

Definition executeDirectBuy (E : Env) (a : TokenAnalysis) (w : World)
  : World :=
  let '(order, w) := Risk.shouldBuy (now E) a w in
  match order with
  | None => w
  | Some order =>
    let preBuyPrice := fetchCurrentPrice E (t_mintAddress (token a)) in
    if negb (truthy preBuyPrice) then w
    else
      let drift :=
        ((orZero preBuyPrice - priceSol (token a)) / priceSol (token a))
        * 100 in
      if Qltb 0 (priceSol (token a)) && Qltb drift (-8) then w
      else
        let result := executeBuy E order in
        if b_success result && b_signature result
           && truthy (b_tokenAmount result) && truthy (b_priceSol result)
        then
          let totalTx := (buyCount5m (token a) + sellCount5m (token a))%Z in
          let buyRatio :=
            if (0 <? totalTx)%Z then
              inject_Z (buyCount5m (token a)) / inject_Z totalTx
            else 0 in
          let isEarlyRunner :=
            Qltb 0 (marketCap (token a))
            && Qltb (marketCap (token a)) 50000
            && Qltb 0 (volume5m (token a))
            && Qltb 0.55 buyRatio in
          let position :=
            {| mintAddress := t_mintAddress (token a);
               entryPriceSol := orZero (b_priceSol result);
               entryAmountSol := amountSol order;
               tokenAmount := orZero (b_tokenAmount result);
               entryTime := now E;
               p_score := score a;
               currentPriceSol := orZero (b_priceSol result);
               highestPriceSol := orZero (b_priceSol result);
               pnlPercent := 0;
               pnlSol := 0;
               remainingPercent := 100;
               takeProfitStage := 0;
               isRunner := isEarlyRunner;
               runnerPromotedAt :=
                 if isEarlyRunner then Some (now E) else None;
               status := st_open;
               closeReason := None |} in
          let r := nextRef w in
          let w := pushPosition position w in
          let w := with_state (add_available (- amountSol order)) w in
          emit (Notify (Bought r (amountSol order))) w
        else w
  end.

Definition resetDailyCounters (s : BotState) : BotState :=
  {| totalCapitalSol := totalCapitalSol s;
     availableCapitalSol := availableCapitalSol s;
     reserveSol := reserveSol s; openPositions := openPositions s;
     dailyPnlSol := 0; dailyPnlPercent := 0; dailyTradeCount := 0%Z;
     dailyWinCount := 0%Z; dailyLossCount := 0%Z;
     isPaused := false; pauseUntil := None |}.

(** The timer callbacks and the buy path, each run from start to
    return before the next one starts.  The monitor timers do not wait
    for a run to return: [Tasks.step] has the same callbacks as the
    timers interleave them. *)
Inductive Action :=
| Buy (E : Env) (a : TokenAnalysis)
| FastTick (E : Env)
| SlowTick (E : Env)
| DailyReset.

Definition step (w : World) (a : Action) : World :=
  match a with
  | Buy E an => executeDirectBuy E an w
  | FastTick E => Monitor.fastCheckParallel E w
  | SlowTick E => Monitor.checkAllPositions E w
  | DailyReset => with_state resetDailyCounters w
  end.

Definition run (acts : list Action) (w : World) : World :=
  fold_left step acts w.

End Bot.

(** ** src/monitor/positions.ts: runner detection *)

Module RunnerDetect.

(** The fields of the first pair of the DexScreener answer that
    [checkIfRunner] reads; a missing field is [None]. *)
Record PairData := {
  pd_marketCap : option Q;
  pd_fdv : option Q;
  pd_volume_m5 : option Q;
  pd_volume_h1 : option Q;
  pd_buys : option Q;
  pd_sells : option Q;
  pd_priceChange_m5 : option Q }.

(** [a || b || 0] *)
Definition firstTruthy (a b : option Q) : Q :=
  if truthy a then orZero a else if truthy b then orZero b else 0.

(** [x || 0] with JavaScript truthiness. *)
Definition orNought (a : option Q) : Q :=
  if truthy a then orZero a else 0.

Definition signalList (pair : PairData) : list bool :=
  let mc := firstTruthy (pd_marketCap pair) (pd_fdv pair) in
  let vol5m := orNought (pd_volume_m5 pair) in
  let vol1h := orNought (pd_volume_h1 pair) in
  let avgVol5m := if Qltb 0 vol1h then vol1h / 12 else 0 in
  let buys := orNought (pd_buys pair) in
  let sells := orNought (pd_sells pair) in
  let total := buys + sells in
  let buyRatio := if Qltb 0 total then buys / total else 0 in
  let priceChange5m := orNought (pd_priceChange_m5 pair) in
  [ Qltb 0 avgVol5m && Qltb (avgVol5m * 1.5) vol5m;
    Qle_bool 0.55 buyRatio;
    Qltb 0 priceChange5m;
    Qltb mc 200000 ].

(** [.filter(Boolean).length] *)
Definition signals (pair : PairData) : nat :=
  List.length (filter (fun b => b) (signalList pair)).

(** [resp] is [None] when the request fails or carries no pair. *)
Definition checkIfRunner (resp : option PairData) : bool :=
  match resp with
  | None => false
  | Some data => (3 <=? signals data)%nat
  end.

End RunnerDetect.

(** ** src/index.ts: intake and dispatch *)

Module Pipeline.
Import Config.

(** [state.seenTokens] (a [Set], in insertion order) and the token
    queue. *)
Record Intake := {
  seenTokens : list string;
  tokenQueue : list DetectedToken }.

Definition seen (mint : string) (l : list string) : bool :=
  existsb (String.eqb mint) l.

(** [set.delete(t)] *)
Definition forget (t : string) (l : list string) : list string :=
  filter (fun x => negb (String.eqb x t)) l.

Definition onTokenDetected (token : DetectedToken) (q : Intake) : Intake :=
  if seen (t_mintAddress token) (seenTokens q) then q
  else
    let s := seenTokens q ++ [t_mintAddress token] in
    let s :=
      if (10000 <? Z.of_nat (List.length s))%Z then
        fold_left (fun s t => forget t s) (firstn (Z.to_nat 5000) s) s
      else s in
    {| seenTokens := s; tokenQueue := tokenQueue q ++ [token] |}.

(** [processToken] once the analysis is known; the detection
    notifications are not modelled. *)
Definition processToken (E : Env) (D : DipBuyer.DipEnv)
  (analysis : TokenAnalysis) (sys : World * DipBuyer.Watchlist)
  : World * DipBuyer.Watchlist :=
  match confidence analysis with
  | c_ignore => sys
  | c_watch =>
    if dipBuyer.enabled then
      (fst sys, DipBuyer.addToWatchlist D analysis (snd sys))
    else sys
  | c_low | c_medium | c_high =>
    (Bot.executeDirectBuy E analysis (fst sys), snd sys)
  end.

(** One tick of the dip buyer as [main] wires it: the buy callback is
    [onDipBuySignal], that is [executeDirectBuy]. *)
Definition dipTick (E : Env) (D : DipBuyer.DipEnv)
  (sys : World * DipBuyer.Watchlist) : World * DipBuyer.Watchlist :=
  let '(wl, w) :=
    DipBuyer.checkWatchlist (Bot.executeDirectBuy E) D (snd sys) (fst sys) in
  (w, wl).

Inductive Input :=
| Analysed (E : Env) (D : DipBuyer.DipEnv) (analysis : TokenAnalysis)
| DipTick (E : Env) (D : DipBuyer.DipEnv)
| Engine (a : Bot.Action).

Definition feed (sys : World * DipBuyer.Watchlist) (i : Input)
  : World * DipBuyer.Watchlist :=
  match i with
  | Analysed E D analysis => processToken E D analysis sys
  | DipTick E D => dipTick E D sys
  | Engine a => (Bot.step (fst sys) a, snd sys)
  end.

Definition runAll (inputs : list Input) (sys : World * DipBuyer.Watchlist)
  : World * DipBuyer.Watchlist :=
  fold_left feed inputs sys.

End Pipeline.

(** ** Timer callbacks as interleaved tasks *)

(** [setInterval] starts a new run of an [async] callback at every
    period, whether or not the previous run has returned.  A run executes
    until its next [await] of an outside reply (a price, the executor, the
    runner data, the webhook, a sleep), is suspended there, and goes on
    when the reply arrives; other runs execute in between on the same
    objects.  A task is such a suspended run: the request it waits for and
    what it does, on the shared state as it then is, once the reply (read
    off an [Env]) is there. *)
Module Tasks.
Import Config Monitor.

Inductive Request :=
| PriceOf (mint : string)
| PricesOf (mints : list string)
| SellOrder (p : Ref) (percentToSell : Q) (reason : SellReason)
| RunnerData (p : Ref)
| Webhook (n : Notification)
| Sleep (ms : Z)
| BuyCallback (a : TokenAnalysis).

#[warnings="-register-all"] Inductive Task (St : Type) : Type :=
| Done
| Await (q : Request) (k : Env -> St -> St * Task St).

Arguments Done {St}.

(** The rest of a run: what it does from a point where it holds the
    thread, at the instant [now E]. *)
Definition Cont (St : Type) : Type := Env -> St -> St * Task St.



(** *** The scheduler *)

Record Sys (St : Type) := { shared : St; running : list (Task St) }.

Fixpoint replace (St : Type) (i : nat) (t : Task St) (l : list (Task St))
  : list (Task St) :=
  match l, i with
  | [], _ => []
  | _ :: rest, O => t :: rest
  | x :: rest, S j => x :: replace j t rest
  end.

(** A timer fires: a new run starts and executes up to its first
    [await]. *)
Definition spawn (St : Type) (start : Cont St) (E : Env) (s : Sys St)
  : Sys St :=
  let (st, t) := start E (shared s) in
  {| shared := st; running := running s ++ [t] |}.

(** The reply run [i] waits for arrives: the run goes on up to its next
    [await]. *)
Definition settle (St : Type) (i : nat) (E : Env) (s : Sys St) : Sys St :=
  match nth_error (running s) i with
  | Some (Await _ k) =>
    let (st, t) := k E (shared s) in
    {| shared := st; running := replace i t (running s) |}
  | _ => s
  end.

(** *** src/monitor/positions.ts, with its [await]s *)

(** [await notify...(...)]: the post is sent, the run waits for the
    webhook. *)
Definition notify (n : Notification) (k : Cont World) (w : World)
  : World * Task World :=
  (emit (Notify n) w, Await (Webhook n) k).

Definition partialSell (r : Ref) (pct : Q) (reason : SellReason)
  (k : Cont World) (w : World) : World * Task World :=
  let p := heap w r in
  let eff :=
    if Qeq_bool (remainingPercent p) 0 then 100
    else Qmin 100 ((pct / remainingPercent p) * 100) in
  (w,
   Await (SellOrder r eff reason)
     (fun E w =>
        let result := executeSell E p eff reason in
        let w := emit (ExecuteSell r p eff reason result) w in
        if success result then
          let p := heap w r in
          let remaining := remainingPercent p - pct in
          let w :=
            update r
              (set_exit remaining
                 (if Qle_bool remaining 0 then st_closed else st_partial)
                 (closeReason p)) w in
          let pnl := received result - entryAmountSol p * (pct / 100) in
          let w := with_state (add_dailyPnl pnl) w in
          let w := with_state (add_available (received result)) w in
          if Qltb 0 pnl then notify (SellProfit r (pnlPercent p) pnl) k w
          else k E w
        else k E w)).

Definition closePosition (r : Ref) (reason : CloseReason) (k : Cont World)
  (w : World) : World * Task World :=
  let p := heap w r in
  (w,
   Await (SellOrder r (remainingPercent p) (Closing reason))
     (fun E w =>
        let result := executeSell E p (remainingPercent p) (Closing reason) in
        let w :=
          emit (ExecuteSell r p (remainingPercent p) (Closing reason)
                  result) w in
        let w := update r (set_exit 0 st_closed (Some reason)) w in
        let w := with_timers (Timers.delete r) w in
        let p := heap w r in
        let invested := entryAmountSol p in
        let returned := received result in
        let pnlSol := returned - invested in
        let pnlPct :=
          if Qltb 0 invested then ((returned - invested) / invested) * 100
          else 0 in
        let w := emit (SaveTrade r invested returned pnlSol pnlPct reason) w in
        let w := with_state (add_dailyPnl pnlSol) w in
        let w := with_state (count_trade (Qltb 0 pnlSol)) w in
        let w := with_state (add_available returned) w in
        let w :=
          with_state
            (fun s =>
               set_open
                 (filter (fun x => negb (Nat.eqb x r)) (openPositions s)) s)
            w in
        if Qle_bool 0 pnlSol then notify (SellProfit r pnlPct pnlSol) k w
        else notify (SellLoss r pnlPct pnlSol) k w)).

(** The iterations [i, i+1, ...] of the take-profit loop: [i] is the
    loop's own variable, [p.takeProfitStage] is written once the awaited
    [partialSell] has returned. *)
Fixpoint ladderFrom (label : Q -> SellReason) (rungs : list Rung) (i : nat)
  (r : Ref) (k : Cont World) (E : Env) (w : World) : World * Task World :=
  match rungs with
  | [] => k E w
  | sp :: rest =>
    if Qle_bool (triggerPercent sp * 100) (pnlPercent (heap w r)) then
      partialSell r (sellPercent sp * 100) (label (triggerPercent sp * 100))
        (fun E w =>
           ladderFrom label rest (S i) r k E (update r (set_stage (S i)) w))
        w
    else ladderFrom label rest (S i) r k E w
  end.

Definition takeProfitLoop (label : Q -> SellReason) (table : list Rung)
  (r : Ref) (k : Cont World) (E : Env) (w : World) : World * Task World :=
  let start := takeProfitStage (heap w r) in
  ladderFrom label (skipn start table) start r k E w.

Definition handleScalp (r : Ref) (highestPnl : Q) (k : Cont World)
  (E : Env) (w : World) : World * Task World :=
  let p := heap w r in
  if Qle_bool 12 highestPnl && Qle_bool (pnlPercent p) 1 then
    closePosition r trailing_stop k w
  else if Qltb 8 highestPnl
          && Qle_bool (currentPriceSol p)
               (highestPriceSol p * (1 - getScalpTrail highestPnl)) then
    if Qltb 0 (pnlPercent p) then
      notify (TrailingStopHit r (pnlPercent p) (pnlSol p) highestPnl)
        (fun _ w => closePosition r trailing_stop k w) w
    else closePosition r trailing_stop k w
  else
    takeProfitLoop ScalpTP monitor.secureProfits r
      (fun E w =>
         let p := heap w r in
         if (monitor.maxPositionAge <? now E - entryTime p)%Z
            && Qle_bool (pnlPercent p) 3 then
           closePosition r timeout k w
         else k E w)
      E w.

Definition handleRunner (r : Ref) (highestPnl : Q) (k : Cont World)
  (E : Env) (w : World) : World * Task World :=
  let p := heap w r in
  if Qltb 10 highestPnl
     && Qle_bool (currentPriceSol p)
          (highestPriceSol p * (1 - getRunnerTrail highestPnl)) then
    if Qltb 0 (pnlPercent p) then
      notify (TrailingStopHit r (pnlPercent p) (pnlSol p) highestPnl)
        (fun _ w => closePosition r trailing_stop k w) w
    else closePosition r trailing_stop k w
  else
    takeProfitLoop RunnerTP runner.secureProfits r
      (fun E w =>
         let p := heap w r in
         if (runner.maxDuration <? now E - entryTime p)%Z
            && Qle_bool (pnlPercent p) 5 then
           closePosition r timeout k w
         else k E w)
      E w.

Definition checkPosition (r : Ref) (k : Cont World) (w : World)
  : World * Task World :=
  let mint := mintAddress (heap w r) in
  (w,
   Await (PriceOf mint)
     (fun E w =>
        let p := heap w r in
        let fetched := fetchCurrentPrice E mint in
        if negb (truthy fetched) then k E w
        else
          let price := orZero fetched in
          let w := update r (set_price price (pnlOf p price)) w in
          let w :=
            update r
              (set_pnlSol ((price - entryPriceSol p) * tokenAmount p
                           * (remainingPercent p / 100))) w in
          let w :=
            if Qltb (highestPriceSol p) price then
              update r (set_highest price) w
            else w in
          let highestPnl := pnlOf p (highestPriceSol (heap w r)) in
          let handle : Cont World :=
            fun E w =>
              if isRunner (heap w r) then handleRunner r highestPnl k E w
              else handleScalp r highestPnl k E w in
          if negb (isRunner p) && Qle_bool 15 (pnlPercent (heap w r)) then
            let asked := heap w r in
            (w,
             Await (RunnerData r)
               (fun E w =>
                  if checkIfRunner E asked then
                    handle E (update r (set_runner (now E)) w)
                  else handle E w))
          else handle E w)).

(** [for (const p of ...filter(...)) { await checkPosition(p, state) }]:
    the array is filtered once, when the run starts. *)
Fixpoint checkEach (l : list Ref) (E : Env) (w : World)
  : World * Task World :=
  match l with
  | [] => (w, Done)
  | r :: rest => checkPosition r (checkEach rest) w
  end.

Definition checkAllPositions (E : Env) (w : World) : World * Task World :=
  checkEach (snapshot w) E w.

(** The fast loop: [now] is read once, when the run starts. *)
Definition deadVolume (t : Z) (r : Ref) (k : Cont World) (E : Env)
  (w : World) : World * Task World :=
  let p := heap w r in
  let w :=
    if negb (Timers.has r (deadVolumeTimers w)) then
      with_timers (Timers.set r t) w
    else w in
  let deadSince :=
    match Timers.get r (deadVolumeTimers w) with
    | Some t' => t'
    | None => t
    end in
  let deadDuration := (t - deadSince)%Z in
  let close w :=
    closePosition r dead_volume k (with_timers (Timers.delete r) w) in
  if Qltb 0 (pnlPercent p) && (15000 <? deadDuration)%Z then close w
  else if Qle_bool (pnlPercent p) monitor.deadVolumeStopLoss
          && (monitor.deadVolumeTimeout <? deadDuration)%Z then close w
  else if Qltb (pnlPercent p) 0
          && Qltb monitor.deadVolumeStopLoss (pnlPercent p)
          && (monitor.deadVolumeTimeout + monitor.deadVolumeExtension
              <? deadDuration)%Z then close w
  else if (7 * 60 * 1000 <? deadDuration)%Z then close w
  else k E w.

Definition safetyStops (t : Z) (r : Ref) (price : Q) (k : Cont World)
  (E : Env) (w : World) : World * Task World :=
  let w :=
    if Timers.has r (deadVolumeTimers w) then
      with_timers (Timers.delete r) w
    else w in
  let p := heap w r in
  let w := update r (set_price price (pnlOf p price)) w in
  let w :=
    if Qltb (highestPriceSol p) price then update r (set_highest price) w
    else w in
  let p := heap w r in
  let age := (t - entryTime p)%Z in
  if (age <? 30000)%Z && Qle_bool (pnlPercent p) (-4) && negb (isRunner p)
  then closePosition r stop_loss k w
  else if (age <? 60000)%Z && Qle_bool (pnlPercent p) (-7)
          && negb (isRunner p)
  then closePosition r stop_loss k w
  else if Qle_bool (pnlPercent p) (-12) && negb (isRunner p)
  then closePosition r stop_loss k w
  else if Qle_bool (pnlPercent p) monitor.maxTrailingLoss
          && negb (isRunner p)
  then closePosition r trailing_stop k w
  else if isRunner p && Qle_bool (pnlPercent p) 2 then
    let highestPnl := pnlOf p (highestPriceSol p) in
    if Qle_bool 15 highestPnl then closePosition r trailing_stop k w
    else k E w
  else k E w.

(** [for (const result of results)]: the status is read again at each
    iteration. *)
Fixpoint fastEach (t : Z) (results : list (Ref * option Q)) (E : Env)
  (w : World) : World * Task World :=
  match results with
  | [] => (w, Done)
  | (r, fetched) :: rest =>
    if is_closed (heap w r) then fastEach t rest E w
    else if negb (truthy fetched) then deadVolume t r (fastEach t rest) E w
    else safetyStops t r (orZero fetched) (fastEach t rest) E w
  end.

Definition fastCheckParallel (E : Env) (w : World) : World * Task World :=
  let open := snapshot w in
  match open with
  | [] => (w, Done)
  | _ =>
    let t := now E in
    let mints := map (fun r => (r, mintAddress (heap w r))) open in
    (w,
     Await (PricesOf (map snd mints))
       (fun E w =>
          fastEach t
            (map (fun rm => (fst rm, fetchCurrentPrice E (snd rm))) mints)
            E w))
  end.

(** The two monitor timers and the replies, in the order they happen. *)
Inductive Input :=
| SlowTick (E : Env)
| FastTick (E : Env)
| Reply (i : nat) (E : Env).

Definition step (s : Sys World) (i : Input) : Sys World :=
  match i with
  | SlowTick E => spawn checkAllPositions E s
  | FastTick E => spawn fastCheckParallel E s
  | Reply n E => settle n E s
  end.

Definition run (inputs : list Input) (w : World) : Sys World :=
  fold_left step inputs {| shared := w; running := [] |}.

(** *** src/analyzer/dipBuyer.ts, with its [await]s *)

(** The [Map] of watched tokens: its entries in insertion order, an entry
    that was deleted leaving a hole that iteration skips, and the
    [WatchedToken] object of each entry, which a run that holds it can
    still read and write after the entry is gone.  [signals] logs the
    calls of [onBuySignal].  Entries are added by [addToWatchlist] only,
    which is not part of a run of the check. *)
Record Pool := {
  slots : list (option string);
  objects : nat -> DipBuyer.WatchedToken;
  signals : list TokenAnalysis }.

(** [watched.field = v] on the object of slot [i]. *)
Definition write (i : nat)
  (f : DipBuyer.WatchedToken -> DipBuyer.WatchedToken) (p : Pool) : Pool :=
  {| slots := slots p;
     objects := fun x => if Nat.eqb x i then f (objects p i) else objects p x;
     signals := signals p |}.

(** [watchlist.delete(mint)] *)
Definition delete (mint : string) (p : Pool) : Pool :=
  {| slots :=
       map (fun s =>
              match s with
              | Some m => if String.eqb m mint then None else Some m
              | None => None
              end) (slots p);
     objects := objects p;
     signals := signals p |}.

Definition signal (a : TokenAnalysis) (p : Pool) : Pool :=
  {| slots := slots p; objects := objects p; signals := signals p ++ [a] |}.

(** The body of the loop for the entry [mint] in slot [i]; [k] is the
    rest of the loop.  [watched] is the object of the slot: it is read
    again after every [await], and what a stretch of code between two
    [await]s assigns to its fields is stored at once. *)
Definition visit (mint : string) (i : nat) (k : Cont Pool) (E : Env)
  (p : Pool) : Pool * Task Pool :=
  if (dipBuyer.maxWatchDuration <? now E - DipBuyer.addedAt (objects p i))%Z
  then k E (delete mint (write i (DipBuyer.set_wstate DipBuyer.expired) p))
  else
    (p,
     Await (PriceOf mint)
       (fun E p =>
          let fetched := fetchCurrentPrice E mint in
          if negb (truthy fetched) then k E p
          else
            let price := orZero fetched in
            let watched :=
              DipBuyer.set_reading price (now E) (objects p i) in
            let watched :=
              if Qltb (DipBuyer.highestPrice watched) price then
                DipBuyer.set_high_low price price watched
              else watched in
            let watched :=
              if Qltb price (DipBuyer.lowestSinceHigh watched) then
                DipBuyer.set_high_low (DipBuyer.highestPrice watched) price
                  watched
              else watched in
            let dip := DipBuyer.dipFromHigh watched in
            let watched :=
              DipBuyer.set_dip (DipBuyer.dipDetected watched) dip watched in
            let p := write i (fun _ => watched) p in
            match DipBuyer.wstate watched with
            | DipBuyer.watching =>
              if Qle_bool dipBuyer.maxDipPercent dip then
                k E (delete mint
                       (write i (DipBuyer.set_wstate DipBuyer.abandoned) p))
              else if Qle_bool dipBuyer.minDipPercent dip then
                k E (write i
                       (fun x =>
                          DipBuyer.set_wstate DipBuyer.waiting_rebound
                            (DipBuyer.set_dip true dip x)) p)
              else k E p
            | DipBuyer.waiting_rebound =>
              if Qle_bool dipBuyer.maxDipPercent dip then
                k E (delete mint
                       (write i (DipBuyer.set_wstate DipBuyer.abandoned) p))
              else
                let rebound := DipBuyer.reboundFromLow watched price in
                if Qle_bool dipBuyer.reboundConfirmPercent rebound then
                  (p,
                   Await (Sleep 2000)
                     (fun _ p =>
                        (p,
                         Await (PriceOf mint)
                           (fun E p =>
                              let confirmPrice := fetchCurrentPrice E mint in
                              let watched := objects p i in
                              if negb (truthy confirmPrice)
                                 || Qle_bool (orZero confirmPrice)
                                      (DipBuyer.lowestSinceHigh watched)
                              then k E p
                              else
                                let confirmedRebound :=
                                  DipBuyer.reboundFromLow watched
                                    (orZero confirmPrice) in
                                if Qltb confirmedRebound
                                     dipBuyer.reboundConfirmPercent
                                then k E p
                                else
                                  let p :=
                                    write i
                                      (DipBuyer.set_wstate
                                         DipBuyer.buy_signal) p in
                                  let a := DipBuyer.analysis (objects p i) in
                                  (signal a p,
                                   Await (BuyCallback a)
                                     (fun E p => k E (delete mint p)))))))
                else k E p
            | _ => k E p
            end)).

(** [for (const [mint, watched] of watchlist)]: the iterator walks the
    slots as they are when it reaches them; [n] bounds the slots
    left. *)
Fixpoint visitFrom (n i : nat) (E : Env) (p : Pool) : Pool * Task Pool :=
  match n with
  | O => (p, Done)
  | S n' =>
    match nth_error (slots p) i with
    | None => (p, Done)
    | Some None => visitFrom n' (S i) E p
    | Some (Some mint) => visit mint i (visitFrom n' (S i)) E p
    end
  end.

Definition checkWatchlist (E : Env) (p : Pool) : Pool * Task Pool :=
  visitFrom (List.length (slots p)) 0 E p.

(** The dip-buyer timer and the replies, in the order they happen. *)
Inductive DipInput :=
| DipTick (E : Env)
| DipReply (i : nat) (E : Env).

Definition dipStep (s : Sys Pool) (i : DipInput) : Sys Pool :=
  match i with
  | DipTick E => spawn checkWatchlist E s
  | DipReply n E => settle n E s
  end.

Definition dipRun (inputs : list DipInput) (p : Pool) : Sys Pool :=
  fold_left dipStep inputs {| shared := p; running := [] |}.

End Tasks.

(** * Vocabulary of the properties *)

(** ** Reading the result of the gate *)

Definition alerts (evs : list Event) : nat :=
  List.length
    (filter (fun e => match e with Notify (RiskAlert _) => true
                              | _ => false end) evs).

Definition gate (x : Risk.Gate * BotState * list Event) : Risk.Gate :=
  fst (fst x).
Definition after (x : Risk.Gate * BotState * list Event) : BotState :=
  snd (fst x).
Definition emitted (x : Risk.Gate * BotState * list Event) : list Event :=
  snd x.

(** The daily-loss breaker condition: a negative daily P&L whose ratio to
    the initial capital meets the ceiling. *)
Definition daily_loss_breached (s : BotState) : Prop :=
  dailyPnlSol s < 0
  /\ Config.risk.maxDailyLoss
     <= Qabs (dailyPnlSol s) / Config.risk.initialCapital.

(** The breaker's reaction: deny, pause until a later instant, one risk
    alert. *)
Definition breaker_fired (now : Z) (s : BotState) : Prop :=
  let x := Risk.canOpenPosition now s in
  (exists r, gate x = Risk.Denied r)
  /\ isPaused (after x) = true
  /\ (exists u, pauseUntil (after x) = Some u /\ (now < u)%Z)
  /\ alerts (emitted x) = 1%nat.

(** The band [[0.003, 0.15 * deployable]] for a computed size. *)
Definition size_in_band (a : TokenAnalysis) (s : BotState) : Prop :=
  0.003 <= Risk.calculatePositionSize a s
  /\ Risk.calculatePositionSize a s <= 0.15 * Risk.getDeployableCapital s.

(** ** Sample data *)

Module Sample.

Definition tok : DetectedToken :=
  {| t_mintAddress := "MINT"; priceSol := 1; marketCap := 100000;
     volume5m := 10; buyCount5m := 10; sellCount5m := 10 |}.

Definition high : TokenAnalysis :=
  {| token := tok; score := 65; confidence := c_high |}.

(** A token that [executeDirectBuy] classifies as a runner at entry:
    market cap under 50k, 80% buys. *)
Definition hot : TokenAnalysis :=
  {| token :=
       {| t_mintAddress := "HOT"; priceSol := 1; marketCap := 40000;
          volume5m := 10; buyCount5m := 8; sellCount5m := 2 |};
     score := 65; confidence := c_high |}.

(** A ledger with [n] open positions. *)
Definition ledger (avail pnl : Q) (n : nat) (paused : bool)
  (until : option Z) : BotState :=
  {| totalCapitalSol := 0.6; availableCapitalSol := avail;
     reserveSol := 0.06; openPositions := seq 0 n;
     dailyPnlSol := pnl;
     dailyPnlPercent := (pnl / Config.risk.initialCapital) * 100;
     dailyTradeCount := 0; dailyWinCount := 0; dailyLossCount := 0;
     isPaused := paused; pauseUntil := until |}.

Definition position (runner : bool) : Position :=
  {| mintAddress := "MINT"; entryPriceSol := 1; entryAmountSol := 0.03;
     tokenAmount := 0.03; entryTime := 0; p_score := 65;
     currentPriceSol := 1; highestPriceSol := 1; pnlPercent := 0;
     pnlSol := 0; remainingPercent := 100; takeProfitStage := 0;
     isRunner := runner; runnerPromotedAt := None; status := st_open;
     closeReason := None |}.

(** A ledger of 0.6 SOL holding one position bought for 0.03 SOL. *)
Definition holding (runner : bool) : World :=
  with_state (add_available (- 0.03))
    (Bot.pushPosition (position runner) (Bot.initialWorld 0.6)).

Definition refused : SellResult :=
  {| success := false; solReceived := None |}.

Definition filled (sol : Q) : SellResult :=
  {| success := true; solReceived := Some sol |}.

(** The world at instant [t]: every price fetch answers [price], every
    sell answers [res], every buy fills at price 1, no promotion. *)
Definition env (t : Z) (price : option Q) (res : SellResult) : Env :=
  {| now := t;
     fetchCurrentPrice := fun _ => price;
     executeSell := fun _ _ _ => res;
     executeBuy := fun o =>
       {| b_success := true; b_signature := true;
          b_tokenAmount := Some (amountSol o); b_priceSol := Some 1 |};
     checkIfRunner := fun _ => false |}.

Definition watched : DipBuyer.WatchedToken :=
  {| DipBuyer.analysis := high; DipBuyer.addedAt := 0;
     DipBuyer.highestPrice := 100; DipBuyer.lowestSinceHigh := 97;
     DipBuyer.currentPrice := 97; DipBuyer.lastCheck := 0;
     DipBuyer.dipDetected := false; DipBuyer.dipPercent := 3;
     DipBuyer.wstate := DipBuyer.watching |}.

Definition dipEnv (t : Z) (price confirm : option Q) : DipBuyer.DipEnv :=
  {| DipBuyer.d_now := t;
     DipBuyer.d_fetch := fun _ => price;
     DipBuyer.d_confirm := fun _ => confirm |}.

(** A token scored 35 and rated [watch]: [processToken] hands it to the
    dip buyer. *)
Definition candidate : TokenAnalysis :=
  {| token := tok; score := 35; confidence := c_watch |}.

(** The entry [addToWatchlist] creates for it at instant 0 and price
    100. *)
Definition entry : DipBuyer.WatchedToken :=
  {| DipBuyer.analysis := candidate; DipBuyer.addedAt := 0;
     DipBuyer.highestPrice := 100; DipBuyer.lowestSinceHigh := 100;
     DipBuyer.currentPrice := 100; DipBuyer.lastCheck := 0;
     DipBuyer.dipDetected := false; DipBuyer.dipPercent := 0;
     DipBuyer.wstate := DipBuyer.watching |}.

(** The watchlist holding that one entry. *)
Definition pool : Tasks.Pool :=
  {| Tasks.slots := [Some "MINT"%string];
     Tasks.objects := fun _ => entry;
     Tasks.signals := [] |}.

(** The world as [env], but the runner data now promote the position. *)
Definition promoting (t : Z) (price : option Q) (res : SellResult) : Env :=
  {| now := t;
     fetchCurrentPrice := fun _ => price;
     executeSell := fun _ _ _ => res;
     executeBuy := executeBuy (env t price res);
     checkIfRunner := fun _ => true |}.

End Sample.

(** ** The profit ladder *)

(** The rung [sp] does not fire at the P&L [pnl]. *)
Definition quiet (pnl : Q) (sp : Config.Rung) : Prop :=
  Qle_bool (Config.triggerPercent sp * 100) pnl = false.

(** How many sell orders for position [r] the executor has received. *)
Definition sellCalls (r : Ref) (evs : list Event) : nat :=
  List.length
    (filter (fun e => match e with
                      | ExecuteSell r' _ _ _ _ => Nat.eqb r' r
                      | _ => false
                      end) evs).

(** ** Reading the ledger against the executor log *)

(** The cost basis a position still ties up. *)
Definition stake (p : Position) : Q :=
  entryAmountSol p * (remainingPercent p / 100).

Definition stakes (h : Ref -> Position) (l : list Ref) : Q :=
  fold_right (fun r acc => stake (h r) + acc) 0 l.

(** The share of the original position, in percent, that one sell order
    takes off the books: a close books everything that remained, whatever
    the executor answers; a ladder order books the requested share of what
    remained, and only when the executor succeeds. *)
Definition bookedShare (snap : Position) (pct : Q) (reason : SellReason)
  (res : SellResult) : Q :=
  match reason with
  | Closing _ => remainingPercent snap
  | _ => if success res then remainingPercent snap * (pct / 100) else 0
  end.

(** What the ledger credits for the order. *)
Definition proceeds (reason : SellReason) (res : SellResult) : Q :=
  match reason with
  | Closing _ => orZero (solReceived res)
  | _ => if success res then orZero (solReceived res) else 0
  end.

Definition soldBy (r : Ref) (e : Event) : Q :=
  match e with
  | ExecuteSell r' snap pct reason res =>
    if Nat.eqb r' r then bookedShare snap pct reason res else 0
  | _ => 0
  end.

(** The percentage of position [r] sold so far, by the log. *)
Definition sold (r : Ref) (evs : list Event) : Q :=
  fold_right (fun e acc => soldBy r e + acc) 0 evs.

(** Proceeds minus the cost basis of the slice sold. *)
Definition realizedBy (e : Event) : Q :=
  match e with
  | ExecuteSell _ snap pct reason res =>
    proceeds reason res
    - entryAmountSol snap * (bookedShare snap pct reason res / 100)
  | _ => 0
  end.

Definition realized (evs : list Event) : Q :=
  fold_right (fun e acc => realizedBy e + acc) 0 evs.

Definition silent (e : Event) : Prop :=
  match e with ExecuteSell _ _ _ _ _ => False | _ => True end.

Definition logged (bound : Ref) (e : Event) : Prop :=
  match e with
  | ExecuteSell r snap pct reason res =>
    (r < bound)%nat /\ 0 <= bookedShare snap pct reason res
  | _ => True
  end.

Definition isLadder (reason : SellReason) : Prop :=
  match reason with Closing _ => False | _ => True end.

(** The least fraction that can remain once the ladder index has reached
    [stage], over both ladders. *)
Definition floorRem (stage : nat) : Q :=
  match stage with
  | O => 100
  | S O => 70
  | S (S O) => 40
  | _ => 30
  end.

Arguments floorRem : simpl never.

(** The rungs from index [i] on never sell more than the floor allows. *)
Fixpoint rungsFit (i : nat) (rungs : list Config.Rung) : Prop :=
  match rungs with
  | [] => True
  | sp :: rest =>
    0 < Config.sellPercent sp * 100
    /\ Config.sellPercent sp * 100 <= floorRem i - floorRem (S i)
    /\ rungsFit (S i) rest
  end.

(** The fields of a position the books depend on. *)
Definition sameKey (p q : Position) : Prop :=
  entryAmountSol p = entryAmountSol q
  /\ remainingPercent p = remainingPercent q
  /\ takeProfitStage p = takeProfitStage q
  /\ status p = status q.

(** The invariant of the running engine. *)
Record Inv (w : World) : Prop := {
  inv_nodup : NoDup (openPositions (state w));
  inv_open : forall r, In r (openPositions (state w)) ->
    (r < nextRef w)%nat
    /\ status (heap w r) <> st_closed
    /\ floorRem (takeProfitStage (heap w r)) <= remainingPercent (heap w r);
  inv_range : forall r, (r < nextRef w)%nat ->
    0 <= remainingPercent (heap w r) <= 100
    /\ remainingPercent (heap w r) == 100 - sold r (events w);
  inv_log : Forall (logged (nextRef w)) (events w);
  inv_gap :
    availableCapitalSol (state w)
    == totalCapitalSol (state w) - Risk.committed w + realized (events w) }.

Definition Live (r : Ref) (w : World) : Prop :=
  Inv w /\ In r (openPositions (state w)).

(** A step that leaves the books as they are. *)
Definition Frame (w w' : World) : Prop :=
  openPositions (state w') = openPositions (state w)
  /\ nextRef w' = nextRef w
  /\ availableCapitalSol (state w') = availableCapitalSol (state w)
  /\ totalCapitalSol (state w') = totalCapitalSol (state w)
  /\ (forall x, sameKey (heap w' x) (heap w x))
  /\ exists evs, events w' = events w ++ evs /\ Forall silent evs.

(** The outcome of handling position [r]: the invariant holds and no
    other position left the open set. *)
Definition Stepped (r : Ref) (w w' : World) : Prop :=
  Inv w'
  /\ forall x, x <> r -> In x (openPositions (state w)) ->
       In x (openPositions (state w')).

(** The ledger identity as the specification words it. *)
Definition books_balance (w : World) : Prop :=
  availableCapitalSol (state w)
  == totalCapitalSol (state w) - Risk.committed w.

(** ** Vocabulary of the further properties *)

(** The share of deployable capital selected by the score. *)
Definition tierPercent (score : Z) : Q :=
  if (60 <=? score)%Z then Config.risk.positionSizes_high
  else if (50 <=? score)%Z then Config.risk.positionSizes_medium
  else Config.risk.positionSizes_low.

(** The daily-loss breaker condition as a boolean. *)
Definition breached (s : BotState) : bool :=
  Qltb (dailyPnlSol s) 0
  && Qle_bool Config.risk.maxDailyLoss
       (Qabs (dailyPnlSol s) / Config.risk.initialCapital).

(** Every watched analysis carries the verdict [watch]. *)
Definition allWatch (wl : DipBuyer.Watchlist) : Prop :=
  Forall (fun kv => confidence (DipBuyer.analysis (snd kv)) = c_watch) wl.

(** ** Reading a schedule *)

(** What a run is waiting for. *)
Definition pending (St : Type) (t : Tasks.Task St) : option Tasks.Request :=
  match t with
  | Tasks.Done => None
  | Tasks.Await q _ => Some q
  end.

(** A run that has sent the executor a ladder order for position [r] at
    the rung triggered at [trigger] percent, and waits for the answer. *)
Definition sellingRung (r : Ref) (trigger : Q) (q : option Tasks.Request)
  : Prop :=
  match q with
  | Some (Tasks.SellOrder r' _ (ScalpTP x)) => r' = r /\ x == trigger
  | _ => False
  end.

(** How many orders the executor has answered for that rung of [r]. *)
Definition firings (r : Ref) (trigger : Q) (evs : list Event) : nat :=
  List.length
    (filter (fun e => match e with
                      | ExecuteSell r' _ _ (ScalpTP x) _ =>
                        Nat.eqb r' r && Qeq_bool x trigger
                      | _ => false
                      end) evs).






(** ** What holds under every schedule *)

(** How a position object may differ between two instants, whatever
    runs of the monitor happened in between: its entry data are the
    same, the high-water mark has not gone down, runner mode has not
    been left, the fraction has not risen above 100, and a closed
    position with nothing left has stayed so. *)
Definition Ages (p p' : Position) : Prop :=
  mintAddress p' = mintAddress p
  /\ entryPriceSol p' = entryPriceSol p
  /\ entryAmountSol p' = entryAmountSol p
  /\ tokenAmount p' = tokenAmount p
  /\ entryTime p' = entryTime p
  /\ p_score p' = p_score p
  /\ highestPriceSol p <= highestPriceSol p'
  /\ (isRunner p = true -> isRunner p' = true)
  /\ (remainingPercent p <= 100 -> remainingPercent p' <= 100)
  /\ (status p = st_closed /\ remainingPercent p <= 0 ->
      status p' = st_closed /\ remainingPercent p' <= 0).

(** The same for the world: the monitor allocates no position, lists
    none that was not listed, only appends to the log and leaves
    [totalCapitalSol] alone. *)
Definition Onward (w w' : World) : Prop :=
  nextRef w' = nextRef w
  /\ incl (openPositions (state w')) (openPositions (state w))
  /\ (exists evs, events w' = events w ++ evs)
  /\ totalCapitalSol (state w') = totalCapitalSol (state w)
  /\ forall x, Ages (heap w x) (heap w' x).

(** Whatever the replies and whenever they come, every stretch of the
    run moves the world onward. *)
Fixpoint Always (t : Tasks.Task World) : Prop :=
  match t with
  | Tasks.Done => True
  | Tasks.Await _ k =>
    forall (E : Env) (w : World),
      let (w', t') := k E w in Onward w w' /\ Always t'
  end.

Definition Fine (w : World) (x : World * Tasks.Task World) : Prop :=
  Onward w (fst x) /\ Always (snd x).

Definition Sound (k : Tasks.Cont World) : Prop :=
  forall (E : Env) (w : World), Fine w (k E w).

(** ** Reading what a run decides *)

(** The loop has no further position. *)
Definition halt : Tasks.Cont World := fun _ w => (w, Tasks.Done).

(** The run has sent the executor the order to close position [r] for
    [reason], and waits for the answer. *)
Definition ordersClose (r : Ref) (reason : CloseReason)
  (x : World * Tasks.Task World) : Prop :=
  match pending (snd x) with
  | Some (Tasks.SellOrder r' _ (Closing c)) => r' = r /\ c = reason
  | _ => False
  end.

(** The run sends nothing and is over. *)
Definition idle (x : World * Tasks.Task World) : Prop :=
  pending (snd x) = None.

(** When the fast loop cuts a position outside runner mode. *)
Definition scalpStop (age : Z) (pnl : Q) : Prop :=
  ((age < 30000)%Z /\ pnl <= -4)
  \/ ((age < 60000)%Z /\ pnl <= -7)
  \/ pnl <= -12.

(** When the fast loop gives up on a position without price, [dead]
    milliseconds after the price was lost. *)
Definition deadExit (pnl : Q) (dead : Z) : Prop :=
  (0 < pnl /\ (15000 < dead)%Z)
  \/ (pnl <= -10 /\ (180000 < dead)%Z)
  \/ (pnl < 0 /\ -10 < pnl /\ (300000 < dead)%Z)
  \/ (420000 < dead)%Z.

(** * Properties *)

(** ** Comparisons *)

Lemma Qltb_true (x y : Q) : Qltb x y = true <-> x < y.
Proof.
  unfold Qltb. rewrite negb_true_iff. split; intro H.
  - apply Qnot_le_lt. intro L. apply Qle_bool_iff in L. congruence.
  - destruct (Qle_bool y x) eqn:L; trivial.
    apply Qle_bool_iff in L. exfalso. apply (Qlt_not_le _ _ H L).
Qed.

Lemma Qltb_false (x y : Q) : Qltb x y = false <-> y <= x.
Proof.
  unfold Qltb. rewrite negb_false_iff. apply Qle_bool_iff.
Qed.

Lemma Qle_bool_false (x y : Q) : Qle_bool x y = false <-> y < x.
Proof.
  rewrite <- Qltb_true. unfold Qltb.
  destruct (Qle_bool x y); simpl; intuition congruence.
Qed.

Lemma div_100 (x : Q) : x / 100 == x * (1 # 100).
Proof. field. Qed.

(** ** The risk gate *)

Section RiskGate.
Import Config Risk.

Lemma pauseRunning_future (now u : Z) (s : BotState) :
  (0 <= now)%Z -> pauseUntil s = Some u -> (now < u)%Z ->
  pauseRunning now s = true.
Proof.
  intros Hnow Hu Hlt. unfold pauseRunning, truthyZ. rewrite Hu.
  apply andb_true_iff. split.
  - apply negb_true_iff, Z.eqb_neq. lia.
  - apply Z.ltb_lt. exact Hlt.
Qed.

Lemma pauseRunning_expired (now : Z) (s : BotState) :
  (forall u, pauseUntil s = Some u -> (u <= now)%Z) ->
  pauseRunning now s = false.
Proof.
  intros H. unfold pauseRunning. destruct (pauseUntil s) as [u|].
  - specialize (H u eq_refl). apply andb_false_iff. right.
    apply Z.ltb_ge. exact H.
  - reflexivity.
Qed.

(** What [openChecks] leaves behind: it never keeps an old pause, and
    pauses only on the daily-loss breach. *)
Lemma openChecks_pause (now : Z) (s : BotState) :
  isPaused s = false -> pauseUntil s = None ->
  let x := openChecks now s in
  (gate x = Denied DailyLossReached
   /\ isPaused (after x) = true
   /\ pauseUntil (after x) = Some (now + risk.pauseDuration)%Z)
  \/ (gate x <> Denied DailyLossReached
      /\ isPaused (after x) = false /\ pauseUntil (after x) = None).
Proof.
  intros Hp Hu. unfold openChecks.
  destruct (_ <=? _)%nat; [right; repeat split; auto; discriminate|].
  destruct (_ && _).
  - left. repeat split.
  - destruct (Qltb _ _); right; repeat split; auto; discriminate.
Qed.

End RiskGate.

Section RiskClaims.
Import Config Risk.

(** C4.  While the pause flag is set and [pauseUntil] lies in the
    future, [canOpenPosition] denies (and touches nothing); once the
    pause has run out ([now >= pauseUntil], or no expiry recorded) it
    first clears [isPaused] and [pauseUntil] and then runs the remaining
    checks on the cleared ledger, so the old pause never survives the
    call. *)
Theorem canOpenPosition_pause (now : Z) (s : BotState) :
  (0 <= now)%Z ->
  isPaused s = true ->
  (forall u, pauseUntil s = Some u -> (now < u)%Z ->
     gate (canOpenPosition now s) <> Allowed
     /\ exists m, canOpenPosition now s = (Denied (Paused m), s, []))
  /\ ((forall u, pauseUntil s = Some u -> (u <= now)%Z) ->
      let cleared := set_pause false None s in
      isPaused cleared = false /\ pauseUntil cleared = None
      /\ canOpenPosition now s = openChecks now cleared
      /\ forall u, pauseUntil s = Some u ->
           pauseUntil (after (canOpenPosition now s)) <> Some u
           \/ (u = now + risk.pauseDuration)%Z).
Proof.
  intros Hnow Hp. split.
  - intros u Hu Hlt. unfold canOpenPosition. rewrite Hp.
    rewrite (pauseRunning_future s Hnow Hu Hlt). split.
    + discriminate.
    + eexists. reflexivity.
  - intros Hexp. unfold canOpenPosition. rewrite Hp.
    rewrite (pauseRunning_expired s Hexp). simpl.
    repeat split.
    intros u Hu.
    destruct (@openChecks_pause now (set_pause false None s)
                eq_refl eq_refl) as [(_ & _ & E) | (_ & _ & E)];
      unfold after in *; rewrite E.
    + destruct (Z.eq_dec u (now + risk.pauseDuration)) as [->|N].
      * right. reflexivity.
      * left. congruence.
    + left. discriminate.
Qed.

Lemma canOpenPosition_pause_witness :
  (gate (canOpenPosition 1000 (Sample.ledger 0.6 0 0 true (Some 2000%Z)))
   <> Allowed)
  /\ canOpenPosition 3000 (Sample.ledger 0.6 0 0 true (Some 2000%Z))
     = openChecks 3000
         (set_pause false None (Sample.ledger 0.6 0 0 true (Some 2000%Z))).
Proof.
  split.
  - refine (proj1 (proj1 (@canOpenPosition_pause 1000
              (Sample.ledger 0.6 0 0 true (Some 2000%Z)) _ _)
              2000%Z _ _)); [lia | reflexivity | reflexivity | lia].
  - refine (proj1 (proj2 (proj2 (proj2 (@canOpenPosition_pause 3000
              (Sample.ledger 0.6 0 0 true (Some 2000%Z)) _ _) _)))).
    + lia.
    + reflexivity.
    + intros u Hu. injection Hu as <-. lia.
Defined.

(** C5, the wording of the specification refuted: with eighteen positions open the
    position cap answers first; the breaker condition holds, yet the
    ledger is not paused and no alert leaves. *)
Lemma breaker_masked_by_position_cap :
  daily_loss_breached (Sample.ledger 0.6 (-0.18) 18 false None)
  /\ ~ breaker_fired 1000 (Sample.ledger 0.6 (-0.18) 18 false None).
Proof.
  split.
  - split; apply Qle_bool_iff || apply Qltb_true; reflexivity.
  - intros (_ & P & _). vm_compute in P. discriminate.
Qed.

(** C5, amended.  When the call reaches the daily-loss check (no pause
    still running, fewer than [maxOpenPositions] positions open) and the
    breaker condition holds, equality included, the gate denies for
    that reason, sets [isPaused], sets [pauseUntil] to
    [now + pauseDuration] and emits exactly one risk alert. *)
Theorem daily_loss_breaker (now : Z) (s : BotState) :
  isPaused s && pauseRunning now s = false ->
  (List.length (openPositions s) < risk.maxOpenPositions)%nat ->
  daily_loss_breached s ->
  breaker_fired now s
  /\ gate (canOpenPosition now s) = Denied DailyLossReached
  /\ pauseUntil (after (canOpenPosition now s))
     = Some (now + risk.pauseDuration)%Z
  /\ emitted (canOpenPosition now s)
     = [Notify (RiskAlert (dailyPnlPercent s))].
Proof.
  intros Hrun Hlen (Hneg & Hratio).
  assert (R : forall s0, openPositions s0 = openPositions s ->
              dailyPnlSol s0 = dailyPnlSol s ->
              dailyPnlPercent s0 = dailyPnlPercent s ->
              openChecks now s0
              = (Denied DailyLossReached,
                 set_pause true (Some (now + risk.pauseDuration)%Z) s0,
                 [Notify (RiskAlert (dailyPnlPercent s))])).
  { intros s0 Ho Hd Hpc. unfold openChecks. rewrite Ho, Hd.
    replace (_ <=? _)%nat with false
      by (symmetry; apply Nat.leb_gt; exact Hlen).
    replace (Qltb (dailyPnlSol s) 0) with true
      by (symmetry; apply Qltb_true; exact Hneg).
    replace (Qle_bool _ _) with true
      by (symmetry; apply Qle_bool_iff; exact Hratio).
    simpl. rewrite Hpc. reflexivity. }
  assert (C : exists s0, canOpenPosition now s
              = (Denied DailyLossReached,
                 set_pause true (Some (now + risk.pauseDuration)%Z) s0,
                 [Notify (RiskAlert (dailyPnlPercent s))])).
  { unfold canOpenPosition. destruct (isPaused s); simpl in Hrun.
    - rewrite Hrun. eexists. apply R; reflexivity.
    - eexists. apply R; reflexivity. }
  destruct C as (s0 & C). unfold breaker_fired. rewrite C.
  unfold gate, after, emitted. simpl. repeat split.
  - eexists. reflexivity.
  - eexists. split; [reflexivity|]. unfold risk.pauseDuration. lia.
Qed.

Lemma daily_loss_breaker_witness :
  breaker_fired 1000 (Sample.ledger 0.6 (-0.18) 3 false None).
Proof.
  refine (proj1 (@daily_loss_breaker 1000
            (Sample.ledger 0.6 (-0.18) 3 false None) _ _ _)).
  - reflexivity.
  - simpl. unfold risk.maxOpenPositions. lia.
  - split; apply Qle_bool_iff || apply Qltb_true; reflexivity.
Defined.

(** C6, the wording of the specification refuted: with 0.01 SOL deployable the cap
    [0.15 * deployable] lies below the dust floor and wins. *)
Lemma size_below_dust_floor :
  Risk.calculatePositionSize Sample.high
    (Sample.ledger 0.07 0 0 false None) == 0.0015
  /\ ~ size_in_band Sample.high (Sample.ledger 0.07 0 0 false None).
Proof.
  split.
  - reflexivity.
  - intros (L & _). apply Qle_bool_iff in L. vm_compute in L.
    discriminate.
Qed.

(** C6, amended.  The size is the adjusted size floored at 0.003 and
    then capped at [0.15 * deployable], in that order: it never exceeds
    the cap; it lies in the band whenever the cap is at least the floor
    (deployable capital of 0.02 SOL or more); below that it is the cap
    itself. *)
Theorem calculatePositionSize_band (a : TokenAnalysis) (s : BotState) :
  let d := getDeployableCapital s in
  calculatePositionSize a s
  == Qmin (d * 0.15) (Qmax 0.003 (adjustedSize a s))
  /\ 0 <= calculatePositionSize a s <= 0.15 * d
  /\ (0.02 <= d -> size_in_band a s)
  /\ (d < 0.02 -> calculatePositionSize a s == 0.15 * d).
Proof.
  intro d. unfold size_in_band, calculatePositionSize. fold d.
  assert (D : 0 <= d) by apply Q.le_max_l.
  set (adj := adjustedSize a s).
  assert (F : 0.003 <= Qmax 0.003 adj) by apply Q.le_max_l.
  destruct (Q.min_spec (d * 0.15) (Qmax 0.003 adj))
    as [(N1 & N2) | (N1 & N2)]; rewrite N2.
  - split; [reflexivity|]. split; [lra|]. split.
    + intro H. lra.
    + intro H. lra.
  - split; [reflexivity|]. split; [lra|]. split.
    + intro H. lra.
    + intro H. lra.
Qed.

Lemma calculatePositionSize_band_witness :
  size_in_band Sample.high (Sample.ledger 0.56 0 0 false None).
Proof.
  refine (proj1 (proj2 (proj2 (@calculatePositionSize_band Sample.high
            (Sample.ledger 0.56 0 0 false None)))) _).
  apply Qle_bool_iff. reflexivity.
Defined.

End RiskClaims.

Section DailyReset.
Import Config Risk Bot.

(** C10.  [resetDailyCounters] clears [isPaused] and [pauseUntil]
    whatever they were, so a pause whose expiry still lies in the
    future does not survive the reset: the next call of the gate is not
    denied for a pause, does not trip the breaker (the daily P&L is
    zero again), and leaves the ledger unpaused. *)
Theorem resetDailyCounters_lifts_pause (s : BotState) (now : Z) :
  let s' := resetDailyCounters s in
  isPaused s' = false
  /\ pauseUntil s' = None
  /\ (forall m, gate (canOpenPosition now s') <> Denied (Paused m))
  /\ gate (canOpenPosition now s') <> Denied DailyLossReached
  /\ isPaused (after (canOpenPosition now s')) = false
  /\ pauseUntil (after (canOpenPosition now s')) = None.
Proof.
  intro s'. split; [reflexivity|]. split; [reflexivity|].
  change (canOpenPosition now s') with (openChecks now s').
  unfold openChecks.
  change (Qltb (dailyPnlSol s') 0) with false.
  cbv beta iota zeta. rewrite andb_false_l.
  destruct (Nat.leb _ _).
  - repeat split; intros; discriminate.
  - destruct (Qltb (getDeployableCapital s') _);
      repeat split; intros; discriminate.
Qed.

End DailyReset.

(** ** The exits of the monitor *)

Section Exits.
Import Config Monitor.

(** C2, on the code.  A position is bought for 0.0324 SOL.  The
    executor then refuses the sell ([success = false], nothing received)
    while the fast loop cuts the position at -15%: the position is closed
    all the same, leaves the open set, and the whole stake is booked as a
    loss.  On the ladder path (slow loop at +25%) a refused partial sell
    leaves the remaining fraction alone but still advances
    [takeProfitStage], so the rung is not tried again. *)
Lemma failed_sell_still_closes :
  let buy := Bot.Buy (Sample.env 1000 (Some 1) Sample.refused)
               Sample.high in
  let w := Bot.run [buy] (Bot.initialWorld 0.6) in
  let w1 := Bot.run [buy;
                     Bot.FastTick (Sample.env 100000 (Some 0.85)
                                     Sample.refused)]
              (Bot.initialWorld 0.6) in
  let w2 := Bot.run [buy;
                     Bot.SlowTick (Sample.env 100000 (Some 1.25)
                                     Sample.refused)]
              (Bot.initialWorld 0.6) in
  (openPositions (state w) = [0%nat]
   /\ status (heap w 0%nat) = st_open
   /\ remainingPercent (heap w 0%nat) == 100
   /\ takeProfitStage (heap w 0%nat) = 0%nat
   /\ dailyTradeCount (state w) = 0%Z)
  /\ (status (heap w1 0%nat) = st_closed
      /\ remainingPercent (heap w1 0%nat) == 0
      /\ openPositions (state w1) = []
      /\ dailyPnlSol (state w1) == - 0.0324
      /\ dailyTradeCount (state w1) = 1%Z
      /\ dailyLossCount (state w1) = 1%Z)
  /\ (remainingPercent (heap w2 0%nat) == 100
      /\ takeProfitStage (heap w2 0%nat) = 1%nat).
Proof.
  vm_compute. intuition discriminate.
Qed.

(** C3, on the code.  A position classified as a runner at entry is
    marked at -25%, below the -20% ceiling, with a live price: every stop
    of the fast loop is guarded by [!p.isRunner] and the runner rule
    needs a past peak of +15%, so the tick sells nothing and the position
    stays open. *)
Lemma runner_below_ceiling_stays_open :
  let buy := Bot.Buy (Sample.env 1000 (Some 1) (Sample.filled 0.02))
               Sample.hot in
  let w := Bot.run [buy] (Bot.initialWorld 0.6) in
  let w' := Bot.run [buy;
                     Bot.FastTick (Sample.env 100000 (Some 0.75)
                                     (Sample.filled 0.02))]
              (Bot.initialWorld 0.6) in
  isRunner (heap w 0%nat) = true
  /\ pnlPercent (heap w' 0%nat) == -25
  /\ pnlPercent (heap w' 0%nat) <= monitor.maxTrailingLoss
  /\ status (heap w' 0%nat) = st_open
  /\ openPositions (state w') = [0%nat]
  /\ sellCalls 0%nat (events w') = 0%nat.
Proof.
  vm_compute. intuition discriminate.
Qed.

End Exits.

Section ExitsGeneral.
Import Config Monitor.

Variable E : Env.
Variable r : Ref.

(** A close goes through whatever the executor answers. *)
Lemma closePosition_effect (reason : CloseReason) (w : World) :
  let w' := closePosition E r reason w in
  status (heap w' r) = st_closed
  /\ remainingPercent (heap w' r) = 0
  /\ closeReason (heap w' r) = Some reason
  /\ ~ In r (openPositions (state w'))
  /\ dailyTradeCount (state w') = (dailyTradeCount (state w) + 1)%Z.
Proof.
  unfold closePosition.
  destruct (Qle_bool _ _); simpl; rewrite Nat.eqb_refl; simpl;
    (repeat split; trivial; intros Hin; apply filter_In in Hin;
     destruct Hin as (_ & D); rewrite Nat.eqb_refl in D; discriminate).
Qed.

(** With a live price, a position outside runner mode marked at -12% or
    lower is closed by the fast loop on that tick, as a stop-loss: the
    anti-runaway branch at -20%, which carries the same guard, is never
    reached. *)
Lemma safetyStops_cuts_scalp (price : Q) (w : World) :
  isRunner (heap w r) = false ->
  pnlOf (heap w r) price <= -12 ->
  let w' := safetyStops E r price w in
  status (heap w' r) = st_closed
  /\ closeReason (heap w' r) = Some stop_loss.
Proof.
  intros Ru Pn. unfold safetyStops.
  set (w0 := if Timers.has r (deadVolumeTimers w)
             then with_timers (Timers.delete r) w else w).
  assert (H0 : heap w0 r = heap w r)
    by (unfold w0; destruct (Timers.has _ _); reflexivity).
  rewrite H0.
  set (w1 := if Qltb (highestPriceSol (heap w r)) price
             then update r (set_highest price)
                    (update r (set_price price (pnlOf (heap w r) price)) w0)
             else update r (set_price price (pnlOf (heap w r) price)) w0).
  assert (P1 : pnlPercent (heap w1 r) = pnlOf (heap w r) price).
  { unfold w1. destruct (Qltb _ _); simpl; rewrite Nat.eqb_refl; simpl;
      rewrite ?Nat.eqb_refl; reflexivity. }
  assert (R1 : isRunner (heap w1 r) = false).
  { unfold w1. destruct (Qltb _ _); simpl; rewrite Nat.eqb_refl; simpl;
      rewrite ?Nat.eqb_refl; simpl; rewrite H0; exact Ru. }
  rewrite P1, R1.
  replace (Qle_bool (pnlOf (heap w r) price) (-12)) with true
    by (symmetry; apply Qle_bool_iff; exact Pn).
  simpl negb. rewrite !andb_true_r.
  destruct (_ && _); [|destruct (_ && _)];
    pose proof (closePosition_effect stop_loss w1) as C; simpl in C; tauto.
Qed.

(** A runner whose peak stayed below +15% passes every stop of the fast
    loop, however low it is marked. *)
Lemma safetyStops_spares_runner (price : Q) (w : World) :
  isRunner (heap w r) = true ->
  price <= highestPriceSol (heap w r) ->
  pnlOf (heap w r) (highestPriceSol (heap w r)) < 15 ->
  let w' := safetyStops E r price w in
  status (heap w' r) = status (heap w r)
  /\ openPositions (state w') = openPositions (state w)
  /\ events w' = events w.
Proof.
  intros Ru Hi Pk. unfold safetyStops.
  set (w0 := if Timers.has r (deadVolumeTimers w)
             then with_timers (Timers.delete r) w else w).
  assert (H0 : heap w0 r = heap w r)
    by (unfold w0; destruct (Timers.has _ _); reflexivity).
  assert (S0 : openPositions (state w0) = openPositions (state w)
               /\ events w0 = events w)
    by (unfold w0; destruct (Timers.has _ _); split; reflexivity).
  rewrite H0.
  replace (Qltb (highestPriceSol (heap w r)) price) with false
    by (symmetry; apply Qltb_false; exact Hi).
  simpl. rewrite Nat.eqb_refl. simpl. rewrite H0, Ru. simpl.
  rewrite !andb_false_r. simpl.
  assert (K : forall f,
             status (heap (update r (set_price price f) w0) r)
             = status (heap w r)
             /\ openPositions (state (update r (set_price price f) w0))
                = openPositions (state w)
             /\ events (update r (set_price price f) w0) = events w).
  { intro f. simpl. rewrite Nat.eqb_refl. simpl. rewrite H0. tauto. }
  destruct (Qle_bool _ 2); [|apply K].
  replace (Qle_bool 15 _) with false; [apply K|].
  symmetry. apply Qle_bool_false. exact Pk.
Qed.

End ExitsGeneral.

(** ** The profit ladder *)

Section Ladder.
Import Config Monitor.

Variable E : Env.
Variable label : Q -> SellReason.
Variable r : Ref.

(** A partial sell touches nothing but the remaining fraction and the
    status of its own position. *)
Lemma partialSell_heap (pct : Q) (reason : SellReason) (w : World) (x : Ref) :
  heap (partialSell E r pct reason w) x = heap w x
  \/ (x = r
      /\ exists v st,
           heap (partialSell E r pct reason w) x
           = set_exit v st (closeReason (heap w r)) (heap w r)).
Proof.
  unfold partialSell.
  destruct (success _); [|left; reflexivity].
  destruct (Qltb _ _); simpl;
    (destruct (Nat.eqb_spec x r) as [X|X];
     [right; split; [exact X|]; eexists; eexists; reflexivity
     | left; reflexivity]).
Qed.

Lemma partialSell_pnl (pct : Q) (reason : SellReason) (w : World) (x : Ref) :
  pnlPercent (heap (partialSell E r pct reason w) x) = pnlPercent (heap w x).
Proof.
  destruct (partialSell_heap pct reason w x) as [H | (-> & v & st & H)];
    rewrite H; reflexivity.
Qed.

Lemma partialSell_stage (pct : Q) (reason : SellReason) (w : World) (x : Ref) :
  takeProfitStage (heap (partialSell E r pct reason w) x)
  = takeProfitStage (heap w x).
Proof.
  destruct (partialSell_heap pct reason w x) as [H | (-> & v & st & H)];
    rewrite H; reflexivity.
Qed.

Lemma ladderFrom_pnl (rungs : list Rung) :
  forall (i : nat) (w : World),
    pnlPercent (heap (ladderFrom E label rungs i r w) r)
    = pnlPercent (heap w r).
Proof.
  induction rungs as [|sp rest IH]; intros i w; simpl; [reflexivity|].
  rewrite IH. destruct (Qle_bool _ _); [|reflexivity].
  simpl. rewrite Nat.eqb_refl. simpl. apply partialSell_pnl.
Qed.

Lemma ladderFrom_quiet (rungs : list Rung) :
  forall (i : nat) (w : World),
    Forall (quiet (pnlPercent (heap w r))) rungs ->
    ladderFrom E label rungs i r w = w.
Proof.
  induction rungs as [|sp rest IH]; intros i w Q; simpl; [reflexivity|].
  inversion Q as [|? ? Q1 Q2]; subst. unfold quiet in Q1. rewrite Q1.
  apply IH. exact Q2.
Qed.

(** Where the ladder index stands after the loop: untouched with every
    rung quiet, or just past the last rung that fired, every later rung
    quiet. *)
Lemma ladderFrom_stage (rungs : list Rung) :
  forall (i : nat) (w : World),
    let w' := ladderFrom E label rungs i r w in
    let k := takeProfitStage (heap w' r) in
    (k = takeProfitStage (heap w r)
     /\ Forall (quiet (pnlPercent (heap w r))) rungs)
    \/ ((i < k <= i + List.length rungs)%nat
        /\ Forall (quiet (pnlPercent (heap w r))) (skipn (k - i) rungs)).
Proof.
  induction rungs as [|sp rest IH]; intros i w; simpl.
  - left. split; [reflexivity | constructor].
  - destruct (Qle_bool (triggerPercent sp * 100) (pnlPercent (heap w r)))
      eqn:T.
    + set (w1 := update r (set_stage (S i))
                   (partialSell E r (sellPercent sp * 100)
                      (label (triggerPercent sp * 100)) w)).
      assert (P1 : pnlPercent (heap w1 r) = pnlPercent (heap w r)).
      { unfold w1. simpl. rewrite Nat.eqb_refl. simpl.
        apply partialSell_pnl. }
      assert (S1 : takeProfitStage (heap w1 r) = S i).
      { unfold w1. simpl. rewrite Nat.eqb_refl. reflexivity. }
      right. destruct (IH (S i) w1) as [(K & Q) | (K & Q)];
        rewrite P1 in Q.
      * rewrite K, S1. split; [lia|].
        replace (S i - i)%nat with 1%nat by lia. exact Q.
      * split; [lia|].
        replace (takeProfitStage _ - i)%nat
          with (S (takeProfitStage
                     (heap (ladderFrom E label rest (S i) r w1) r) - S i))
          by lia.
        exact Q.
    + destruct (IH (S i) w) as [(K & Q) | (K & Q)].
      * left. split; [exact K|]. constructor; assumption.
      * right. split; [lia|].
        replace (takeProfitStage _ - i)%nat
          with (S (takeProfitStage
                     (heap (ladderFrom E label rest (S i) r w) r) - S i))
          by lia.
        exact Q.
Qed.

Lemma quiet_compat (a b : Q) (rungs : list Rung) :
  a == b -> Forall (quiet a) rungs -> Forall (quiet b) rungs.
Proof.
  intros H F. eapply Forall_impl; [|exact F].
  intros sp. unfold quiet. rewrite !Qle_bool_false. rewrite H. trivial.
Qed.

End Ladder.

Section LadderIdempotence.
Import Config Monitor.

(** One run after the other.  Let the take-profit loop (of [handleScalp]
    or of [handleRunner]: any table, any label) run on position [r] from
    start to return, and invoke the same loop again on a world where the
    position has the ladder index the first run left and the P&L it had:
    the second run changes nothing at all, so the index does not move and
    no further sell order is issued. *)
Theorem takeProfitLoop_idempotent
  (E1 E2 : Env) (label : Q -> SellReason) (table : list Rung) (r : Ref)
  (w w' : World) :
  let w1 := takeProfitLoop E1 label table r w in
  takeProfitStage (heap w' r) = takeProfitStage (heap w1 r) ->
  pnlPercent (heap w' r) == pnlPercent (heap w r) ->
  takeProfitLoop E2 label table r w' = w'
  /\ takeProfitStage (heap (takeProfitLoop E2 label table r w') r)
     = takeProfitStage (heap w1 r)
  /\ sellCalls r (events (takeProfitLoop E2 label table r w'))
     = sellCalls r (events w').
Proof.
  intros w1 HS HP.
  assert (Q : Forall (quiet (pnlPercent (heap w' r)))
                (skipn (takeProfitStage (heap w' r)) table)).
  { apply quiet_compat with (a := pnlPercent (heap w r));
      [symmetry; exact HP|].
    rewrite HS. unfold w1, takeProfitLoop.
    set (k0 := takeProfitStage (heap w r)).
    destruct (ladderFrom_stage E1 label r (skipn k0 table) k0 w)
      as [(K & F) | (K & F)].
    - fold k0 in K. rewrite K. exact F.
    - rewrite skipn_skipn in F.
      replace (takeProfitStage _ - k0 + k0)%nat
        with (takeProfitStage
                (heap (ladderFrom E1 label (skipn k0 table) k0 r w) r))
        in F by lia.
      exact F. }
  assert (I : takeProfitLoop E2 label table r w' = w').
  { unfold takeProfitLoop. apply ladderFrom_quiet. exact Q. }
  rewrite I. repeat split. exact HS.
Qed.

Lemma takeProfitLoop_idempotent_witness :
  let E := Sample.env 100000 (Some 1.25) (Sample.filled 0.012) in
  let w := update 0%nat (set_price 1.25 25) (Sample.holding false) in
  let w1 := takeProfitLoop E ScalpTP monitor.secureProfits 0%nat w in
  takeProfitStage (heap w1 0%nat) = 1%nat
  /\ sellCalls 0%nat (events w1) = 1%nat
  /\ takeProfitLoop E ScalpTP monitor.secureProfits 0%nat w1 = w1.
Proof.
  intros E w w1.
  split; [vm_compute; reflexivity|]. split; [vm_compute; reflexivity|].
  refine (proj1 (@takeProfitLoop_idempotent E E ScalpTP
            monitor.secureProfits 0%nat w w1 _ _)).
  - reflexivity.
  - vm_compute. reflexivity.
Defined.

End LadderIdempotence.

(** ** The books *)

Section Books.

Lemma sold_app (r : Ref) (a b : list Event) :
  sold r (a ++ b) == sold r a + sold r b.
Proof.
  induction a as [|e a IH]; simpl.
  - lra.
  - rewrite IH. lra.
Qed.

Lemma realized_app (a b : list Event) :
  realized (a ++ b) == realized a + realized b.
Proof.
  induction a as [|e a IH]; simpl.
  - lra.
  - rewrite IH. lra.
Qed.

Lemma sold_silent (r : Ref) (evs : list Event) :
  Forall silent evs -> sold r evs == 0.
Proof.
  induction 1 as [|e evs H _ IH]; simpl.
  - reflexivity.
  - rewrite IH. destruct e; simpl in *; try contradiction; lra.
Qed.

Lemma realized_silent (evs : list Event) :
  Forall silent evs -> realized evs == 0.
Proof.
  induction 1 as [|e evs H _ IH]; simpl.
  - reflexivity.
  - rewrite IH. destruct e; simpl in *; try contradiction; lra.
Qed.

Lemma logged_silent (n : Ref) (evs : list Event) :
  Forall silent evs -> Forall (logged n) evs.
Proof.
  intros H. eapply Forall_impl; [|exact H].
  intros [] S; simpl in *; tauto.
Qed.

Lemma logged_mono (n m : Ref) (evs : list Event) :
  (n <= m)%nat -> Forall (logged n) evs -> Forall (logged m) evs.
Proof.
  intros L H. eapply Forall_impl; [|exact H].
  intros [] S; simpl in *; trivial. split; [lia | tauto].
Qed.

(** Orders for positions not yet allocated do not exist. *)
Lemma sold_fresh (n r : Ref) (evs : list Event) :
  Forall (logged n) evs -> (n <= r)%nat -> sold r evs == 0.
Proof.
  intros H L. induction H as [|e evs H _ IH]; simpl.
  - reflexivity.
  - rewrite IH. destruct e; simpl in *; try lra.
    destruct (Nat.eqb_spec p r); [lia | lra].
Qed.

Lemma stakes_ext (h h' : Ref -> Position) (l : list Ref) :
  (forall x, In x l -> stake (h' x) == stake (h x)) ->
  stakes h' l == stakes h l.
Proof.
  induction l as [|a l IH]; intros H; simpl.
  - reflexivity.
  - rewrite IH, (H a).
    + reflexivity.
    + left. reflexivity.
    + intros x I. apply H. right. exact I.
Qed.

Lemma stakes_app (h : Ref -> Position) (l : list Ref) (r : Ref) :
  stakes h (l ++ [r]) == stakes h l + stake (h r).
Proof.
  induction l as [|a l IH]; simpl.
  - lra.
  - rewrite IH. lra.
Qed.

Lemma filter_absent (r : Ref) (l : list Ref) :
  ~ In r l -> filter (fun x => negb (Nat.eqb x r)) l = l.
Proof.
  induction l as [|a l IH]; intros N; simpl.
  - reflexivity.
  - destruct (Nat.eqb_spec a r) as [->|D]; simpl.
    + exfalso. apply N. left. reflexivity.
    + rewrite IH; [reflexivity|]. intro I. apply N. right. exact I.
Qed.

Lemma stakes_remove (h : Ref -> Position) (r : Ref) (l : list Ref) :
  NoDup l -> In r l ->
  stakes h (filter (fun x => negb (Nat.eqb x r)) l)
  == stakes h l - stake (h r).
Proof.
  induction 1 as [|a l N ND IH]; intros I; simpl.
  - contradiction.
  - destruct (Nat.eqb_spec a r) as [->|D]; simpl.
    + rewrite filter_absent by exact N. lra.
    + destruct I as [->|I]; [contradiction|].
      rewrite IH by exact I. lra.
Qed.

Lemma stakes_update (h h' : Ref -> Position) (r : Ref) (l : list Ref) :
  NoDup l -> In r l ->
  (forall x, In x l -> x <> r -> stake (h' x) == stake (h x)) ->
  stakes h' l == stakes h l - stake (h r) + stake (h' r).
Proof.
  induction 1 as [|a l N ND IH]; intros I O; simpl.
  - contradiction.
  - destruct (Nat.eq_dec a r) as [->|D].
    + rewrite (@stakes_ext h h' l).
      * lra.
      * intros x Ix. apply O; [right; exact Ix|].
        intros ->. contradiction.
    + destruct I as [->|I]; [contradiction|].
      rewrite IH.
      * rewrite (O a); [lra | left; reflexivity | exact D].
      * exact I.
      * intros x Ix. apply O. right. exact Ix.
Qed.

Lemma fold_left_sum (f : Ref -> Q) (l : list Ref) :
  forall a, fold_left (fun sum r => sum + f r) l a
            == a + fold_right (fun r acc => f r + acc) 0 l.
Proof.
  induction l as [|x l IH]; intros a; simpl.
  - lra.
  - rewrite IH. lra.
Qed.

Lemma committed_stakes (w : World) :
  Risk.committed w == stakes (heap w) (openPositions (state w)).
Proof.
  unfold Risk.committed, stakes.
  rewrite (fold_left_sum
             (fun r => entryAmountSol (heap w r)
                       * (remainingPercent (heap w r) / 100))).
  unfold stake. lra.
Qed.

Lemma sameKey_stake (p q : Position) : sameKey p q -> stake p = stake q.
Proof.
  intros (A & B & _). unfold stake. rewrite A, B. reflexivity.
Qed.

End Books.

Section Invariant.

Lemma Frame_refl (w : World) : Frame w w.
Proof.
  repeat split. exists []. split; [symmetry; apply app_nil_r | constructor].
Qed.

Lemma Frame_trans (a b c : World) : Frame a b -> Frame b c -> Frame a c.
Proof.
  intros (O1 & N1 & A1 & T1 & K1 & e1 & E1 & S1)
         (O2 & N2 & A2 & T2 & K2 & e2 & E2 & S2).
  repeat split; try congruence.
  - destruct (K2 x) as (H & _), (K1 x) as (H' & _). congruence.
  - destruct (K2 x) as (_ & H & _), (K1 x) as (_ & H' & _). congruence.
  - destruct (K2 x) as (_ & _ & H & _), (K1 x) as (_ & _ & H' & _).
    congruence.
  - destruct (K2 x) as (_ & _ & _ & H), (K1 x) as (_ & _ & _ & H').
    congruence.
  - exists (e1 ++ e2). split.
    + rewrite E2, E1, app_assoc. reflexivity.
    + apply Forall_app. split; assumption.
Qed.

Lemma Inv_frame (w w' : World) : Frame w w' -> Inv w -> Inv w'.
Proof.
  intros (O & N & A & T & K & evs & Ev & Si) [I1 I2 I3 I4 I5].
  assert (C : Risk.committed w' == Risk.committed w).
  { rewrite !committed_stakes, O. apply stakes_ext.
    intros x _. rewrite (sameKey_stake (K x)). reflexivity. }
  constructor.
  - rewrite O. exact I1.
  - intros r Hin. rewrite O in Hin. destruct (I2 r Hin) as (B & St & Fl).
    destruct (K r) as (_ & Kr & Ks & Kst).
    rewrite N, Kr, Ks, Kst. tauto.
  - intros r B. rewrite N in B. destruct (I3 r B) as (Rg & So).
    destruct (K r) as (_ & Kr & _). rewrite Kr, Ev, sold_app.
    rewrite (sold_silent r Si). split; [exact Rg|]. rewrite So. lra.
  - rewrite Ev, N. apply Forall_app. split; [exact I4|].
    apply logged_silent. exact Si.
  - rewrite A, T, C, Ev, realized_app, (realized_silent Si), I5. lra.
Qed.

Lemma Live_frame (r : Ref) (w w' : World) :
  Frame w w' -> Live r w -> Live r w'.
Proof.
  intros F (I & M). split.
  - exact (Inv_frame F I).
  - destruct F as (O & _). rewrite O. exact M.
Qed.

Lemma Stepped_frame (r : Ref) (w w' : World) :
  Frame w w' -> Live r w -> Stepped r w w'.
Proof.
  intros F (I & M). split.
  - exact (Inv_frame F I).
  - destruct F as (O & _). rewrite O. trivial.
Qed.

Lemma Stepped_after (r : Ref) (w w1 w2 : World) :
  Frame w w1 -> Stepped r w1 w2 -> Stepped r w w2.
Proof.
  intros (O & _) (I & M). split; [exact I|].
  intros x D Hin. apply M; [exact D|]. rewrite O. exact Hin.
Qed.

(** One sell order for an open position, booked as the log says: the
    invariant survives, with the position either still open above its
    floor or gone from the open set with nothing remaining. *)
Lemma Inv_sell (w w' : World) (r : Ref) (pct : Q) (reason : SellReason)
  (res : SellResult) (evs : list Event) :
  let share := bookedShare (heap w r) pct reason res in
  Live r w ->
  events w' = events w ++ ExecuteSell r (heap w r) pct reason res :: evs ->
  Forall silent evs ->
  nextRef w' = nextRef w ->
  totalCapitalSol (state w') = totalCapitalSol (state w) ->
  availableCapitalSol (state w')
  == availableCapitalSol (state w) + proceeds reason res ->
  (forall x, x <> r -> sameKey (heap w' x) (heap w x)) ->
  entryAmountSol (heap w' r) = entryAmountSol (heap w r) ->
  remainingPercent (heap w' r) == remainingPercent (heap w r) - share ->
  0 <= share <= remainingPercent (heap w r) ->
  (openPositions (state w') = openPositions (state w)
   /\ status (heap w' r) <> st_closed
   /\ floorRem (takeProfitStage (heap w' r))
      <= remainingPercent (heap w' r))
  \/ (openPositions (state w')
      = filter (fun x => negb (Nat.eqb x r)) (openPositions (state w))
      /\ remainingPercent (heap w' r) == 0) ->
  Inv w'.
Proof.
  intros share ([I1 I2 I3 I4 I5] & M) Ev Si N T A K En Rm Sh Alt.
  destruct (I2 r M) as (Br & _ & _).
  destruct (I3 r Br) as (Rg & So).
  assert (Sr : sold r (events w') == sold r (events w) + share).
  { rewrite Ev, sold_app. simpl. rewrite Nat.eqb_refl.
    rewrite (sold_silent r Si). fold share. lra. }
  assert (Sx : forall x, x <> r -> sold x (events w') == sold x (events w)).
  { intros x D. rewrite Ev, sold_app. simpl.
    destruct (Nat.eqb_spec r x) as [->|_]; [contradiction|].
    rewrite (sold_silent x Si). lra. }
  assert (Re : realized (events w')
               == realized (events w) + proceeds reason res
                  - entryAmountSol (heap w r) * (share / 100)).
  { rewrite Ev, realized_app. simpl. rewrite (realized_silent Si).
    fold share. lra. }
  assert (St : stake (heap w r) - stake (heap w' r)
               == entryAmountSol (heap w r) * (share / 100)).
  { unfold stake. rewrite En, Rm. field. }
  assert (Co : Risk.committed w'
               == Risk.committed w
                  - entryAmountSol (heap w r) * (share / 100)).
  { rewrite !committed_stakes. destruct Alt as [(O & _) | (O & Z)]; rewrite O.
    - rewrite (@stakes_update (heap w) (heap w') r); trivial.
      + lra.
      + intros x _ D. rewrite (sameKey_stake (K x D)). reflexivity.
    - rewrite (@stakes_ext (heap w) (heap w')).
      + rewrite stakes_remove by assumption.
        assert (Z' : stake (heap w' r) == 0).
        { unfold stake. rewrite Z. field. }
        lra.
      + intros x Hin. apply filter_In in Hin. destruct Hin as (_ & D).
        apply negb_true_iff, Nat.eqb_neq in D.
        rewrite (sameKey_stake (K x D)). reflexivity. }
  constructor.
  - destruct Alt as [(O & _) | (O & _)]; rewrite O;
      [exact I1 | apply NoDup_filter; exact I1].
  - intros x Hin. rewrite N. destruct (Nat.eq_dec x r) as [->|D].
    + destruct Alt as [(O & S1 & F1) | (O & _)].
      * tauto.
      * rewrite O in Hin. apply filter_In in Hin. destruct Hin as (_ & D).
        rewrite Nat.eqb_refl in D. discriminate.
    + assert (In0 : In x (openPositions (state w))).
      { destruct Alt as [(O & _) | (O & _)]; rewrite O in Hin;
          [exact Hin | apply filter_In in Hin; tauto]. }
      destruct (I2 x In0) as (B & S0 & F0).
      destruct (K x D) as (_ & Kr & Ks & Kst).
      rewrite Kr, Ks, Kst. tauto.
  - intros x B. rewrite N in B. destruct (Nat.eq_dec x r) as [->|D].
    + rewrite Rm, Sr. split; [lra|]. rewrite So. lra.
    + destruct (I3 x B) as (Rgx & Sox).
      destruct (K x D) as (_ & Kr & _). rewrite Kr, (Sx x D). tauto.
  - rewrite Ev, N. apply Forall_app. split; [exact I4|].
    constructor.
    + simpl. fold share. split; [exact Br | tauto].
    + apply logged_silent. exact Si.
  - rewrite A, T, Co, Re, I5. lra.
Qed.

End Invariant.

Section Primitives.
Import Config Monitor.

Lemma Frame_update (r : Ref) (f : Position -> Position) (w : World) :
  (forall p, sameKey (f p) p) -> Frame w (update r f w).
Proof.
  intros K. repeat split; simpl;
    try (destruct (Nat.eqb_spec x r) as [->|_]; [apply K | reflexivity]).
  exists []. split; [symmetry; apply app_nil_r | constructor].
Qed.

Lemma Frame_emit (e : Event) (w : World) : silent e -> Frame w (emit e w).
Proof.
  intros S. repeat split. exists [e]. split; [reflexivity|].
  constructor; [exact S | constructor].
Qed.

Lemma Frame_timers (f : list (Ref * Z) -> list (Ref * Z)) (w : World) :
  Frame w (with_timers f w).
Proof.
  repeat split. exists []. split; [symmetry; apply app_nil_r | constructor].
Qed.

Lemma Frame_state (g : BotState -> BotState) (w : World) :
  openPositions (g (state w)) = openPositions (state w) ->
  availableCapitalSol (g (state w)) = availableCapitalSol (state w) ->
  totalCapitalSol (g (state w)) = totalCapitalSol (state w) ->
  Frame w (with_state g w).
Proof.
  intros O A T. repeat split; trivial.
  exists []. split; [symmetry; apply app_nil_r | constructor].
Qed.

Lemma sameKey_price (a b : Q) (p : Position) : sameKey (set_price a b p) p.
Proof. repeat split. Qed.

Lemma sameKey_pnlSol (a : Q) (p : Position) : sameKey (set_pnlSol a p) p.
Proof. repeat split. Qed.

Lemma sameKey_highest (a : Q) (p : Position) : sameKey (set_highest a p) p.
Proof. repeat split. Qed.

Lemma sameKey_runner (t : Z) (p : Position) : sameKey (set_runner t p) p.
Proof. repeat split. Qed.

Lemma floorRem_step (i : nat) : floorRem (S i) <= floorRem i.
Proof.
  destruct i as [|[|[|i]]]; unfold floorRem; lra.
Qed.

Lemma floorRem_mono (i j : nat) : (i <= j)%nat -> floorRem j <= floorRem i.
Proof.
  induction 1 as [|j _ IH].
  - lra.
  - pose proof (floorRem_step j). lra.
Qed.

Lemma floorRem_pos (i : nat) : 30 <= floorRem i.
Proof.
  destruct i as [|[|[|i]]]; unfold floorRem; lra.
Qed.

(** A full close, whatever the executor answers. *)
Lemma closePosition_Stepped (E : Env) (r : Ref) (reason : CloseReason)
  (w : World) :
  Live r w -> Stepped r w (closePosition E r reason w).
Proof.
  intros L. pose proof L as (I & M).
  destruct (@inv_open w I r M) as (B & _ & _).
  destruct (@inv_range w I r B) as (Rg & _).
  assert (O : openPositions (state (closePosition E r reason w))
              = filter (fun x => negb (Nat.eqb x r))
                  (openPositions (state w))).
  { unfold closePosition. destruct (Qle_bool _ _); reflexivity. }
  split.
  - unfold closePosition.
    set (res := executeSell E (heap w r) (remainingPercent (heap w r))
                  (Closing reason)).
    destruct (Qle_bool 0 (received res - entryAmountSol (heap w r)));
      (eapply (@Inv_sell w _ r (remainingPercent (heap w r))
                 (Closing reason) res);
       [ exact L
       | simpl; rewrite <- !app_assoc; reflexivity
       | repeat constructor
       | reflexivity
       | reflexivity
       | simpl; reflexivity
       | intros x D; simpl;
         destruct (Nat.eqb_spec x r); [contradiction | repeat split]
       | simpl; rewrite Nat.eqb_refl; reflexivity
       | simpl; rewrite Nat.eqb_refl; simpl; lra
       | simpl; lra
       | right; split;
         [reflexivity | simpl; rewrite Nat.eqb_refl; simpl; lra] ]).
  - intros x D Hin. rewrite O. apply filter_In. split; [exact Hin|].
    apply negb_true_iff, Nat.eqb_neq. exact D.
Qed.

End Primitives.

Section LadderBooks.
Import Config Monitor.

Variable E : Env.
Variable r : Ref.

Local Ltac here :=
  simpl; rewrite ?Nat.eqb_refl; simpl; rewrite ?Nat.eqb_refl; simpl.

(** The percentage of the remainder asked of the executor books exactly
    [pct] percent of the original position. *)
Lemma effective_share (pct rem : Q) :
  0 < pct -> pct <= rem ->
  rem * ((if Qeq_bool rem 0 then 100 else Qmin 100 (pct / rem * 100)) / 100)
  == pct.
Proof.
  intros P L.
  assert (N : ~ rem == 0) by lra.
  destruct (Qeq_bool rem 0) eqn:Z.
  - apply Qeq_bool_iff in Z. contradiction.
  - assert (B : pct / rem * 100 <= 100).
    { assert (D : pct / rem <= 1) by (apply Qle_shift_div_r; lra).
      set (t := pct / rem) in *. lra. }
    rewrite Q.min_r by exact B. field. exact N.
Qed.

(** One iteration of the take-profit loop whose rung fires. *)
Lemma rung_Live (pct : Q) (reason : SellReason) (i : nat) (w : World) :
  Live r w ->
  (takeProfitStage (heap w r) <= i)%nat ->
  0 < pct -> pct <= floorRem i - floorRem (S i) ->
  isLadder reason ->
  let w' := update r (set_stage (S i)) (partialSell E r pct reason w) in
  Live r w' /\ openPositions (state w') = openPositions (state w).
Proof.
  intros L Hi P Fit Lad w'. pose proof L as (I & M).
  destruct (@inv_open w I r M) as (B & Op & Fl).
  destruct (@inv_range w I r B) as (Rg & _).
  pose proof (floorRem_mono Hi) as Mo.
  pose proof (floorRem_pos (S i)) as Po.
  pose proof (floorRem_step i) as St.
  assert (Le : pct <= remainingPercent (heap w r)) by lra.
  pose proof (effective_share P Le) as Eff.
  assert (O : openPositions (state w') = openPositions (state w)).
  { unfold w', partialSell. destruct (success _); [|reflexivity].
    destruct (Qltb _ _); reflexivity. }
  split; [|exact O]. split; [|rewrite O; exact M].
  unfold w', partialSell.
  set (eff := if Qeq_bool (remainingPercent (heap w r)) 0 then 100
              else Qmin 100 (pct / remainingPercent (heap w r) * 100))
    in *.
  set (res := executeSell E (heap w r) eff reason).
  assert (Sh : bookedShare (heap w r) eff reason res
               = if success res
                 then remainingPercent (heap w r) * (eff / 100) else 0).
  { destruct reason; simpl in *; try reflexivity. contradiction. }
  assert (Pr : proceeds reason res
               = if success res then received res else 0).
  { destruct reason; simpl in *; try reflexivity. contradiction. }
  destruct (success res) eqn:Su.
  - destruct (Qle_bool (remainingPercent (heap w r) - pct) 0) eqn:Cl.
    { apply Qle_bool_iff in Cl. lra. }
    destruct (Qltb 0 (received res
                      - entryAmountSol (heap w r) * (pct / 100)));
      (eapply (@Inv_sell w _ r eff reason res);
       [ exact L
       | simpl; rewrite <- ?app_assoc; reflexivity
       | once (repeat constructor)
       | reflexivity
       | reflexivity
       | rewrite Pr; simpl; reflexivity
       | intros x D; simpl;
         destruct (Nat.eqb_spec x r); [contradiction | repeat split]
       | here; reflexivity
       | rewrite Sh, Eff; here; lra
       | rewrite Sh, Eff; lra
       | left; split; [reflexivity|];
         here;
         split; [discriminate | lra] ]).
  - eapply (@Inv_sell w _ r eff reason res);
      [ exact L
      | simpl; reflexivity
      | once constructor
      | reflexivity
      | reflexivity
      | rewrite Pr; simpl; lra
      | intros x D; simpl;
        destruct (Nat.eqb_spec x r); [contradiction | repeat split]
      | here; reflexivity
      | rewrite Sh; here; lra
      | rewrite Sh; lra
      | left; split; [reflexivity|];
        here; split; [exact Op | lra] ].
Qed.

Lemma rungsFit_skipn (table : list Rung) :
  forall i k, rungsFit i table -> rungsFit (k + i) (skipn k table).
Proof.
  induction table as [|sp rest IH]; intros i k F.
  - destruct k; exact I.
  - destruct k as [|k]; [exact F|]. simpl in *.
    replace (S (k + i)) with (k + S i)%nat by lia. apply IH. tauto.
Qed.

Lemma ladderFrom_Live (label : Q -> SellReason) (rungs : list Rung) :
  (forall x, isLadder (label x)) ->
  forall (i : nat) (w : World),
    Live r w ->
    (takeProfitStage (heap w r) <= i)%nat ->
    rungsFit i rungs ->
    Live r (ladderFrom E label rungs i r w)
    /\ openPositions (state (ladderFrom E label rungs i r w))
       = openPositions (state w).
Proof.
  intros Lad. induction rungs as [|sp rest IH]; intros i w L Hi F; simpl.
  - split; [exact L | reflexivity].
  - destruct F as (P & Fit & F).
    destruct (Qle_bool _ _).
    + destruct (@rung_Live (sellPercent sp * 100)
                  (label (triggerPercent sp * 100)) i w L Hi P Fit (Lad _))
        as (L1 & O1).
      destruct (IH (S i) _ L1) as (L2 & O2).
      * simpl. rewrite Nat.eqb_refl. simpl. lia.
      * exact F.
      * split; [exact L2|]. rewrite O2. exact O1.
    + apply IH; [exact L | lia | exact F].
Qed.

Lemma takeProfitLoop_Live (label : Q -> SellReason) (table : list Rung)
  (w : World) :
  (forall x, isLadder (label x)) ->
  rungsFit 0 table ->
  Live r w ->
  Live r (takeProfitLoop E label table r w)
  /\ openPositions (state (takeProfitLoop E label table r w))
     = openPositions (state w).
Proof.
  intros Lad F L. unfold takeProfitLoop.
  apply ladderFrom_Live; trivial.
  pose proof (@rungsFit_skipn table 0 (takeProfitStage (heap w r)) F) as H.
  rewrite Nat.add_0_r in H. exact H.
Qed.

Lemma scalp_table_fits : rungsFit 0 monitor.secureProfits.
Proof. simpl. unfold floorRem. repeat split; lra. Qed.

Lemma runner_table_fits : rungsFit 0 runner.secureProfits.
Proof. simpl. unfold floorRem. repeat split; lra. Qed.

End LadderBooks.

Section Handlers.
Import Config Monitor.

Variable E : Env.
Variable r : Ref.

Lemma Stepped_via (w w1 w2 : World) :
  openPositions (state w1) = openPositions (state w) ->
  Stepped r w1 w2 -> Stepped r w w2.
Proof.
  intros O (I & M). split; [exact I|].
  intros x D Hin. apply M; [exact D|]. rewrite O. exact Hin.
Qed.

Lemma Stepped_live (w w1 : World) :
  openPositions (state w1) = openPositions (state w) ->
  Live r w1 -> Stepped r w w1.
Proof.
  intros O (I & _). split; [exact I|]. intros x _ Hin. rewrite O. exact Hin.
Qed.

(** Worlds built from [w] by price refreshes, timer updates and
    notifications are frames of [w]. *)
Ltac frame :=
  lazymatch goal with
  | |- Frame _ (if ?c then _ else _) => destruct c; frame
  | |- Frame _ (update _ _ ?x) =>
    apply Frame_trans with x;
    [frame | apply Frame_update; intro; repeat split]
  | |- Frame _ (emit _ ?x) =>
    apply Frame_trans with x; [frame | apply Frame_emit; exact I]
  | |- Frame _ (with_timers _ ?x) =>
    apply Frame_trans with x; [frame | apply Frame_timers]
  | |- Frame _ _ => apply Frame_refl
  end.

(** A cascade of conditions ending in a close or in nothing. *)
Ltac stepped L :=
  lazymatch goal with
  | |- Stepped _ _ (if ?c then _ else _) => destruct c; stepped L
  | |- Stepped _ ?w (closePosition _ _ _ ?y) =>
    apply Stepped_after with y;
    [frame | apply closePosition_Stepped; apply Live_frame with w;
             [frame | exact L]]
  | |- Stepped _ _ _ => apply Stepped_frame; [frame | exact L]
  end.

Lemma handleScalp_Stepped (h : Q) (w : World) :
  Live r w -> Stepped r w (handleScalp E r h w).
Proof.
  intros L. unfold handleScalp.
  destruct (_ && _); [stepped L|].
  destruct (_ && _); [stepped L|].
  destruct (@takeProfitLoop_Live E r ScalpTP monitor.secureProfits w)
    as (L1 & O1); [intro; exact I | apply scalp_table_fits | exact L |].
  destruct (_ && _).
  - apply Stepped_via with (1 := O1). apply closePosition_Stepped. exact L1.
  - apply Stepped_live; assumption.
Qed.

Lemma handleRunner_Stepped (h : Q) (w : World) :
  Live r w -> Stepped r w (handleRunner E r h w).
Proof.
  intros L. unfold handleRunner.
  destruct (_ && _); [stepped L|].
  destruct (@takeProfitLoop_Live E r RunnerTP runner.secureProfits w)
    as (L1 & O1); [intro; exact I | apply runner_table_fits | exact L |].
  destruct (_ && _).
  - apply Stepped_via with (1 := O1). apply closePosition_Stepped. exact L1.
  - apply Stepped_live; assumption.
Qed.

Lemma checkPosition_Stepped (w : World) :
  Live r w -> Stepped r w (checkPosition E r w).
Proof.
  intros L. unfold checkPosition.
  destruct (negb _); [stepped L|].
  match goal with
  | |- Stepped _ _ (if _ then handleRunner _ _ ?h ?y else _) =>
    assert (F : Frame w y) by frame;
    pose proof (Live_frame F L) as Ly;
    destruct F as (O & _);
    destruct (isRunner (heap y r));
    apply Stepped_via with (1 := O);
    [apply handleRunner_Stepped | apply handleScalp_Stepped]; exact Ly
  end.
Qed.

Lemma deadVolume_Stepped (w : World) :
  Live r w -> Stepped r w (deadVolume E r w).
Proof.
  intros L. unfold deadVolume. stepped L.
Qed.

Lemma safetyStops_Stepped (price : Q) (w : World) :
  Live r w -> Stepped r w (safetyStops E r price w).
Proof.
  intros L. unfold safetyStops. stepped L.
Qed.

Lemma fastCheckOne_Stepped (w : World) :
  Live r w -> Stepped r w (fastCheckOne E r w).
Proof.
  intros L. unfold fastCheckOne.
  destruct (is_closed _); [stepped L|].
  destruct (negb _).
  - apply deadVolume_Stepped. exact L.
  - apply safetyStops_Stepped. exact L.
Qed.

End Handlers.

Section Engine.
Import Config Monitor Bot.

Lemma fold_Stepped (f : World -> Ref -> World) :
  (forall r w, Live r w -> Stepped r w (f w r)) ->
  forall (l : list Ref) (w : World),
    NoDup l ->
    (forall x, In x l -> In x (openPositions (state w))) ->
    Inv w -> Inv (fold_left f l w).
Proof.
  intros H. induction l as [|r l IH]; intros w N Sub I; simpl.
  - exact I.
  - inversion N as [|? ? Nr Nl]; subst.
    destruct (H r w) as (I1 & M1).
    + split; [exact I|]. apply Sub. left. reflexivity.
    + apply IH; trivial.
      intros x Hin. apply M1.
      * intros ->. contradiction.
      * apply Sub. right. exact Hin.
Qed.

Lemma snapshot_open (w : World) :
  Inv w ->
  NoDup (snapshot w)
  /\ forall x, In x (snapshot w) -> In x (openPositions (state w)).
Proof.
  intros I. unfold snapshot. split.
  - apply NoDup_filter. exact (inv_nodup I).
  - intros x Hin. apply filter_In in Hin. tauto.
Qed.

Lemma checkAllPositions_Inv (E : Env) (w : World) :
  Inv w -> Inv (checkAllPositions E w).
Proof.
  intros I. destruct (snapshot_open I) as (N & Sub).
  unfold checkAllPositions.
  apply (@fold_Stepped (fun w r => checkPosition E r w)); trivial.
  intros r w0. apply checkPosition_Stepped.
Qed.

Lemma fastCheckParallel_Inv (E : Env) (w : World) :
  Inv w -> Inv (fastCheckParallel E w).
Proof.
  intros I. destruct (snapshot_open I) as (N & Sub).
  unfold fastCheckParallel.
  apply (@fold_Stepped (fun w r => fastCheckOne E r w)); trivial.
  intros r w0. apply fastCheckOne_Stepped.
Qed.

(** The gate leaves the books alone: it only touches the pause fields
    and only emits a risk alert. *)
Lemma canOpenPosition_books (now : Z) (s : BotState) :
  let x := Risk.canOpenPosition now s in
  openPositions (after x) = openPositions s
  /\ availableCapitalSol (after x) = availableCapitalSol s
  /\ totalCapitalSol (after x) = totalCapitalSol s
  /\ Forall silent (emitted x).
Proof.
  unfold Risk.canOpenPosition, Risk.openChecks.
  destruct (isPaused s); [destruct (Risk.pauseRunning now s)|];
    simpl; repeat (destruct (_ : bool); simpl);
    repeat split; repeat constructor.
Qed.

Lemma shouldBuy_Frame (now : Z) (a : TokenAnalysis) (w : World) :
  Frame w (snd (Risk.shouldBuy now a w)).
Proof.
  unfold Risk.shouldBuy.
  pose proof (canOpenPosition_books now (state w)) as B.
  destruct (Risk.canOpenPosition now (state w)) as ((g & s') & evs).
  unfold after, emitted in B. simpl in B.
  destruct B as (O & A & T & S).
  assert (F : Frame w {| state := s'; heap := heap w; nextRef := nextRef w;
                         deadVolumeTimers := deadVolumeTimers w;
                         events := events w ++ evs |}).
  { repeat split; trivial. exists evs. split; [reflexivity | exact S]. }
  destruct (confidence a); try apply Frame_refl;
    (destruct g; [destruct (Risk.alreadyOwned _ _)|]; exact F).
Qed.

(** Opening a position: a fresh object at 100% joins the open set and
    its stake leaves the available capital. *)
Lemma open_Inv (p : Position) (w : World) :
  remainingPercent p = 100 ->
  takeProfitStage p = 0%nat ->
  status p = st_open ->
  Inv w ->
  Inv (emit (Notify (Bought (nextRef w) (entryAmountSol p)))
         (with_state (add_available (- entryAmountSol p))
            (pushPosition p w))).
Proof.
  intros R S St [I1 I2 I3 I4 I5].
  assert (Fresh : ~ In (nextRef w) (openPositions (state w))).
  { intros Hin. destruct (I2 _ Hin) as (B & _). lia. }
  constructor; simpl.
  - apply NoDup_app; [exact I1 | repeat constructor; intros [] |].
    intros x Hin [<-|[]]. contradiction.
  - intros x Hin. apply in_app_or in Hin. destruct Hin as [Hin|[<-|[]]].
    + destruct (I2 x Hin) as (B & Op & Fl).
      destruct (Nat.eqb_spec x (nextRef w)); [lia|].
      split; [lia | tauto].
    + rewrite Nat.eqb_refl, R, S, St. unfold floorRem.
      split; [lia|]. split; [discriminate | lra].
  - intros x B. rewrite sold_app. simpl.
    destruct (Nat.eqb_spec x (nextRef w)) as [->|D].
    + rewrite R, (@sold_fresh (nextRef w) (nextRef w) (events w) I4);
        [split; lra | lia].
    + destruct (I3 x) as (Rg & So); [lia|]. split; [exact Rg|].
      rewrite So. lra.
  - apply Forall_app. split.
    + apply logged_mono with (n := nextRef w); [lia | exact I4].
    + repeat constructor.
  - rewrite realized_app. simpl.
    assert (C : Risk.committed
                  (emit (Notify (Bought (nextRef w) (entryAmountSol p)))
                     (with_state (add_available (- entryAmountSol p))
                        (pushPosition p w)))
                == Risk.committed w + entryAmountSol p).
    { rewrite !committed_stakes. simpl. rewrite stakes_app.
      rewrite Nat.eqb_refl.
      rewrite (@stakes_ext (heap w)).
      - unfold stake. rewrite R. field.
      - intros x Hin. destruct (Nat.eqb_spec x (nextRef w)) as [->|_];
          [contradiction | reflexivity]. }
    rewrite C, I5. lra.
Qed.

Lemma executeDirectBuy_Inv (E : Env) (a : TokenAnalysis) (w : World) :
  Inv w -> Inv (executeDirectBuy E a w).
Proof.
  intros I. unfold executeDirectBuy.
  pose proof (shouldBuy_Frame (now E) a w) as F.
  destruct (Risk.shouldBuy (now E) a w) as ([order|] & w1); simpl in F;
    pose proof (Inv_frame F I) as I1; [|exact I1].
  destruct (negb _); [exact I1|].
  destruct (_ && _); [exact I1|].
  destruct (_ && _); [|exact I1].
  match goal with
  | |- Inv (emit _ (with_state _ (pushPosition ?p _))) =>
    apply (@open_Inv p w1); trivial
  end.
Qed.

Lemma initialWorld_Inv (balance : Q) : Inv (initialWorld balance).
Proof.
  constructor; simpl.
  - constructor.
  - intros r [].
  - intros r B. lia.
  - constructor.
  - unfold Risk.committed. simpl. lra.
Qed.

Lemma step_Inv (w : World) (a : Action) : Inv w -> Inv (step w a).
Proof.
  intros I. destruct a as [E an|E|E|]; simpl.
  - apply executeDirectBuy_Inv. exact I.
  - apply fastCheckParallel_Inv. exact I.
  - apply checkAllPositions_Inv. exact I.
  - apply Inv_frame with w; [|exact I]. apply Frame_state; reflexivity.
Qed.

Lemma run_Inv (acts : list Action) :
  forall w, Inv w -> Inv (run acts w).
Proof.
  unfold run. induction acts as [|a acts IH]; intros w I; simpl.
  - exact I.
  - apply IH. apply step_Inv. exact I.
Qed.

End Engine.

(** ** The ledger identity and the remaining fraction *)

Section Reachable.
Import Config Monitor Bot.

(** [syncCapital] re-establishes the identity of the specification from
    the external balance. *)
Lemma syncCapital_balances (balance : Q) (w : World) :
  books_balance (Risk.syncCapital balance w).
Proof.
  unfold books_balance.
  change (Risk.committed (Risk.syncCapital balance w))
    with (Risk.committed w).
  simpl. reflexivity.
Qed.



Lemma executeDirectBuy_opens (E : Env) (a : TokenAnalysis) (w : World) :
  let w' := executeDirectBuy E a w in
  nextRef w' = nextRef w
  \/ (nextRef w' = S (nextRef w)
      /\ remainingPercent (heap w' (nextRef w)) = 100
      /\ In (nextRef w) (openPositions (state w'))).
Proof.
  unfold executeDirectBuy.
  pose proof (shouldBuy_Frame (now E) a w) as F.
  destruct (Risk.shouldBuy (now E) a w) as ([order|] & w1); simpl in F;
    destruct F as (_ & N & _); [|left; exact N].
  destruct (negb _); [left; exact N|].
  destruct (_ && _); [left; exact N|].
  destruct (_ && _); [|left; exact N].
  right. simpl. rewrite N, Nat.eqb_refl. repeat split.
  apply in_or_app. right. left. reflexivity.
Qed.

(** One callback at a time.  A position enters the open set with
    [remainingPercent = 100].  In every world the engine reaches by
    callbacks that each return before the next starts, every position
    ever opened has its remaining fraction within [[0, 100]], equal to
    100 minus the shares booked by the sell orders issued for it, each of
    which is non-negative: the fraction moves only through exits, and
    only down. *)
Theorem remainingPercent_range :
  (forall (E : Env) (a : TokenAnalysis) (w : World),
     let w' := executeDirectBuy E a w in
     nextRef w' = nextRef w
     \/ (nextRef w' = S (nextRef w)
         /\ remainingPercent (heap w' (nextRef w)) = 100
         /\ In (nextRef w) (openPositions (state w'))))
  /\ forall (acts : list Action) (balance : Q) (r : Ref),
       let w := run acts (initialWorld balance) in
       (r < nextRef w)%nat ->
       0 <= remainingPercent (heap w r) <= 100
       /\ remainingPercent (heap w r) == 100 - sold r (events w)
       /\ Forall (fun e => 0 <= soldBy r e) (events w).
Proof.
  split; [exact executeDirectBuy_opens|].
  intros acts balance r w B.
  pose proof (run_Inv acts (initialWorld_Inv balance)) as I. fold w in I.
  destruct (@inv_range w I r B) as (Rg & So).
  split; [exact Rg|]. split; [exact So|].
  eapply Forall_impl; [|exact (inv_log I)].
  intros [] Lg; simpl in *; try lra.
  destruct (Nat.eqb p r); [tauto | lra].
Qed.

Lemma remainingPercent_range_witness :
  let w := run [Buy (Sample.env 1000 (Some 1) (Sample.filled 0.012))
                  Sample.high;
                SlowTick (Sample.env 100000 (Some 1.25)
                            (Sample.filled 0.012))]
             (initialWorld 0.6) in
  remainingPercent (heap w 0%nat) == 70
  /\ 0 <= remainingPercent (heap w 0%nat) <= 100.
Proof.
  intro w. split; [vm_compute; reflexivity|].
  refine (proj1 (proj2 remainingPercent_range
            [Buy (Sample.env 1000 (Some 1) (Sample.filled 0.012))
               Sample.high;
             SlowTick (Sample.env 100000 (Some 1.25)
                         (Sample.filled 0.012))]
            0.6 0%nat _)).
  vm_compute. lia.
Defined.

End Reachable.

(** ** The pre-entry watchlist *)

Section Watchlist.
Import Config DipBuyer.

Variable S : Type.
Variable onBuySignal : TokenAnalysis -> S -> S.

Lemma dip_value (d H L : Q) :
  0 < H -> L == (1 - d / 100) * H -> (H - L) / H * 100 == d.
Proof.
  intros P ->. field. lra.
Qed.

Lemma rebound_value (rho L p : Q) :
  0 < L -> p == (1 + rho / 100) * L -> (p - L) / L * 100 == rho.
Proof.
  intros P ->. field. lra.
Qed.

Lemma rebound_clears (L c : Q) :
  0 < L -> (1 + 2 / 100) * L <= c -> 2 <= (c - L) / L * 100.
Proof.
  intros P H. rewrite div_100 in H.
  assert (D : 0.02 <= (c - L) / L).
  { apply Qle_shift_div_l; [exact P | lra]. }
  set (t := (c - L) / L) in *. lra.
Qed.

(** First visit: the price has come down by [d] percent from the
    recorded high, [d] between the minimum and the maximum dip. *)
Lemma checkOne_dip (E : DipEnv) (mint : string) (watched : WatchedToken)
  (s : S) (p d : Q) :
  wstate watched = watching ->
  0 < highestPrice watched ->
  (d_now E - addedAt watched <= dipBuyer.maxWatchDuration)%Z ->
  d_fetch E mint = Some p ->
  p == (1 - d / 100) * highestPrice watched ->
  p <= lowestSinceHigh watched ->
  dipBuyer.minDipPercent <= d -> d < dipBuyer.maxDipPercent ->
  let res := checkOne onBuySignal E mint watched s in
  let w1 := fst (fst res) in
  snd (fst res) = true
  /\ snd res = s
  /\ wstate w1 = waiting_rebound
  /\ dipDetected w1 = true
  /\ dipPercent w1 == d
  /\ analysis w1 = analysis watched
  /\ addedAt w1 = addedAt watched
  /\ highestPrice w1 = highestPrice watched
  /\ lowestSinceHigh w1 == p.
Proof.
  unfold dipBuyer.minDipPercent, dipBuyer.maxDipPercent.
  intros St H Ex Fe Hp Lo D5 D35. cbv zeta.
  assert (Pp : 0 < p) by (rewrite Hp, div_100; nra).
  assert (PH : p <= highestPrice watched) by (rewrite Hp, div_100; nra).
  unfold checkOne.
  replace (_ <? _)%Z with false by (symmetry; apply Z.ltb_ge; exact Ex).
  rewrite Fe. unfold truthy, orZero.
  replace (Qeq_bool p 0) with false
    by (symmetry; apply not_true_iff_false; intro Z;
        apply Qeq_bool_iff in Z; lra).
  cbn [negb highestPrice set_reading].
  replace (Qltb (highestPrice watched) p) with false
    by (symmetry; apply Qltb_false; exact PH).
  cbn [lowestSinceHigh set_reading].
  destruct (Qltb p (lowestSinceHigh watched)) eqn:Lt;
    cbn [wstate set_dip set_high_low set_reading dipDetected
         highestPrice lowestSinceHigh]; rewrite St.
  - assert (Hd : dipFromHigh
                   (set_high_low (highestPrice watched) p
                      (set_reading p (d_now E) watched)) == d).
    { unfold dipFromHigh. cbn. apply dip_value; assumption. }
    destruct (Qle_bool dipBuyer.maxDipPercent _) eqn:C1.
    { apply Qle_bool_iff in C1. rewrite Hd in C1.
      unfold dipBuyer.maxDipPercent in C1. lra. }
    destruct (Qle_bool dipBuyer.minDipPercent _) eqn:C2.
    2:{ apply Qle_bool_false in C2. rewrite Hd in C2.
        unfold dipBuyer.minDipPercent in C2. lra. }
    cbn. repeat split; trivial; reflexivity.
  - apply Qltb_false in Lt.
    assert (Le : lowestSinceHigh watched == p) by lra.
    assert (Hd : dipFromHigh (set_reading p (d_now E) watched) == d).
    { unfold dipFromHigh. cbn. apply dip_value; [assumption|].
      rewrite Le. exact Hp. }
    destruct (Qle_bool dipBuyer.maxDipPercent _) eqn:C1.
    { apply Qle_bool_iff in C1. rewrite Hd in C1.
      unfold dipBuyer.maxDipPercent in C1. lra. }
    destruct (Qle_bool dipBuyer.minDipPercent _) eqn:C2.
    2:{ apply Qle_bool_false in C2. rewrite Hd in C2.
        unfold dipBuyer.minDipPercent in C2. lra. }
    cbn. repeat split; trivial; reflexivity.
Qed.

(** A later visit of an entry waiting for the rebound: the price stands
    [rho] percent above the recorded low, [rho] at or above the
    threshold, without passing the recorded high, and the confirmation
    reading clears the threshold too. *)
Lemma checkOne_rebound (E : DipEnv) (mint : string) (x : WatchedToken)
  (s : S) (p c d rho : Q) :
  wstate x = waiting_rebound ->
  0 < highestPrice x ->
  lowestSinceHigh x == (1 - d / 100) * highestPrice x ->
  0 <= d -> d < dipBuyer.maxDipPercent ->
  (d_now E - addedAt x <= dipBuyer.maxWatchDuration)%Z ->
  d_fetch E mint = Some p ->
  p == (1 + rho / 100) * lowestSinceHigh x ->
  dipBuyer.reboundConfirmPercent <= rho ->
  p <= highestPrice x ->
  d_confirm E mint = Some c ->
  (1 + 2 / 100) * lowestSinceHigh x <= c ->
  let res := checkOne onBuySignal E mint x s in
  snd (fst res) = false
  /\ wstate (fst (fst res)) = buy_signal
  /\ snd res = onBuySignal (analysis x) s.
Proof.
  unfold dipBuyer.reboundConfirmPercent, dipBuyer.maxDipPercent.
  intros St H Lo D0 D35 Ex Fe Hp R2 PH Co Hc. cbv zeta.
  assert (PL : 0 < lowestSinceHigh x).
  { rewrite Lo, div_100. nra. }
  assert (Lp : lowestSinceHigh x <= p).
  { rewrite Hp, div_100. nra. }
  assert (Pc : lowestSinceHigh x < c).
  { rewrite div_100 in Hc. lra. }
  unfold checkOne.
  replace (_ <? _)%Z with false by (symmetry; apply Z.ltb_ge; exact Ex).
  rewrite Fe. unfold truthy, orZero.
  replace (Qeq_bool p 0) with false
    by (symmetry; apply not_true_iff_false; intro Z;
        apply Qeq_bool_iff in Z; lra).
  cbn [negb highestPrice set_reading].
  replace (Qltb (highestPrice x) p) with false
    by (symmetry; apply Qltb_false; exact PH).
  cbn [lowestSinceHigh set_reading].
  replace (Qltb p (lowestSinceHigh x)) with false
    by (symmetry; apply Qltb_false; exact Lp).
  cbn [wstate set_dip set_reading]. rewrite St.
  assert (Hd : dipFromHigh (set_reading p (d_now E) x) == d).
  { unfold dipFromHigh. cbn. apply dip_value; assumption. }
  destruct (Qle_bool dipBuyer.maxDipPercent _) eqn:C1.
  { apply Qle_bool_iff in C1. rewrite Hd in C1.
    unfold dipBuyer.maxDipPercent in C1. lra. }
  unfold reboundFromLow. cbn [lowestSinceHigh set_dip set_reading].
  destruct (Qle_bool dipBuyer.reboundConfirmPercent _) eqn:C2.
  2:{ apply Qle_bool_false in C2.
      rewrite (@rebound_value rho) in C2 by assumption.
      unfold dipBuyer.reboundConfirmPercent in C2. lra. }
  rewrite Co.
  replace (Qeq_bool c 0) with false
    by (symmetry; apply not_true_iff_false; intro Z;
        apply Qeq_bool_iff in Z; lra).
  replace (Qle_bool c (lowestSinceHigh x)) with false
    by (symmetry; apply Qle_bool_false; exact Pc).
  cbn [negb orb].
  destruct (Qltb _ dipBuyer.reboundConfirmPercent) eqn:C3.
  { apply Qltb_true in C3.
    pose proof (rebound_clears PL Hc) as Cl.
    unfold dipBuyer.reboundConfirmPercent in C3. lra. }
  cbn. repeat split.
Qed.

(** One visit at a time.  An entry in state [watching] is visited while
    the price stands 6% below its recorded high: the visit leaves it in
    the watchlist in state [waiting_rebound] with the dip recorded (the
    code sets the [dipDetected] flag and moves straight to
    [waiting_rebound]; the state [dip_detected] is never stored).  A later
    visit, run from start to return, finds the price 3% above the
    recorded low and a confirmation reading at least 2% above it: the
    entry goes to [buy_signal], the callback runs once on the entry's
    analysis, and the entry is gone from the watchlist.  Both visits
    happen within the watch duration, as fetching a price requires. *)
Theorem dip_rebound_buy_signal (E1 E2 : DipEnv) (mint : string)
  (watched : WatchedToken) (s : S) (p1 p2 c : Q) :
  wstate watched = watching ->
  0 < highestPrice watched ->
  (d_now E1 - addedAt watched <= dipBuyer.maxWatchDuration)%Z ->
  d_fetch E1 mint = Some p1 ->
  p1 == (1 - 6 / 100) * highestPrice watched ->
  p1 <= lowestSinceHigh watched ->
  (d_now E2 - addedAt watched <= dipBuyer.maxWatchDuration)%Z ->
  d_fetch E2 mint = Some p2 ->
  p2 == (1 + 3 / 100) * p1 ->
  d_confirm E2 mint = Some c ->
  (1 + 2 / 100) * p1 <= c ->
  let r1 := checkOne onBuySignal E1 mint watched s in
  let w1 := fst (fst r1) in
  let r2 := checkOne onBuySignal E2 mint w1 s in
  (snd (fst r1) = true /\ snd r1 = s
   /\ wstate w1 = waiting_rebound /\ dipDetected w1 = true)
  /\ (snd (fst r2) = false
      /\ wstate (fst (fst r2)) = buy_signal
      /\ snd r2 = onBuySignal (analysis watched) s)
  /\ checkWatchlist onBuySignal E2 [(mint, w1)] s
     = ([], onBuySignal (analysis watched) s).
Proof.
  intros St H Ex1 Fe1 Hp1 Lo Ex2 Fe2 Hp2 Co Hc r1 w1 r2.
  destruct (@checkOne_dip E1 mint watched s p1 6 St H Ex1 Fe1 Hp1 Lo)
    as (K1 & S1 & W1 & D1 & _ & A1 & T1 & H1 & L1);
    [unfold dipBuyer.minDipPercent; lra
    | unfold dipBuyer.maxDipPercent; lra |].
  fold r1 in K1, S1. fold r1 w1 in W1, D1, A1, T1, H1, L1.
  assert (R : snd (fst r2) = false
              /\ wstate (fst (fst r2)) = buy_signal
              /\ snd r2 = onBuySignal (analysis w1) s).
  { apply (@checkOne_rebound E2 mint w1 s p2 c 6 3); trivial.
    - rewrite H1. exact H.
    - rewrite H1, L1. exact Hp1.
    - lra.
    - unfold dipBuyer.maxDipPercent. lra.
    - rewrite T1. exact Ex2.
    - rewrite L1. exact Hp2.
    - unfold dipBuyer.reboundConfirmPercent. lra.
    - rewrite H1. rewrite div_100 in Hp1, Hp2. lra.
    - rewrite L1. exact Hc. }
  rewrite A1 in R. split; [tauto|]. split; [exact R|].
  destruct R as (K2 & _ & S2). revert K2 S2. unfold r2. simpl.
  destruct (checkOne onBuySignal E2 mint w1 s) as ((w2 & k2) & s2).
  simpl. intros -> ->. reflexivity.
Qed.

End Watchlist.

Lemma dip_rebound_buy_signal_witness :
  let visit1 := DipBuyer.checkOne (fun _ n => Datatypes.S n)
                  (Sample.dipEnv 1000 (Some 94) None) "MINT"
                  Sample.watched 0%nat in
  let visit2 := DipBuyer.checkOne (fun _ n => Datatypes.S n)
                  (Sample.dipEnv 4000 (Some 96.82) (Some 96.82)) "MINT"
                  (fst (fst visit1)) 0%nat in
  DipBuyer.wstate (fst (fst visit1)) = DipBuyer.waiting_rebound
  /\ DipBuyer.wstate (fst (fst visit2)) = DipBuyer.buy_signal
  /\ snd (fst visit2) = false
  /\ snd visit2 = 1%nat.
Proof.
  intros visit1 visit2.
  assert (Q1 : 0 < DipBuyer.highestPrice Sample.watched)
    by (vm_compute; reflexivity).
  assert (Q2 : 94 == (1 - 6 / 100) * DipBuyer.highestPrice Sample.watched)
    by (vm_compute; reflexivity).
  assert (Q3 : 94 <= DipBuyer.lowestSinceHigh Sample.watched)
    by (vm_compute; discriminate).
  assert (Q4 : 96.82 == (1 + 3 / 100) * 94) by (vm_compute; reflexivity).
  assert (Q5 : (1 + 2 / 100) * 94 <= 96.82) by (vm_compute; discriminate).
  destruct (@dip_rebound_buy_signal nat (fun _ n => Datatypes.S n)
              (Sample.dipEnv 1000 (Some 94) None)
              (Sample.dipEnv 4000 (Some 96.82) (Some 96.82))
              "MINT" Sample.watched 0%nat 94 96.82 96.82
              eq_refl Q1 ltac:(vm_compute; discriminate) eq_refl Q2 Q3
              ltac:(vm_compute; discriminate) eq_refl Q4 eq_refl Q5)
    as ((_ & _ & W1 & _) & (K2 & W2 & S2) & _).
  split; [exact W1|]. split; [exact W2|]. split; [exact K2 | exact S2].
Defined.

(** ** One run at a time, as a schedule *)

(** Carried through without interruption, a run of [Tasks] does what
    the one-transition function of [Monitor] does; [k] is whatever the
    caller goes on with. *)
Section Sequential.
Import Config.

Variable E : Env.











End Sequential.

Section SequentialFast.
Import Config.

Variable E : Env.











End SequentialFast.


Section SequentialDip.
Import Config.

Variable E : Env.



End SequentialDip.

(** ** Overlapping runs of the timer callbacks *)

Section Overlap.
Import Tasks.

(** C7, on the code.  A position bought at price 1 stands at +25%, past
    the first scalp rung (+20%).  The slow check of t = 100 s reaches the
    ladder with [takeProfitStage = 0], sends the order of the rung and
    waits for the executor.  Two seconds later the timer starts the next
    check: the P&L is the same, the index is still 0 because it is only
    written once the awaited sell has returned, and the same rung is
    ordered again.  When the replies are in, the +20% trigger has fired
    twice on the position and 60% of it is sold instead of 30%.  Had the
    first check returned before the second started, the rung would have
    fired once. *)
Lemma overlapping_checks_repeat_rung :
  let buy := Bot.Buy (Sample.env 1000 (Some 1) (Sample.filled 0.012))
               Sample.high in
  let w0 := Bot.run [buy] (Bot.initialWorld 0.6) in
  let at_ t := Sample.env t (Some 1.25) (Sample.filled 0.012) in
  let first :=
    [SlowTick (at_ 100000%Z); Reply 0 (at_ 100300%Z); Reply 0 (at_ 100600%Z)] in
  let second :=
    [SlowTick (at_ 102000%Z); Reply 1 (at_ 102300%Z); Reply 1 (at_ 102600%Z)] in
  let replies :=
    [Reply 0 (at_ 103000%Z); Reply 0 (at_ 103300%Z);
     Reply 1 (at_ 103600%Z); Reply 1 (at_ 103900%Z)] in
  let s1 := run first w0 in
  let s2 := run (first ++ second) w0 in
  let s3 := run (first ++ second ++ replies) w0 in
  let one_by_one :=
    Bot.run [buy; Bot.SlowTick (at_ 100000%Z); Bot.SlowTick (at_ 102000%Z)]
      (Bot.initialWorld 0.6) in
  (pnlPercent (heap (shared s1) 0%nat) == 25
   /\ takeProfitStage (heap (shared s1) 0%nat) = 0%nat
   /\ Forall (sellingRung 0%nat 20) (map (@pending World) (running s1)))
  /\ (pnlPercent (heap (shared s2) 0%nat) == 25
      /\ takeProfitStage (heap (shared s2) 0%nat) = 0%nat
      /\ List.length (running s2) = 2%nat
      /\ Forall (sellingRung 0%nat 20) (map (@pending World) (running s2)))
  /\ (map (@pending World) (running s3) = [None; None]
      /\ pnlPercent (heap (shared s3) 0%nat) == 25
      /\ firings 0%nat 20 (events (shared s3)) = 2%nat
      /\ sellCalls 0%nat (events (shared s3)) = 2%nat
      /\ takeProfitStage (heap (shared s3) 0%nat) = 1%nat
      /\ remainingPercent (heap (shared s3) 0%nat) == 40)
  /\ (firings 0%nat 20 (events one_by_one) = 1%nat
      /\ remainingPercent (heap one_by_one 0%nat) == 70).
Proof.
  vm_compute.
  repeat match goal with
         | |- _ /\ _ => split
         | |- Forall _ _ => constructor
         end; try reflexivity.
Qed.

(** The ladder index is shared by the two ladders.  A scalp at +400%
    has fired both scalp rungs (index 2); the next check, at the same
    price, promotes it to runner and goes on in the runner table from
    index 2: the +300% rung fires, the index moves to 3 and a further
    10% is sold, with the P&L unchanged. *)
Lemma promotion_continues_ladder :
  let buy := Bot.Buy (Sample.env 1000 (Some 1) (Sample.filled 0.012))
               Sample.high in
  let check1 :=
    Bot.SlowTick (Sample.env 100000 (Some 5) (Sample.filled 0.012)) in
  let check2 :=
    Bot.SlowTick (Sample.promoting 102000 (Some 5) (Sample.filled 0.012)) in
  let w1 := Bot.run [buy; check1] (Bot.initialWorld 0.6) in
  let w2 := Bot.run [buy; check1; check2] (Bot.initialWorld 0.6) in
  (isRunner (heap w1 0%nat) = false
   /\ pnlPercent (heap w1 0%nat) == 400
   /\ takeProfitStage (heap w1 0%nat) = 2%nat
   /\ sellCalls 0%nat (events w1) = 2%nat)
  /\ (isRunner (heap w2 0%nat) = true
      /\ pnlPercent (heap w2 0%nat) == 400
      /\ takeProfitStage (heap w2 0%nat) = 3%nat
      /\ sellCalls 0%nat (events w2) = 3%nat
      /\ remainingPercent (heap w2 0%nat) == 30).
Proof.
  vm_compute. repeat split.
Qed.


(** C8, on the code.  The entry is watched from price 100.  A check
    finds the price at 94, 6% under the high: the entry goes to
    [waiting_rebound] with the dip recorded.  The check of t = 4 s finds
    96.82, 3% above the low, sleeps two seconds and asks for the
    confirmation price; the answer takes 1.2 s.  Meanwhile the timer
    starts the check of t = 7 s: the entry is still [waiting_rebound],
    because the state is only written after the sleep and the second
    fetch, so this check too sees the rebound and goes to sleep.  The
    first check then confirms, sets [buy_signal], calls [onBuySignal]
    and deletes the entry; the second wakes up, confirms on its own
    reading, and calls [onBuySignal] again for the same token. *)
Lemma overlapping_dip_checks_signal_twice :
  let px t price := Sample.env t (Some price) Sample.refused in
  let dip := [DipTick (px 1000%Z 94); DipReply 0 (px 1300%Z 94)] in
  let rebound :=
    [DipTick (px 4000%Z 96.82); DipReply 1 (px 4300%Z 96.82);
     DipReply 1 (px 6300%Z 96.82);
     DipTick (px 7000%Z 96.82); DipReply 2 (px 7300%Z 96.82);
     DipReply 1 (px 7500%Z 96.82); DipReply 1 (px 8000%Z 96.82);
     DipReply 2 (px 9300%Z 96.82); DipReply 2 (px 9600%Z 96.82);
     DipReply 2 (px 9900%Z 96.82)] in
  let s1 := dipRun dip Sample.pool in
  let s2 := dipRun (dip ++ rebound) Sample.pool in
  (DipBuyer.addToWatchlist (Sample.dipEnv 0 (Some 100) None)
     Sample.candidate []
   = [("MINT"%string, Sample.entry)])
  /\ (slots (shared s1) = [Some "MINT"%string]
      /\ DipBuyer.wstate (objects (shared s1) 0%nat)
         = DipBuyer.waiting_rebound
      /\ DipBuyer.dipDetected (objects (shared s1) 0%nat) = true
      /\ DipBuyer.dipPercent (objects (shared s1) 0%nat) == 6
      /\ signals (shared s1) = [])
  /\ (map (@pending Pool) (running s2) = [None; None; None]
      /\ slots (shared s2) = [None]
      /\ DipBuyer.wstate (objects (shared s2) 0%nat) = DipBuyer.buy_signal
      /\ signals (shared s2) = [Sample.candidate; Sample.candidate]).
Proof.
  vm_compute. repeat split.
Qed.

End Overlap.

(** ** Under every schedule *)

Section EverySchedule.
Import Config.

Lemma Ages_refl (p : Position) : Ages p p.
Proof.
  unfold Ages. repeat split; trivial; try apply Qle_refl; tauto.
Qed.

Lemma Ages_trans (p q r : Position) : Ages p q -> Ages q r -> Ages p r.
Proof.
  intros (A1 & A2 & A3 & A4 & A5 & A6 & A7 & A8 & A9 & A10)
         (B1 & B2 & B3 & B4 & B5 & B6 & B7 & B8 & B9 & B10).
  unfold Ages.
  split; [congruence|]. split; [congruence|]. split; [congruence|].
  split; [congruence|]. split; [congruence|]. split; [congruence|].
  split; [eapply Qle_trans; eassumption|].
  split; [auto|]. split; [auto|]. auto.
Qed.

Lemma Onward_refl (w : World) : Onward w w.
Proof.
  unfold Onward. split; [reflexivity|]. split; [apply incl_refl|].
  split; [exists []; symmetry; apply app_nil_r|].
  split; [reflexivity|]. intro x. apply Ages_refl.
Qed.

Lemma Onward_trans (w1 w2 w3 : World) :
  Onward w1 w2 -> Onward w2 w3 -> Onward w1 w3.
Proof.
  intros (A1 & A2 & (e1 & A3) & A4 & A5) (B1 & B2 & (e2 & B3) & B4 & B5).
  unfold Onward.
  split; [congruence|].
  split; [eapply incl_tran; eassumption|].
  split; [exists (e1 ++ e2); rewrite B3, A3, app_assoc; reflexivity|].
  split; [congruence|].
  intro x. eapply Ages_trans; [apply A5 | apply B5].
Qed.

Lemma Onward_update (r : Ref) (f : Position -> Position) (w : World) :
  Ages (heap w r) (f (heap w r)) -> Onward w (update r f w).
Proof.
  intro H. unfold Onward. simpl.
  split; [reflexivity|]. split; [apply incl_refl|].
  split; [exists []; symmetry; apply app_nil_r|].
  split; [reflexivity|].
  intro x. destruct (Nat.eqb x r) eqn:X; [|apply Ages_refl].
  apply Nat.eqb_eq in X. subst x. exact H.
Qed.

Lemma Onward_emit (e : Event) (w : World) : Onward w (emit e w).
Proof.
  unfold Onward. simpl.
  split; [reflexivity|]. split; [apply incl_refl|].
  split; [exists [e]; reflexivity|].
  split; [reflexivity|]. intro x. apply Ages_refl.
Qed.

Lemma Onward_timers (f : list (Ref * Z) -> list (Ref * Z)) (w : World) :
  Onward w (with_timers f w).
Proof.
  unfold Onward. simpl.
  split; [reflexivity|]. split; [apply incl_refl|].
  split; [exists []; symmetry; apply app_nil_r|].
  split; [reflexivity|]. intro x. apply Ages_refl.
Qed.

Lemma Onward_state (f : BotState -> BotState) (w : World) :
  incl (openPositions (f (state w))) (openPositions (state w)) ->
  totalCapitalSol (f (state w)) = totalCapitalSol (state w) ->
  Onward w (with_state f w).
Proof.
  intros I T. unfold Onward. simpl.
  split; [reflexivity|]. split; [exact I|].
  split; [exists []; symmetry; apply app_nil_r|].
  split; [exact T|]. intro x. apply Ages_refl.
Qed.

Lemma Fine_after (w w1 : World) (x : World * Tasks.Task World) :
  Onward w w1 -> Fine w1 x -> Fine w x.
Proof.
  intros O (F1 & F2). split; [|exact F2].
  eapply Onward_trans; eassumption.
Qed.

Lemma Fine_await (q : Tasks.Request) (k : Tasks.Cont World) (w : World) :
  Sound k -> Fine w (w, Tasks.Await q k).
Proof.
  intro S. split; [apply Onward_refl|].
  simpl. intros E w'. specialize (S E w'). destruct (k E w'). exact S.
Qed.

Lemma Fine_notify (n : Notification) (k : Tasks.Cont World) (w : World) :
  Sound k -> Fine w (Tasks.notify n k w).
Proof.
  intro S. unfold Tasks.notify.
  apply Fine_after with (emit (Notify n) w); [apply Onward_emit|].
  apply Fine_await. exact S.
Qed.

(** Chains of ledger and store updates. *)
Local Ltac onward :=
  lazymatch goal with
  | |- Onward ?w ?w => apply Onward_refl
  | |- Onward _ (emit _ ?x) =>
    apply Onward_trans with x; [onward | apply Onward_emit]
  | |- Onward _ (with_timers _ ?x) =>
    apply Onward_trans with x; [onward | apply Onward_timers]
  | |- Onward _ (with_state _ ?x) =>
    apply Onward_trans with x;
    [onward | apply Onward_state; [|reflexivity]]
  | |- Onward _ (update _ _ ?x) =>
    apply Onward_trans with x; [onward | apply Onward_update]
  | |- Onward _ (if ?c then _ else _) =>
    let C := fresh "C" in destruct c eqn:C; onward
  end.

Local Ltac ages :=
  unfold Ages; simpl; rewrite ?Nat.eqb_refl; simpl;
  repeat match goal with |- _ /\ _ => split end;
  try reflexivity; try apply Qle_refl; try tauto.

Lemma Fine_partialSell (r : Ref) (pct : Q) (reason : SellReason)
  (k : Tasks.Cont World) (w : World) :
  0 <= pct -> Sound k -> Fine w (Tasks.partialSell r pct reason k w).
Proof.
  intros P S. unfold Tasks.partialSell. cbv zeta.
  apply Fine_await. intros E w1.
  destruct (success _); [|apply Fine_after with (2 := S E _); onward].
  match goal with
  | |- Fine _ (if _ then Tasks.notify _ _ ?y else _) =>
    assert (O : Onward w1 y)
  end.
  { onward; try apply incl_refl.
    ages.
    - intro H. lra.
    - intros (_ & H). split; [|lra].
      destruct (Qle_bool _ 0) eqn:L; [reflexivity|].
      apply Qle_bool_false in L. lra. }
  destruct (Qltb 0 _).
  - apply Fine_after with (1 := O). apply Fine_notify. exact S.
  - apply Fine_after with (1 := O). apply S.
Qed.

Lemma Fine_closePosition (r : Ref) (reason : CloseReason)
  (k : Tasks.Cont World) (w : World) :
  Sound k -> Fine w (Tasks.closePosition r reason k w).
Proof.
  intros S. unfold Tasks.closePosition. cbv zeta.
  apply Fine_await. intros E w1.
  match goal with
  | |- Fine _ (if _ then Tasks.notify _ _ ?y else _) =>
    assert (O : Onward w1 y)
  end.
  { onward; try apply incl_refl.
    - ages; intros; try split; trivial; lra.
    - simpl. apply incl_filter. }
  destruct (Qle_bool 0 _);
    (apply Fine_after with (1 := O); apply Fine_notify; exact S).
Qed.


Lemma Fine_ladderFrom (label : Q -> SellReason) (r : Ref)
  (k : Tasks.Cont World) (rungs : list Rung) :
  Forall (fun sp => 0 <= sellPercent sp) rungs ->
  Sound k ->
  forall (i : nat) (E : Env) (w : World),
    Fine w (Tasks.ladderFrom label rungs i r k E w).
Proof.
  intros P S. induction P as [|sp rest P0 _ IH]; intros i E w; simpl.
  - apply S.
  - destruct (Qle_bool _ _); [|apply IH].
    apply Fine_partialSell.
    + assert (H : 0 <= 100) by lra.
      pose proof (Qmult_le_0_compat _ _ P0 H). lra.
    + intros E1 w1. eapply Fine_after; [|apply IH].
      apply Onward_update. ages.
Qed.

Lemma Fine_takeProfitLoop (label : Q -> SellReason) (table : list Rung)
  (r : Ref) (k : Tasks.Cont World) (E : Env) (w : World) :
  Forall (fun sp => 0 <= sellPercent sp) table ->
  Sound k ->
  Fine w (Tasks.takeProfitLoop label table r k E w).
Proof.
  intros P S. unfold Tasks.takeProfitLoop. cbv zeta.
  apply Fine_ladderFrom; [|exact S].
  rewrite Forall_forall in *. intros sp I. apply P.
  rewrite <- (firstn_skipn (takeProfitStage (heap w r)) table).
  apply in_or_app. right. exact I.
Qed.

Lemma scalp_rungs : Forall (fun sp => 0 <= sellPercent sp)
                      monitor.secureProfits.
Proof. repeat constructor; simpl; lra. Qed.

Lemma runner_rungs : Forall (fun sp => 0 <= sellPercent sp)
                       runner.secureProfits.
Proof. repeat constructor; simpl; lra. Qed.

Lemma Fine_handleScalp (r : Ref) (h : Q) (k : Tasks.Cont World) (E : Env)
  (w : World) :
  Sound k -> Fine w (Tasks.handleScalp r h k E w).
Proof.
  intro S. unfold Tasks.handleScalp. cbv zeta.
  destruct (_ && _); [apply Fine_closePosition; exact S|].
  destruct (_ && _).
  - destruct (Qltb 0 _); [|apply Fine_closePosition; exact S].
    apply Fine_notify. intros E1 w1. apply Fine_closePosition. exact S.
  - apply Fine_takeProfitLoop; [exact scalp_rungs|].
    intros E1 w1. cbv zeta.
    destruct (_ && _); [apply Fine_closePosition; exact S | apply S].
Qed.

Lemma Fine_handleRunner (r : Ref) (h : Q) (k : Tasks.Cont World) (E : Env)
  (w : World) :
  Sound k -> Fine w (Tasks.handleRunner r h k E w).
Proof.
  intro S. unfold Tasks.handleRunner. cbv zeta.
  destruct (_ && _).
  - destruct (Qltb 0 _); [|apply Fine_closePosition; exact S].
    apply Fine_notify. intros E1 w1. apply Fine_closePosition. exact S.
  - apply Fine_takeProfitLoop; [exact runner_rungs|].
    intros E1 w1. cbv zeta.
    destruct (_ && _); [apply Fine_closePosition; exact S | apply S].
Qed.

Lemma Fine_checkPosition (r : Ref) (k : Tasks.Cont World) (w : World) :
  Sound k -> Fine w (Tasks.checkPosition r k w).
Proof.
  intro S. unfold Tasks.checkPosition. cbv zeta.
  apply Fine_await. intros E w1.
  destruct (negb (truthy _)); [apply S|].
  match goal with
  | |- Fine _ (if _ then (?y, _) else _) => assert (O : Onward w1 y)
  end.
  { onward; ages. apply Qlt_le_weak. apply Qltb_true. exact C. }
  assert (H : forall h, Sound (fun E w =>
            if isRunner (heap w r) then Tasks.handleRunner r h k E w
            else Tasks.handleScalp r h k E w)).
  { intros h E1 w2. destruct (isRunner _);
      [apply Fine_handleRunner | apply Fine_handleScalp]; exact S. }
  apply Fine_after with (1 := O).
  destruct (negb (isRunner _) && _); [|apply H].
  apply Fine_await. intros E1 w2.
  destruct (checkIfRunner _ _); [|apply H].
  eapply Fine_after; [|apply H]. apply Onward_update. ages.
Qed.

Lemma Sound_checkEach (l : list Ref) : Sound (Tasks.checkEach l).
Proof.
  induction l as [|r rest IH]; intros E w; simpl.
  - split; [apply Onward_refl | exact I].
  - apply Fine_checkPosition. exact IH.
Qed.

Lemma Sound_checkAllPositions : Sound Tasks.checkAllPositions.
Proof. intros E w. apply Sound_checkEach. Qed.

Lemma Fine_deadVolume (t : Z) (r : Ref) (k : Tasks.Cont World) (E : Env)
  (w : World) :
  Sound k -> Fine w (Tasks.deadVolume t r k E w).
Proof.
  intro S. unfold Tasks.deadVolume. cbv zeta.
  match goal with
  | |- Fine _ (if _ then Tasks.closePosition _ _ _ (with_timers _ ?y)
               else _) =>
    assert (O : Onward w y) by onward
  end.
  assert (C : forall y, Onward w y ->
            Fine w (Tasks.closePosition r dead_volume k
                      (with_timers (Timers.delete r) y))).
  { intros y Oy. eapply Fine_after; [|apply Fine_closePosition; exact S].
    eapply Onward_trans; [exact Oy | apply Onward_timers]. }
  repeat (destruct (_ && _); [apply C; exact O|]).
  destruct (_ <? _)%Z; [apply C; exact O|].
  apply Fine_after with (1 := O). apply S.
Qed.

Lemma Fine_safetyStops (t : Z) (r : Ref) (price : Q)
  (k : Tasks.Cont World) (E : Env) (w : World) :
  Sound k -> Fine w (Tasks.safetyStops t r price k E w).
Proof.
  intro S. unfold Tasks.safetyStops. cbv zeta.
  match goal with
  | |- Fine _ (if _ then Tasks.closePosition _ _ _ ?y else _) =>
    assert (O : Onward w y)
  end.
  { onward; ages. apply Qlt_le_weak. apply Qltb_true. exact C. }
  assert (C : forall reason y, Onward w y ->
            Fine w (Tasks.closePosition r reason k y)).
  { intros reason y Oy.
    eapply Fine_after; [exact Oy | apply Fine_closePosition; exact S]. }
  repeat (destruct (_ && _); [apply C; exact O|]).
  destruct (_ && _); [|apply Fine_after with (1 := O); apply S].
  destruct (Qle_bool 15 _);
    [apply C; exact O | apply Fine_after with (1 := O); apply S].
Qed.

Lemma Sound_fastEach (t : Z) (results : list (Ref * option Q)) :
  Sound (Tasks.fastEach t results).
Proof.
  induction results as [|[r fetched] rest IH]; intros E w; simpl.
  - split; [apply Onward_refl | exact I].
  - destruct (Monitor.is_closed _); [apply IH|].
    destruct (negb _);
      [apply Fine_deadVolume | apply Fine_safetyStops]; exact IH.
Qed.

Lemma Sound_fastCheckParallel : Sound Tasks.fastCheckParallel.
Proof.
  intros E w. unfold Tasks.fastCheckParallel. cbv zeta.
  destruct (Monitor.snapshot w).
  - split; [apply Onward_refl | exact I].
  - apply Fine_await. intros E1 w1. apply Sound_fastEach.
Qed.

(** What the scheduler keeps. *)
Lemma Always_replace (i : nat) (t : Tasks.Task World)
  (l : list (Tasks.Task World)) :
  Always t -> Forall Always l -> Forall Always (Tasks.replace i t l).
Proof.
  intros T F. revert i. induction F as [|x rest X F0 IH]; intro i.
  - destruct i; simpl; constructor.
  - destruct i; simpl; constructor; trivial.
Qed.

Lemma step_Onward (w0 : World) (s : Tasks.Sys World) (i : Tasks.Input) :
  Onward w0 (Tasks.shared s) /\ Forall Always (Tasks.running s) ->
  Onward w0 (Tasks.shared (Tasks.step s i))
  /\ Forall Always (Tasks.running (Tasks.step s i)).
Proof.
  intros (O & F).
  assert (Sp : forall start E, Sound start ->
            Onward w0 (Tasks.shared (Tasks.spawn start E s))
            /\ Forall Always (Tasks.running (Tasks.spawn start E s))).
  { intros start E S. unfold Tasks.spawn.
    destruct (S E (Tasks.shared s)) as (S1 & S2).
    destruct (start E (Tasks.shared s)) as (w1 & t1). simpl in *.
    split; [eapply Onward_trans; eassumption|].
    apply Forall_app. split; [exact F | constructor; [exact S2|constructor]]. }
  destruct i as [E|E|n E]; simpl.
  - apply Sp. exact Sound_checkAllPositions.
  - apply Sp. exact Sound_fastCheckParallel.
  - unfold Tasks.settle.
    destruct (nth_error (Tasks.running s) n) as [[|q k]|] eqn:N;
      [tauto | | tauto].
    apply nth_error_In in N. rewrite Forall_forall in F.
    pose proof (F _ N E (Tasks.shared s)) as A. simpl in A.
    destruct (k E (Tasks.shared s)) as (w1 & t1). destruct A as (A1 & A2).
    simpl. split; [eapply Onward_trans; eassumption|].
    apply Always_replace; [exact A2|].
    rewrite Forall_forall. exact F.
Qed.

Lemma steps_Onward (inputs : list Tasks.Input) :
  forall s : Tasks.Sys World,
    Forall Always (Tasks.running s) ->
    Onward (Tasks.shared s) (Tasks.shared (fold_left Tasks.step inputs s))
    /\ Forall Always (Tasks.running (fold_left Tasks.step inputs s)).
Proof.
  induction inputs as [|i rest IH]; intros s F; simpl.
  - split; [apply Onward_refl | exact F].
  - destruct (@step_Onward (Tasks.shared s) s i) as (O1 & F1);
      [split; [apply Onward_refl | exact F]|].
    destruct (IH _ F1) as (O2 & F2).
    split; [eapply Onward_trans; eassumption | exact F2].
Qed.

Lemma between_instants (before after : list Tasks.Input) (w : World) :
  Onward (Tasks.shared (Tasks.run before w))
    (Tasks.shared (Tasks.run (before ++ after) w)).
Proof.
  unfold Tasks.run. rewrite fold_left_app.
  apply steps_Onward. apply steps_Onward. constructor.
Qed.

(** Between any two instants of any schedule of the two monitor timers
    and their replies, overlapping runs included: no position object is
    allocated or listed anew, [totalCapitalSol] is not written, the log
    only grows, and for every position the entry data stay what they
    were, the high-water mark does not go down, runner mode is not left
    and the fraction does not rise above 100. *)
Theorem monitor_moves_onward (before after : list Tasks.Input) (w : World)
  (x : Ref) :
  let w1 := Tasks.shared (Tasks.run before w) in
  let w2 := Tasks.shared (Tasks.run (before ++ after) w) in
  nextRef w2 = nextRef w1
  /\ incl (openPositions (state w2)) (openPositions (state w1))
  /\ (exists evs, events w2 = events w1 ++ evs)
  /\ totalCapitalSol (state w2) = totalCapitalSol (state w1)
  /\ Ages (heap w1 x) (heap w2 x).
Proof.
  intros w1 w2.
  destruct (between_instants before after w) as (A & B & C & D & F).
  split; [exact A|]. split; [exact B|]. split; [exact C|].
  split; [exact D | apply F].
Qed.

(** A position that is closed with nothing left stays closed with
    nothing left, whatever runs are still in flight and whatever the
    timers start afterwards: no run of the monitor reopens it. *)
Theorem closed_is_final (before after : list Tasks.Input) (w : World)
  (x : Ref) :
  let w1 := Tasks.shared (Tasks.run before w) in
  let w2 := Tasks.shared (Tasks.run (before ++ after) w) in
  status (heap w1 x) = st_closed ->
  remainingPercent (heap w1 x) <= 0 ->
  status (heap w2 x) = st_closed /\ remainingPercent (heap w2 x) <= 0.
Proof.
  intros w1 w2 C R.
  destruct (between_instants before after w) as (_ & _ & _ & _ & F).
  apply (F x). split; assumption.
Qed.

Lemma closed_is_final_witness :
  let w0 :=
    Bot.run [Bot.Buy (Sample.env 1000 (Some 1) (Sample.filled 0.012))
               Sample.high] (Bot.initialWorld 0.6) in
  let at_ t := Sample.env t (Some 0.85) (Sample.filled 0.02) in
  let before :=
    [Tasks.FastTick (at_ 100000%Z); Tasks.SlowTick (at_ 100100%Z);
     Tasks.Reply 0 (at_ 100300%Z); Tasks.Reply 0 (at_ 100600%Z)] in
  let after :=
    [Tasks.Reply 1 (at_ 100700%Z); Tasks.Reply 0 (at_ 100900%Z)] in
  status (heap (Tasks.shared (Tasks.run (before ++ after) w0)) 0%nat)
  = st_closed.
Proof.
  intros w0 at_ before after.
  refine (proj1 (@closed_is_final before after w0 0%nat _ _)).
  - vm_compute. reflexivity.
  - vm_compute. discriminate.
Defined.

End EverySchedule.

(** * Further properties *)

(** ** Gate and sizer *)

Section GateAndSizer.
Import Config Risk.

Lemma openChecks_allowed (now : Z) (s : BotState) :
  (gate (openChecks now s) = Allowed
   <-> (List.length (openPositions s) < risk.maxOpenPositions)%nat
       /\ breached s = false
       /\ 0.005 <= getDeployableCapital s)
  /\ (gate (openChecks now s) = Allowed ->
      after (openChecks now s) = s /\ emitted (openChecks now s) = []).
Proof.
  unfold openChecks, breached.
  destruct (Nat.leb_spec risk.maxOpenPositions
              (List.length (openPositions s))) as [L|L].
  - split; [split|]; [discriminate | lia | discriminate].
  - destruct (Qltb (dailyPnlSol s) 0 && Qle_bool _ _) eqn:B.
    + split; [split|]; try discriminate.
      intros (_ & F & _). discriminate.
    + destruct (Qltb (getDeployableCapital s) 0.005) eqn:D.
      * apply Qltb_true in D.
        split; [split|]; try discriminate.
        intros (_ & _ & G). lra.
      * apply Qltb_false in D. split; [split|]; auto.
Qed.

Lemma gate_needs_capital (now : Z) (s : BotState) :
  gate (canOpenPosition now s) = Allowed -> 0.005 <= getDeployableCapital s.
Proof.
  unfold canOpenPosition. destruct (isPaused s).
  - destruct (pauseRunning now s); [discriminate|].
    intro A. apply (proj1 (openChecks_allowed now _)) in A. apply A.
  - intro A. apply (proj1 (openChecks_allowed now _)) in A. apply A.
Qed.

(** The gate allows exactly when no pause is running, the position cap is
    not reached, the daily-loss breaker does not trip and at least
    0.005 SOL is deployable; an allowing call emits nothing and leaves
    the ledger unpaused. *)
Theorem canOpenPosition_allowed (now : Z) (s : BotState) :
  (gate (canOpenPosition now s) = Allowed
   <-> isPaused s && pauseRunning now s = false
       /\ (List.length (openPositions s) < risk.maxOpenPositions)%nat
       /\ breached s = false
       /\ 0.005 <= getDeployableCapital s)
  /\ (gate (canOpenPosition now s) = Allowed ->
      isPaused (after (canOpenPosition now s)) = false
      /\ emitted (canOpenPosition now s) = []).
Proof.
  unfold canOpenPosition. destruct (isPaused s) eqn:P.
  - destruct (pauseRunning now s) eqn:R; simpl.
    + split; [split|]; try discriminate. intros (F & _). discriminate.
    + destruct (openChecks_allowed now (set_pause false None s))
        as (K1 & K2).
      split.
      * rewrite K1. unfold breached. simpl. tauto.
      * intros A. destruct (K2 A) as (-> & ->). split; reflexivity.
  - destruct (openChecks_allowed now s) as (K1 & K2). simpl. split.
    + rewrite K1. tauto.
    + intros A. destruct (K2 A) as (-> & ->). split; [exact P | reflexivity].
Qed.

(** The two dynamic adjustments amount to one factor between 0.5 and
    1.1 that does not depend on the opportunity. *)
Lemma adjustedSize_factor (s : BotState) :
  exists k : Q,
    0.5 <= k /\ k <= 1.1
    /\ (dailyPnlSol s <= 0 -> k <= 1)
    /\ (0 <= dailyPnlSol s -> 1 <= k)
    /\ forall a, adjustedSize a s
                 == getDeployableCapital s * tierPercent (score a) * k.
Proof.
  unfold adjustedSize, tierPercent.
  destruct (Qltb (dailyPnlSol s) 0) eqn:N.
  - apply Qltb_true in N.
    replace (Qltb 0 (dailyPnlSol s)) with false
      by (symmetry; apply Qltb_false; lra).
    simpl.
    exists (Qmax 0.5 (1 - Qabs (dailyPnlSol s) / risk.initialCapital)).
    assert (A : 0 <= Qabs (dailyPnlSol s) / risk.initialCapital).
    { apply Qle_shift_div_l; [reflexivity|].
      pose proof (Qabs_nonneg (dailyPnlSol s)). lra. }
    set (x := Qabs (dailyPnlSol s) / risk.initialCapital) in *.
    destruct (Q.max_spec 0.5 (1 - x)) as [(M1 & M2) | (M1 & M2)];
      (split; [lra|]; split; [lra|]; split; [intro; lra|];
       split; [intro; lra|]; intro a; reflexivity).
  - apply Qltb_false in N.
    destruct (Qltb 0 (dailyPnlSol s) && (2 <? dailyWinCount s)%Z) eqn:G.
    + apply andb_true_iff in G. destruct G as (G & _).
      apply Qltb_true in G.
      destruct (Qltb 0.6 _).
      * exists 1.1. split; [lra|]. split; [lra|]. split; [intro; lra|].
        split; [intro; lra|]. intro a. reflexivity.
      * exists 1. split; [lra|]. split; [lra|]. split; [intro; lra|].
        split; [intro; lra|]. intro a. lra.
    + exists 1. split; [lra|]. split; [lra|]. split; [intro; lra|].
      split; [intro; lra|]. intro a. lra.
Qed.

Lemma tierPercent_monotone (x y : Z) :
  (x <= y)%Z -> tierPercent x <= tierPercent y.
Proof.
  intros L. unfold tierPercent, risk.positionSizes_high,
    risk.positionSizes_medium, risk.positionSizes_low.
  destruct (Z.leb_spec 60 x), (Z.leb_spec 60 y),
    (Z.leb_spec 50 x), (Z.leb_spec 50 y); try lia; lra.
Qed.

Lemma tierPercent_range (x : Z) : 0.025 <= tierPercent x <= 0.06.
Proof.
  unfold tierPercent, risk.positionSizes_high, risk.positionSizes_medium,
    risk.positionSizes_low.
  destruct (60 <=? x)%Z; [lra|]. destruct (50 <=? x)%Z; lra.
Qed.

Lemma getDeployableCapital_nonneg (s : BotState) :
  0 <= getDeployableCapital s.
Proof. apply Q.le_max_l. Qed.

(** The size before floor and cap stays between half and 110% of the
    tier's share of deployable capital: a losing day shrinks it, by half
    at most, and a winning day never shrinks it. *)
Theorem adjustedSize_band (a : TokenAnalysis) (s : BotState) :
  let base := getDeployableCapital s * tierPercent (score a) in
  base * 0.5 <= adjustedSize a s <= base * 1.1
  /\ (dailyPnlSol s <= 0 -> adjustedSize a s <= base)
  /\ (0 <= dailyPnlSol s -> base <= adjustedSize a s).
Proof.
  intro base.
  destruct (adjustedSize_factor s) as (k & K1 & K2 & K3 & K4 & E).
  assert (B : 0 <= base).
  { unfold base. apply Qmult_le_0_compat.
    - apply getDeployableCapital_nonneg.
    - pose proof (tierPercent_range (score a)). lra. }
  rewrite (E a). fold base. repeat split.
  - nra.
  - nra.
  - intros H. specialize (K3 H). nra.
  - intros H. specialize (K4 H). nra.
Qed.

(** A better score never gets a smaller position. *)
Theorem calculatePositionSize_monotone (a b : TokenAnalysis) (s : BotState) :
  (score a <= score b)%Z ->
  calculatePositionSize a s <= calculatePositionSize b s.
Proof.
  intros L. unfold calculatePositionSize.
  destruct (adjustedSize_factor s) as (k & K1 & _ & _ & _ & E).
  assert (M : adjustedSize a s <= adjustedSize b s).
  { rewrite (E a), (E b).
    pose proof (getDeployableCapital_nonneg s) as D.
    pose proof (tierPercent_monotone L) as T.
    apply Qmult_le_compat_r; [|lra].
    rewrite !(Qmult_comm (getDeployableCapital s)).
    apply Qmult_le_compat_r; assumption. }
  apply Q.min_le_compat_l. apply Q.max_le_compat_l. exact M.
Qed.

Lemma calculatePositionSize_monotone_witness :
  calculatePositionSize
    {| token := Sample.tok; score := 45; confidence := c_low |}
    (Sample.ledger 0.56 0 0 false None)
  <= calculatePositionSize Sample.high (Sample.ledger 0.56 0 0 false None).
Proof.
  apply calculatePositionSize_monotone. simpl. lia.
Defined.

End GateAndSizer.

(** ** Orders and buys *)

Section Orders.
Import Config Risk Bot.

Lemma canOpenPosition_deployable (now : Z) (s : BotState) :
  getDeployableCapital (after (canOpenPosition now s))
  = getDeployableCapital s.
Proof.
  destruct (canOpenPosition_books now s) as (_ & A & _).
  unfold getDeployableCapital. rewrite A. reflexivity.
Qed.

(** An order is issued only for an actionable verdict, with the gate
    open and no position held on the same mint; its amount is the
    computed size, strictly positive and at most 15% of deployable
    capital. *)
Theorem shouldBuy_order (now : Z) (a : TokenAnalysis) (w w' : World)
  (o : TradeOrder) :
  shouldBuy now a w = (Some o, w') ->
  confidence a <> c_ignore /\ confidence a <> c_watch
  /\ gate (canOpenPosition now (state w)) = Allowed
  /\ alreadyOwned (t_mintAddress (token a)) w' = false
  /\ o_mintAddress o = t_mintAddress (token a)
  /\ amountSol o = calculatePositionSize a (state w')
  /\ 0 < amountSol o
  /\ amountSol o <= 0.15 * getDeployableCapital (state w)
  /\ Frame w w'.
Proof.
  intros H.
  pose proof (shouldBuy_Frame now a w) as F. rewrite H in F. simpl in F.
  pose proof (canOpenPosition_deployable now (state w)) as D.
  pose proof (@gate_needs_capital now (state w)) as A.
  unfold shouldBuy in H.
  destruct (canOpenPosition now (state w)) as ((g & s') & evs).
  unfold gate, after in *. simpl in *.
  assert (G : confidence a <> c_ignore /\ confidence a <> c_watch
              /\ g = Allowed
              /\ alreadyOwned (t_mintAddress (token a)) w' = false
              /\ o_mintAddress o = t_mintAddress (token a)
              /\ amountSol o = calculatePositionSize a (state w')
              /\ state w' = s').
  { destruct (confidence a); try discriminate;
      (destruct g; [|discriminate];
       match type of H with
       | (if ?c then _ else _) = _ => destruct c eqn:O; [discriminate|]
       end;
       injection H as <- <-; simpl;
       repeat split; try discriminate; exact O). }
  destruct G as (G1 & G2 & -> & G4 & G5 & G6 & G7).
  do 6 (split; [assumption || reflexivity|]).
  split; [|split; [|exact F]].
  - rewrite G6, G7. unfold calculatePositionSize. rewrite D.
    pose proof (A eq_refl) as D5.
    pose proof (Q.le_max_l 0.003 (adjustedSize a s')) as M.
    destruct (Q.min_spec (getDeployableCapital (state w) * 0.15)
                (Qmax 0.003 (adjustedSize a s'))) as [(_ & ->)|(_ & ->)];
      lra.
  - rewrite G6, G7. unfold calculatePositionSize. rewrite D.
    pose proof (Q.le_min_l (getDeployableCapital (state w) * 0.15)
                  (Qmax 0.003 (adjustedSize a s'))). lra.
Qed.

Lemma shouldBuy_order_witness :
  exists o w',
    shouldBuy 1000 Sample.high (initialWorld 0.6) = (Some o, w')
    /\ 0 < amountSol o.
Proof.
  eexists. eexists. split; [reflexivity|].
  refine (proj1 (proj2 (proj2 (proj2 (proj2 (proj2 (proj2
            (@shouldBuy_order 1000 Sample.high (initialWorld 0.6) _ _
               eq_refl)))))))).
Defined.

End Orders.

(** ** Trailing bands and runner promotion *)

Section Bands.
Import Config Monitor.

Lemma getScalpTrail_cases (pnl : Q) :
  (50 <= pnl /\ getScalpTrail pnl = 0.06)
  \/ (30 <= pnl /\ pnl < 50 /\ getScalpTrail pnl = 0.07)
  \/ (15 <= pnl /\ pnl < 30 /\ getScalpTrail pnl = 0.08)
  \/ (pnl < 15 /\ getScalpTrail pnl = 0.10).
Proof.
  unfold getScalpTrail, getTrail. simpl.
  destruct (Qle_bool 50 pnl) eqn:A;
    [apply Qle_bool_iff in A; left; tauto | apply Qle_bool_false in A].
  destruct (Qle_bool 30 pnl) eqn:B;
    [apply Qle_bool_iff in B; right; left; tauto
    | apply Qle_bool_false in B].
  destruct (Qle_bool 15 pnl) eqn:C;
    [apply Qle_bool_iff in C; right; right; left; tauto
    | apply Qle_bool_false in C].
  right. right. right. split; [exact C|].
  destruct (Qle_bool 0 pnl); reflexivity.
Qed.

Lemma getRunnerTrail_cases (pnl : Q) :
  (300 <= pnl /\ getRunnerTrail pnl = 0.10)
  \/ (150 <= pnl /\ pnl < 300 /\ getRunnerTrail pnl = 0.12)
  \/ (80 <= pnl /\ pnl < 150 /\ getRunnerTrail pnl = 0.15)
  \/ (30 <= pnl /\ pnl < 80 /\ getRunnerTrail pnl = 0.18)
  \/ (pnl < 30 /\ getRunnerTrail pnl = 0.20).
Proof.
  unfold getRunnerTrail, getTrail. simpl.
  destruct (Qle_bool 300 pnl) eqn:A;
    [apply Qle_bool_iff in A; left; tauto | apply Qle_bool_false in A].
  destruct (Qle_bool 150 pnl) eqn:B;
    [apply Qle_bool_iff in B; right; left; tauto
    | apply Qle_bool_false in B].
  destruct (Qle_bool 80 pnl) eqn:C;
    [apply Qle_bool_iff in C; right; right; left; tauto
    | apply Qle_bool_false in C].
  destruct (Qle_bool 30 pnl) eqn:D;
    [apply Qle_bool_iff in D; right; right; right; left; tauto
    | apply Qle_bool_false in D].
  right. right. right. right. split; [exact D|].
  destruct (Qle_bool 0 pnl); reflexivity.
Qed.

(** Both trailing bands tighten as the peak P&L grows and never widen
    again; the scalp band stays between 6% and 10%, the runner band
    between 10% and 20%, and at every peak the runner band is at least
    as wide as the scalp band.  A peak below the first level, negative
    ones included, gets the widest band. *)
Theorem trailing_bands (pnl pnl' : Q) :
  pnl <= pnl' ->
  getScalpTrail pnl' <= getScalpTrail pnl
  /\ getRunnerTrail pnl' <= getRunnerTrail pnl
  /\ 0.06 <= getScalpTrail pnl <= 0.10
  /\ 0.10 <= getRunnerTrail pnl <= 0.20
  /\ getScalpTrail pnl <= getRunnerTrail pnl
  /\ (pnl < 15 -> getScalpTrail pnl = 0.10)
  /\ (pnl < 30 -> getRunnerTrail pnl = 0.20).
Proof.
  intro L.
  destruct (getScalpTrail_cases pnl)
    as [(A1 & A)|[(A1 & A2 & A)|[(A1 & A2 & A)|(A1 & A)]]];
  destruct (getScalpTrail_cases pnl')
    as [(B1 & B)|[(B1 & B2 & B)|[(B1 & B2 & B)|(B1 & B)]]];
  destruct (getRunnerTrail_cases pnl)
    as [(C1 & C)|[(C1 & C2 & C)|[(C1 & C2 & C)|[(C1 & C2 & C)|(C1 & C)]]]];
  destruct (getRunnerTrail_cases pnl')
    as [(D1 & D)|[(D1 & D2 & D)|[(D1 & D2 & D)|[(D1 & D2 & D)|(D1 & D)]]]];
  rewrite A, B, C, D;
  try (exfalso; lra);
  (split; [lra|]); (split; [lra|]); (split; [lra|]); (split; [lra|]);
  (split; [lra|]); split; intro; try reflexivity; exfalso; lra.
Qed.

Lemma trailing_bands_witness :
  getScalpTrail 60 <= getScalpTrail 20
  /\ getRunnerTrail 60 <= getRunnerTrail 20.
Proof.
  destruct (@trailing_bands 20 60) as (A & B & _).
  - vm_compute. discriminate.
  - split; assumption.
Defined.

End Bands.

Section Promotion.
Import RunnerDetect.

(** A position is promoted only on an answer that carries a pair, and
    only when at least two of the three flow signals (volume spike, buy
    share of 55%, rising price) are present, the fourth signal being a
    market cap under 200k; all four signals always promote.  An answer
    without market cap and without fdv counts the cap signal as
    present. *)
Theorem checkIfRunner_quorum (resp : option PairData) :
  (checkIfRunner resp = true ->
   exists data spike buying rising small,
     resp = Some data
     /\ signalList data = [spike; buying; rising; small]
     /\ (spike && buying || spike && rising || buying && rising) = true)
  /\ (forall data,
        resp = Some data ->
        signalList data = [true; true; true; true] ->
        checkIfRunner resp = true)
  /\ (forall data,
        resp = Some data ->
        truthy (pd_marketCap data) = false ->
        truthy (pd_fdv data) = false ->
        nth 3 (signalList data) false = true).
Proof.
  split; [|split].
  - destruct resp as [data|]; [|discriminate].
    unfold checkIfRunner, signals.
    destruct (signalList data) as [|a [|b [|c [|d [|e l]]]]] eqn:S;
      try (unfold signalList in S; discriminate).
    intro H. exists data, a, b, c, d.
    split; [reflexivity|]. split; [exact S|].
    destruct a, b, c, d; simpl in H; try discriminate; reflexivity.
  - intros data -> S. unfold checkIfRunner, signals. rewrite S. reflexivity.
  - intros data _ M F. unfold signalList, firstTruthy. rewrite M, F.
    reflexivity.
Qed.

Lemma checkIfRunner_quorum_witness :
  let data :=
    {| pd_marketCap := Some 90000; pd_fdv := None;
       pd_volume_m5 := Some 30; pd_volume_h1 := Some 120;
       pd_buys := Some 40; pd_sells := Some 60;
       pd_priceChange_m5 := Some 4 |} in
  checkIfRunner (Some data) = true
  /\ exists spike buying rising small,
       signalList data = [spike; buying; rising; small]
       /\ (spike && buying || spike && rising || buying && rising) = true.
Proof.
  intro data. split; [vm_compute; reflexivity|].
  destruct (proj1 (checkIfRunner_quorum (Some data)))
    as (d & a & b & c & e & R & S & Q); [vm_compute; reflexivity|].
  injection R as <-. exists a, b, c, e. split; assumption.
Defined.

End Promotion.

(** ** Intake *)

Section Intake.
Import Pipeline.

Lemma seen_In (mint : string) (l : list string) :
  seen mint l = true <-> In mint l.
Proof.
  unfold seen. rewrite existsb_exists. split.
  - intros (x & I & Eq). apply String.eqb_eq in Eq. subst x. exact I.
  - intro I. exists mint. split; [exact I | apply String.eqb_refl].
Qed.

Lemma forget_absent (t : string) (l : list string) :
  ~ In t l -> forget t l = l.
Proof.
  intro N. unfold forget. induction l as [|x rest IH]; simpl; [reflexivity|].
  destruct (String.eqb x t) eqn:Eq; simpl.
  - apply String.eqb_eq in Eq. subst x. exfalso. apply N. left. reflexivity.
  - f_equal. apply IH. intro I. apply N. right. exact I.
Qed.

Lemma forget_head (t : string) (l : list string) :
  ~ In t l -> forget t (t :: l) = l.
Proof.
  intro N. unfold forget. simpl. rewrite String.eqb_refl. simpl.
  apply forget_absent. exact N.
Qed.

Lemma forget_prefix (a b : list string) :
  NoDup (a ++ b) -> fold_left (fun s t => forget t s) a (a ++ b) = b.
Proof.
  induction a as [|x a' IH]; intro N; cbn [fold_left app]; [reflexivity|].
  inversion N as [|y l Nx Nl]; subst.
  rewrite forget_head by exact Nx. apply IH. exact Nl.
Qed.

(** A mint already seen is dropped and nothing changes; a new one is
    queued once and remembered.  The set of seen mints never holds more
    than 10000 entries: the insertion that would make it 10001 forgets
    the 5000 oldest, which may then be detected again. *)
Theorem onTokenDetected_dedup (token : DetectedToken) (q : Intake) :
  NoDup (seenTokens q) ->
  (Z.of_nat (List.length (seenTokens q)) <= 10000)%Z ->
  let q' := onTokenDetected token q in
  NoDup (seenTokens q')
  /\ (Z.of_nat (List.length (seenTokens q')) <= 10000)%Z
  /\ In (t_mintAddress token) (seenTokens q')
  /\ (In (t_mintAddress token) (seenTokens q) -> q' = q)
  /\ (~ In (t_mintAddress token) (seenTokens q) ->
      tokenQueue q' = tokenQueue q ++ [token]
      /\ ((Z.of_nat (List.length (seenTokens q)) < 10000)%Z ->
          seenTokens q' = seenTokens q ++ [t_mintAddress token])
      /\ (Z.of_nat (List.length (seenTokens q)) = 10000%Z ->
          seenTokens q'
          = skipn (Z.to_nat 5000) (seenTokens q) ++ [t_mintAddress token]))
  /\ onTokenDetected token q' = q'.
Proof.
  intros N L q'.
  assert (Core : NoDup (seenTokens q')
                 /\ (Z.of_nat (List.length (seenTokens q')) <= 10000)%Z
                 /\ In (t_mintAddress token) (seenTokens q')
                 /\ (In (t_mintAddress token) (seenTokens q) -> q' = q)
                 /\ (~ In (t_mintAddress token) (seenTokens q) ->
                     tokenQueue q' = tokenQueue q ++ [token]
                     /\ ((Z.of_nat (List.length (seenTokens q)) < 10000)%Z ->
                         seenTokens q'
                         = seenTokens q ++ [t_mintAddress token])
                     /\ (Z.of_nat (List.length (seenTokens q)) = 10000%Z ->
                         seenTokens q'
                         = skipn (Z.to_nat 5000) (seenTokens q)
                           ++ [t_mintAddress token]))).
  { unfold q', onTokenDetected.
    destruct (seen _ _) eqn:Sn.
    - apply seen_In in Sn.
      split; [exact N|]. split; [exact L|]. split; [exact Sn|].
      split; [reflexivity|]. intro A. contradiction.
    - assert (A : ~ In (t_mintAddress token) (seenTokens q)).
      { intro I. apply seen_In in I. congruence. }
      assert (N1 : NoDup (seenTokens q ++ [t_mintAddress token])).
      { apply NoDup_app; [exact N | constructor; [intros [] | constructor] |].
        intros x I [<-|[]]. exact (A I). }
      cbv zeta. rewrite length_app. cbn [List.length].
      destruct (Z.ltb_spec 10000
                  (Z.of_nat (List.length (seenTokens q) + 1))) as [G|G].
      + assert (Len : Z.of_nat (List.length (seenTokens q)) = 10000%Z) by lia.
        assert (Sp : seenTokens q ++ [t_mintAddress token]
                     = firstn (Z.to_nat 5000) (seenTokens q)
                       ++ (skipn (Z.to_nat 5000) (seenTokens q)
                           ++ [t_mintAddress token])).
        { rewrite app_assoc, firstn_skipn. reflexivity. }
        assert (F : firstn (Z.to_nat 5000)
                      (seenTokens q ++ [t_mintAddress token])
                    = firstn (Z.to_nat 5000) (seenTokens q)).
        { rewrite firstn_app.
          replace (Z.to_nat 5000 - List.length (seenTokens q))%nat
            with 0%nat by lia.
          simpl. apply app_nil_r. }
        assert (R : fold_left (fun s t => forget t s)
                      (firstn (Z.to_nat 5000)
                         (seenTokens q ++ [t_mintAddress token]))
                      (seenTokens q ++ [t_mintAddress token])
                    = skipn (Z.to_nat 5000) (seenTokens q)
                      ++ [t_mintAddress token]).
        { rewrite F. rewrite Sp at 1. apply forget_prefix.
          rewrite <- Sp. exact N1. }
        rewrite !R. cbn [seenTokens tokenQueue].
        split; [rewrite Sp in N1; apply NoDup_app_remove_l in N1;
                exact N1|].
        split; [rewrite length_app, length_skipn; cbn [List.length]; lia|].
        split; [apply in_or_app; right; left; reflexivity|].
        split; [intro I; contradiction|].
        intros _. split; [reflexivity|]. split; [lia | reflexivity].
      + cbn [seenTokens tokenQueue]. split; [exact N1|].
        split; [rewrite length_app; cbn [List.length]; lia|].
        split; [apply in_or_app; right; left; reflexivity|].
        split; [intro I; contradiction|].
        intros _. split; [reflexivity|]. split; [reflexivity | lia]. }
  destruct Core as (C1 & C2 & C3 & C4 & C5).
  do 5 (split; [assumption|]).
  unfold onTokenDetected at 1.
  apply seen_In in C3. rewrite C3. reflexivity.
Qed.

Lemma onTokenDetected_dedup_witness :
  let q := {| seenTokens := ["A"%string]; tokenQueue := [] |} in
  tokenQueue (onTokenDetected Sample.tok (onTokenDetected Sample.tok q))
  = [Sample.tok].
Proof.
  intro q.
  assert (N : NoDup (seenTokens q))
    by (constructor; [intros [] | constructor]).
  assert (L : (Z.of_nat (List.length (seenTokens q)) <= 10000)%Z)
    by (simpl; lia).
  destruct (@onTokenDetected_dedup Sample.tok q N L)
    as (_ & _ & _ & _ & _ & I).
  rewrite I. reflexivity.
Defined.

End Intake.

(** ** Watchlisted tokens *)

Section Watchlisted.
Import Config DipBuyer.

Lemma executeDirectBuy_unrated (E : Env) (a : TokenAnalysis) (w : World) :
  confidence a = c_watch \/ confidence a = c_ignore ->
  Bot.executeDirectBuy E a w = w.
Proof.
  intros [C|C]; unfold Bot.executeDirectBuy, Risk.shouldBuy; rewrite C;
    reflexivity.
Qed.

Section Visit.
Variable S : Type.
Variable onBuySignal : TokenAnalysis -> S -> S.

Lemma checkOne_analysis (E : DipEnv) (mint : string) (x : WatchedToken)
  (s : S) :
  analysis (fst (fst (checkOne onBuySignal E mint x s))) = analysis x.
Proof.
  unfold checkOne. cbv zeta.
  repeat match goal with
         | |- context [if ?c then _ else _] => destruct c
         | |- context [match wstate ?y with _ => _ end] =>
           destruct (wstate y)
         end; reflexivity.
Qed.

Lemma checkOne_callback (E : DipEnv) (mint : string) (x : WatchedToken)
  (s : S) :
  snd (checkOne onBuySignal E mint x s) = s
  \/ snd (checkOne onBuySignal E mint x s) = onBuySignal (analysis x) s.
Proof.
  unfold checkOne. cbv zeta.
  repeat match goal with
         | |- context [if ?c then _ else _] => destruct c
         | |- context [match wstate ?y with _ => _ end] =>
           destruct (wstate y)
         end; simpl; auto.
Qed.

Lemma checkWatchlist_allWatch (E : DipEnv) (wl : Watchlist) :
  (forall a s, confidence a = c_watch -> onBuySignal a s = s) ->
  allWatch wl ->
  forall s : S,
    allWatch (fst (checkWatchlist onBuySignal E wl s))
    /\ snd (checkWatchlist onBuySignal E wl s) = s.
Proof.
  intros Cb A. induction A as [|[mint x] rest Hx _ IH]; intro s; simpl.
  - split; [constructor | reflexivity].
  - pose proof (checkOne_analysis E mint x s) as An.
    pose proof (checkOne_callback E mint x s) as Ca.
    destruct (checkOne onBuySignal E mint x s) as ((x' & keep) & s').
    simpl in An, Ca, Hx.
    assert (Es : s' = s).
    { destruct Ca as [->| ->]; [reflexivity | apply Cb; exact Hx]. }
    subst s'. destruct (IH s) as (A1 & A2).
    destruct (checkWatchlist onBuySignal E rest s) as (rest' & s'').
    simpl in *. split; [|exact A2].
    destruct keep; simpl; [|exact A1].
    constructor; [simpl; rewrite An; exact Hx | exact A1].
Qed.

End Visit.

Lemma addToWatchlist_allWatch (D : DipEnv) (a : TokenAnalysis)
  (wl : Watchlist) :
  confidence a = c_watch -> allWatch wl -> allWatch (addToWatchlist D a wl).
Proof.
  intros C A. unfold addToWatchlist. cbv zeta.
  destruct (has _ wl); [exact A|].
  assert (B : allWatch
                (if (dipBuyer.maxWatchlistSize <=? List.length wl)%nat
                 then match oldest wl None with
                      | Some k =>
                        filter (fun kv => negb (String.eqb (fst kv) k)) wl
                      | None => wl
                      end
                 else wl)).
  { destruct (_ <=? _)%nat; [|exact A].
    destruct (oldest wl None); [|exact A].
    unfold allWatch in *. rewrite Forall_forall in *.
    intros kv I. apply filter_In in I. apply A. tauto. }
  destruct (negb _); [exact B|].
  unfold allWatch in *. apply Forall_app. split; [exact B|].
  constructor; [exact C | constructor].
Qed.

Lemma feed_allWatch (i : Pipeline.Input) (sys : World * Watchlist) :
  allWatch (snd sys) -> allWatch (snd (Pipeline.feed sys i)).
Proof.
  intro A. destruct i as [E D a|E D|act]; simpl.
  - unfold Pipeline.processToken.
    destruct (confidence a) eqn:C; simpl; trivial.
    apply addToWatchlist_allWatch; assumption.
  - unfold Pipeline.dipTick.
    pose proof (@checkWatchlist_allWatch World (Bot.executeDirectBuy E) D
                  (snd sys)
                  (fun a s C => executeDirectBuy_unrated E a s (or_introl C))
                  A (fst sys)) as (H & _).
    destruct (checkWatchlist _ D (snd sys) (fst sys)). exact H.
  - exact A.
Qed.

(** Only tokens rated [watch] are put on the watchlist, and [shouldBuy]
    refuses that rating before any other check: whatever tokens were
    analysed, every entry of the watchlist is rated [watch], and a tick
    of the dip buyer, buy signals included, leaves ledger, positions and
    log as it finds them. *)
Theorem watchlisted_never_bought (inputs : list Pipeline.Input)
  (w w' : World) (E : Env) (D : DipEnv) :
  let wl := snd (Pipeline.runAll inputs (w, [])) in
  allWatch wl /\ fst (Pipeline.dipTick E D (w', wl)) = w'.
Proof.
  intro wl.
  assert (A : allWatch wl).
  { unfold wl, Pipeline.runAll.
    assert (G : forall s0, allWatch (snd s0) ->
              allWatch (snd (fold_left Pipeline.feed inputs s0))).
    { induction inputs as [|i rest IH]; intros s0 H; simpl; [exact H|].
      apply IH. apply feed_allWatch. exact H. }
    apply G. constructor. }
  split; [exact A|].
  unfold Pipeline.dipTick. cbn [fst snd].
  pose proof (@checkWatchlist_allWatch World (Bot.executeDirectBuy E) D wl
                (fun a s C => executeDirectBuy_unrated E a s (or_introl C))
                A w') as (_ & H).
  destruct (checkWatchlist _ D wl w'). exact H.
Qed.

End Watchlisted.

(** ** The decisions of the fast loop *)

Section FastRules.
Import Config Monitor.

Local Ltac reflect :=
  repeat match goal with
         | H : Qle_bool _ _ = true |- _ => apply Qle_bool_iff in H
         | H : Qle_bool _ _ = false |- _ => apply Qle_bool_false in H
         | H : Qltb _ _ = true |- _ => apply Qltb_true in H
         | H : Qltb _ _ = false |- _ => apply Qltb_false in H
         | H : (_ <? _)%Z = true |- _ => apply Z.ltb_lt in H
         | H : (_ <? _)%Z = false |- _ => apply Z.ltb_ge in H
         end.

Local Ltac closing S :=
  let H := fresh "H" in
  cbn [pending snd];
  split; [split; [intro; exact S | intro; split; reflexivity]|];
  split; [intros (_ & H); discriminate|];
  split; [intro H; discriminate | intro H; exfalso; exact (H S)].

Local Ltac resting S :=
  let H := fresh "H" in
  cbn [pending snd];
  split; [split; [intros [] | intro H; exact (S H)]|];
  split; [intros []|];
  split; [intro; exact S | reflexivity].

(** With a price at hand, the fast loop sends a close order for a
    position outside runner mode exactly when it is under -4% in its
    first 30 s, under -7% in its first 60 s or under -12%, always for
    the reason [stop_loss], never [trailing_stop]; for a runner exactly
    when it is at +2% or less after a peak of +15% or more, for the
    reason [trailing_stop].  Otherwise it sends nothing. *)
Theorem fast_loop_stop_rule (t : Z) (r : Ref) (price : Q) (E : Env)
  (w : World) :
  let p := heap w r in
  let pnl := pnlOf p price in
  let age := (t - entryTime p)%Z in
  let peak :=
    if Qltb (highestPriceSol p) price then price else highestPriceSol p in
  let x := Tasks.safetyStops t r price halt E w in
  (isRunner p = false ->
   (ordersClose r stop_loss x <-> scalpStop age pnl)
   /\ ~ ordersClose r trailing_stop x
   /\ (idle x <-> ~ scalpStop age pnl))
  /\ (isRunner p = true ->
      (ordersClose r trailing_stop x <-> pnl <= 2 /\ 15 <= pnlOf p peak)
      /\ ~ ordersClose r stop_loss x
      /\ (idle x <-> ~ (pnl <= 2 /\ 15 <= pnlOf p peak))).
Proof.
  intros p pnl age peak x.
  assert (H0 : forall a, heap (if Timers.has r (deadVolumeTimers w)
                               then with_timers (Timers.delete r) w
                               else w) a = heap w a).
  { intro a. destruct (Timers.has _ _); reflexivity. }
  unfold x, Tasks.safetyStops, ordersClose, idle, Tasks.closePosition,
    halt, scalpStop.
  cbv zeta.
  assert (P1 : forall y f, pnlPercent (heap (update r (set_highest f) y) r)
                           = pnlPercent (heap y r)).
  { intros y f. simpl. rewrite Nat.eqb_refl. reflexivity. }
  assert (R1 : forall y f, isRunner (heap (update r (set_highest f) y) r)
                           = isRunner (heap y r)).
  { intros y f. simpl. rewrite Nat.eqb_refl. reflexivity. }
  assert (T1 : forall y f, entryTime (heap (update r (set_highest f) y) r)
                           = entryTime (heap y r)).
  { intros y f. simpl. rewrite Nat.eqb_refl. reflexivity. }
  set (w1 := if Timers.has r (deadVolumeTimers w)
             then with_timers (Timers.delete r) w else w) in *.
  set (w2 := update r (set_price price (pnlOf (heap w1 r) price)) w1).
  assert (Hp : pnlPercent (heap w2 r) = pnl).
  { unfold w2, pnl, p. simpl. rewrite Nat.eqb_refl, H0. reflexivity. }
  assert (Hr : isRunner (heap w2 r) = isRunner p).
  { unfold w2, p. simpl. rewrite Nat.eqb_refl, H0. reflexivity. }
  assert (Ht : entryTime (heap w2 r) = entryTime p).
  { unfold w2, p. simpl. rewrite Nat.eqb_refl, H0. reflexivity. }
  assert (Hh : highestPriceSol (heap w2 r) = highestPriceSol p).
  { unfold w2, p. simpl. rewrite Nat.eqb_refl, H0. reflexivity. }
  assert (He : entryPriceSol (heap w2 r) = entryPriceSol p).
  { unfold w2, p. simpl. rewrite Nat.eqb_refl, H0. reflexivity. }
  replace (highestPriceSol (heap w1 r)) with (highestPriceSol p)
    by (unfold p; rewrite H0; reflexivity).
  set (w3 := if Qltb (highestPriceSol p) price
             then update r (set_highest price) w2 else w2).
  assert (Gp : pnlPercent (heap w3 r) = pnl).
  { unfold w3. destruct (Qltb (highestPriceSol p) price);
      [rewrite P1|]; exact Hp. }
  assert (Gr : isRunner (heap w3 r) = isRunner p).
  { unfold w3. destruct (Qltb (highestPriceSol p) price);
      [rewrite R1|]; exact Hr. }
  assert (Gt : entryTime (heap w3 r) = entryTime p).
  { unfold w3. destruct (Qltb (highestPriceSol p) price);
      [rewrite T1|]; exact Ht. }
  assert (Gk : pnlOf (heap w3 r) (highestPriceSol (heap w3 r))
               = pnlOf p peak).
  { unfold w3, peak.
    destruct (Qltb (highestPriceSol p) price).
    - unfold pnlOf. simpl. rewrite Nat.eqb_refl. simpl.
      rewrite H0. reflexivity.
    - unfold pnlOf. rewrite Hh, He. reflexivity. }
  rewrite Gp, Gr, Gt, Gk. fold age.
  unfold monitor.maxTrailingLoss.
  split; intro Run; rewrite Run; cbn [negb andb].
  - rewrite !andb_true_r.
    destruct ((age <? 30000)%Z && Qle_bool pnl (-4)) eqn:C1.
    { apply andb_true_iff in C1. destruct C1 as (A1 & B1). reflect.
      closing (or_introl (conj A1 B1) : scalpStop age pnl). }
    destruct ((age <? 60000)%Z && Qle_bool pnl (-7)) eqn:C2.
    { apply andb_true_iff in C2. destruct C2 as (A2 & B2). reflect.
      closing (or_intror (or_introl (conj A2 B2)) : scalpStop age pnl). }
    destruct (Qle_bool pnl (-12)) eqn:C3.
    { reflect.
      closing (or_intror (or_intror C3) : scalpStop age pnl). }
    assert (N : ~ scalpStop age pnl).
    { apply andb_false_iff in C1. apply andb_false_iff in C2. reflect.
      intros [(A & B)|[(A & B)|B]].
      - destruct C1; reflect; [lia | lra].
      - destruct C2; reflect; [lia | lra].
      - lra. }
    destruct (Qle_bool pnl (-20)) eqn:C4; [reflect; exfalso; lra|].
    resting N.
  - rewrite !andb_false_r. cbn [andb].
    destruct (Qle_bool pnl 2) eqn:B1; cbn [andb].
    + destruct (Qle_bool 15 (pnlOf p peak)) eqn:B2; reflect.
      * closing (conj B1 B2).
      * assert (N : ~ (pnl <= 2 /\ 15 <= pnlOf p peak))
          by (intros (_ & F); lra).
        resting N.
    + reflect.
      assert (N : ~ (pnl <= 2 /\ 15 <= pnlOf p peak))
        by (intros (F & _); lra).
      resting N.
Qed.


Lemma Timers_get_delete (r : Ref) (m : Timers.t) :
  Timers.get r (Timers.delete r m) = None.
Proof.
  induction m as [|(k' & v) m IH]; simpl; [reflexivity|].
  destruct (Nat.eqb_spec k' r) as [->|N]; simpl; [exact IH|].
  destruct (Nat.eqb_spec r k') as [->|_]; [contradiction | exact IH].
Qed.

Lemma Timers_get_append (k r : Ref) (v : Z) (m : Timers.t) :
  Timers.get k (m ++ [(r, v)])
  = match Timers.get k m with
    | Some x => Some x
    | None => if Nat.eqb k r then Some v else None
    end.
Proof.
  induction m as [|(k' & v') m IH]; simpl; [reflexivity|].
  destruct (Nat.eqb k k'); [reflexivity | exact IH].
Qed.

(** A timer that is started reads back its start. *)
Lemma Timers_get_set_fresh (r : Ref) (v : Z) (m : Timers.t) :
  Timers.has r m = false -> Timers.get r (Timers.set r v m) = Some v.
Proof.
  intros H. unfold Timers.set. rewrite H, Timers_get_append.
  unfold Timers.has in H. destruct (Timers.get r m); [discriminate|].
  rewrite Nat.eqb_refl. reflexivity.
Qed.


(** Without a price, the fast loop notes when the price was lost and
    judges on the P&L last recorded: it sends a close order, reason
    [dead_volume], exactly when that P&L is positive and the price has
    been missing for more than 15 s, at -10% or worse for more than
    3 min, between -10% and 0 for more than 5 min, or for more than
    7 min in any case.  The tick that first misses the price starts the
    timer and never closes; a close order takes the timer away. *)
Theorem dead_volume_rule (t : Z) (r : Ref) (E : Env) (w : World) :
  let p := heap w r in
  let since :=
    match Timers.get r (deadVolumeTimers w) with
    | Some t0 => t0
    | None => t
    end in
  let x := Tasks.deadVolume t r halt E w in
  (ordersClose r dead_volume x <-> deadExit (pnlPercent p) (t - since))
  /\ (idle x <-> ~ deadExit (pnlPercent p) (t - since))
  /\ (Timers.get r (deadVolumeTimers w) = None ->
      idle x /\ Timers.get r (deadVolumeTimers (fst x)) = Some t)
  /\ (ordersClose r dead_volume x ->
      Timers.get r (deadVolumeTimers (fst x)) = None).
Proof.
  intros p since x.
  set (w1 := if negb (Timers.has r (deadVolumeTimers w))
             then with_timers (Timers.set r t) w else w).
  assert (G : Timers.get r (deadVolumeTimers w1) = Some since).
  { unfold w1, since, Timers.has.
    destruct (Timers.get r (deadVolumeTimers w)) as [t0|] eqn:T; simpl.
    - exact T.
    - apply Timers_get_set_fresh. unfold Timers.has. rewrite T.
      reflexivity. }
  assert (Hx : x = if (Qltb 0 (pnlPercent p) && (15000 <? t - since)%Z)
                      || (Qle_bool (pnlPercent p) monitor.deadVolumeStopLoss
                          && (monitor.deadVolumeTimeout <? t - since)%Z)
                      || (Qltb (pnlPercent p) 0
                          && Qltb monitor.deadVolumeStopLoss (pnlPercent p)
                          && (monitor.deadVolumeTimeout
                              + monitor.deadVolumeExtension <? t - since)%Z)
                      || (7 * 60 * 1000 <? t - since)%Z
                   then Tasks.closePosition r dead_volume halt
                          (with_timers (Timers.delete r) w1)
                   else halt E w1).
  { unfold x, Tasks.deadVolume. cbv zeta. fold w1. rewrite G. fold p.
    destruct (_ && _); [reflexivity|].
    destruct (_ && _); [reflexivity|].
    destruct (_ && _); [reflexivity|].
    destruct (_ <? _)%Z; reflexivity. }
  assert (B : ((Qltb 0 (pnlPercent p) && (15000 <? t - since)%Z)
               || (Qle_bool (pnlPercent p) monitor.deadVolumeStopLoss
                   && (monitor.deadVolumeTimeout <? t - since)%Z)
               || (Qltb (pnlPercent p) 0
                   && Qltb monitor.deadVolumeStopLoss (pnlPercent p)
                   && (monitor.deadVolumeTimeout
                       + monitor.deadVolumeExtension <? t - since)%Z)
               || (7 * 60 * 1000 <? t - since)%Z) = true
              <-> deadExit (pnlPercent p) (t - since)).
  { unfold deadExit, monitor.deadVolumeStopLoss, monitor.deadVolumeTimeout,
      monitor.deadVolumeExtension.
    rewrite !orb_true_iff, !andb_true_iff, !Qltb_true, !Z.ltb_lt.
    rewrite Qle_bool_iff.
    change (3 * 60 * 1000)%Z with 180000%Z.
    change (3 * 60 * 1000 + 2 * 60 * 1000)%Z with 300000%Z.
    change (7 * 60 * 1000)%Z with 420000%Z.
    tauto. }
  rewrite Hx.
  destruct (_ || _) eqn:C.
  - pose proof (proj1 B eq_refl) as S.
    unfold ordersClose, idle, Tasks.closePosition. cbn [pending snd fst].
    split; [split; [intro; exact S | intro; split; reflexivity]|].
    split; [split; [intro D; discriminate | intro N; exfalso; exact (N S)]|].
    split.
    + intro T. exfalso. unfold since in S. rewrite T in S.
      replace (t - t)%Z with 0%Z in S by lia.
      unfold deadExit in S. lia.
    + intros _. cbn [deadVolumeTimers with_timers].
      apply Timers_get_delete.
  - assert (N : ~ deadExit (pnlPercent p) (t - since)).
    { intro S. apply B in S. discriminate. }
    unfold ordersClose, idle, halt. cbn [pending snd fst].
    split; [split; [intros [] | intro S; exact (N S)]|].
    split; [split; [intro; exact N | reflexivity]|].
    split; [|intros []].
    intro T. split; [reflexivity|].
    rewrite G. unfold since. rewrite T. reflexivity.
Qed.

End FastRules.

(** ** The capacity of the watchlist *)

Section Capacity.
Import Config DipBuyer.








End Capacity.
